(** * DeepPavlov: evolution_many_inputs_model.py

    A shallow embedding of [KerasEvolutionClassificationManyInputsModel]
    (src/deeppavlov/models/evolution/evolution_many_inputs_model.py) and the
    properties of its graph scheduling, node materialisation, cross-stream
    reduction, batch entry points and persistence. *)

From Stdlib Require Import List String Ascii ZArith Lia Bool Arith PeanoNat.
From Stdlib Require Import Relations.Relation_Operators Relations.Operators_Properties ListDec.
Import ListNotations.
Set Warnings "-register-all".
Local Open Scope string_scope.
Local Open Scope list_scope.

(** ** Python containers used by the module *)

(** A graph node id: a key of [params["nodes"]]. *)
Definition NodeId := string.

(** [x in l] on a Python list of node ids. *)
Definition mem (x : NodeId) (l : list NodeId) : bool :=
  existsb (String.eqb x) l.

(** [set(a).issubset(set(b))]. *)
Definition issubset (a b : list NodeId) : bool :=
  forallb (fun x => mem x b) a.

(** A dict whose iteration order matters: keys in insertion order. *)
Definition dict (V : Type) := list (string * V).

Fixpoint dict_get {V} (d : dict V) (k : string) : option V :=
  match d with
  | [] => None
  | (k', v) :: d' => if String.eqb k k' then Some v else dict_get d' k
  end.

Definition keys {V} (d : dict V) : list string := map fst d.

(** [d[k] = v]: overwrite in place when the key exists, else append. *)
Fixpoint dict_set {V} (d : dict V) (k : string) (v : V) : dict V :=
  match d with
  | [] => [(k, v)]
  | (k', v') :: d' =>
      if String.eqb k k' then (k', v) :: d' else (k', v') :: dict_set d' k v
  end.

(** [d.pop(k)] on a dict known to hold [k]: the dict without the key. *)
Definition dict_pop {V} (d : dict V) (k : string) : dict V :=
  filter (fun kv => negb (String.eqb k (fst kv))) d.

(** ** Graph extraction (deeppavlov.models.evolution.check_binary_mask) *)

(** The directed graph object: nodes in insertion order and edges in the
    order they were added.  [in_edges] and [out_edges] are the two views the
    module reads. *)
Record DiGraph := mkDiGraph {
  dg_nodes : list NodeId;
  dg_edges : list (NodeId * NodeId)
}.

Definition in_edges (dg : DiGraph) (v : NodeId) : list (NodeId * NodeId) :=
  filter (fun e => String.eqb (snd e) v) (dg_edges dg).

Definition out_edges (dg : DiGraph) (v : NodeId) : list (NodeId * NodeId) :=
  filter (fun e => String.eqb (fst e) v) (dg_edges dg).

Definition in_degree dg v := List.length (in_edges dg v).
Definition out_degree dg v := List.length (out_edges dg v).

(** The adjacency mask: rows of Python ints. *)
Definition Mask := list (list Z).

Definition mask_at (m : Mask) (i j : nat) : Z := nth j (nth i m []) 0%Z.

(** [np.sum(binary_mask)]. *)
Definition np_sum (m : Mask) : Z :=
  fold_right Z.add 0%Z (map (fold_right Z.add 0%Z) m).

Fixpoint enumerate {A} (i : nat) (l : list A) : list (nat * A) :=
  match l with
  | [] => []
  | x :: l' => (i, x) :: enumerate (S i) l'
  end.

(** Modelled from the spec: [get_digraph_from_binary_mask] of
    check_binary_mask.py is not among the sources.  Section 4.1: the graph is
    keyed by NodeId, over the fixed ordering of the node ids, and
    [mask[i][j] == 1] means an edge from node i to node j.  The mask is
    required to be square of the size of the node table; a cell outside the
    supplied rows reads as 0 here. *)
Definition get_digraph_from_binary_mask {V} (nodes : dict V) (mask : Mask)
  : DiGraph :=
  let ids := enumerate 0 (keys nodes) in
  mkDiGraph (keys nodes)
    (flat_map (fun iu =>
       flat_map (fun jv =>
         if Z.eqb (mask_at mask (fst iu) (fst jv)) 1
         then [(snd iu, snd jv)] else []) ids) ids).

(** Modelled from the spec: [find_sources_and_sinks] of check_binary_mask.py
    is not among the sources.  Section 3: sources have in-degree 0 and
    out-degree > 0, sinks out-degree 0 and in-degree > 0, isolates in-degree 0
    and out-degree 0. *)
Definition find_sources_and_sinks (dg : DiGraph)
  : list NodeId * list NodeId * list NodeId :=
  (filter (fun v => Nat.eqb (in_degree dg v) 0 && negb (Nat.eqb (out_degree dg v) 0))
          (dg_nodes dg),
   filter (fun v => Nat.eqb (out_degree dg v) 0 && negb (Nat.eqb (in_degree dg v) 0))
          (dg_nodes dg),
   filter (fun v => Nat.eqb (in_degree dg v) 0 && Nat.eqb (out_degree dg v) 0)
          (dg_nodes dg)).

Definition sources_of dg := fst (fst (find_sources_and_sinks dg)).
Definition sinks_of dg := snd (fst (find_sources_and_sinks dg)).
Definition isolates_of dg := snd (find_sources_and_sinks dg).

(** ** The scheduling loop of [evolution_many_inputs_classification_model] *)

(** [sum(sequence_of_nodes, [])]. *)
Definition flatten (sequence_of_nodes : list (list NodeId)) : list NodeId :=
  List.concat sequence_of_nodes.

(** One pass of the body of [while True] (source lines 309-323): the children
    of the nodes of the last layer whose parents are all scheduled, one entry
    per parent edge. *)
Definition next_nodes (dg : DiGraph) (sequence_of_nodes : list (list NodeId))
  : list NodeId :=
  flat_map (fun node_str_id =>
    flat_map (fun edge =>
      let in_nodes_to_edge := map fst (in_edges dg (snd edge)) in
      if issubset in_nodes_to_edge (flatten sequence_of_nodes)
      then [snd edge] else [])
      (out_edges dg node_str_id))
    (last sequence_of_nodes []).

(** The [while True] loop (source lines 306-324).  The source loop has no
    bound; [fuel] counts the iterations allowed, and [None] says the loop is
    still running when they are used up. *)
Fixpoint schedule_loop (fuel : nat) (dg : DiGraph) (sinks : list NodeId)
  (sequence_of_nodes : list (list NodeId)) : option (list (list NodeId)) :=
  match fuel with
  | O => None
  | S fuel' =>
      if issubset sinks (flatten sequence_of_nodes)
      then Some sequence_of_nodes
      else schedule_loop fuel' dg sinks
             (sequence_of_nodes ++ [next_nodes dg sequence_of_nodes])
  end.

(** The sequence after [k] passes of the loop body, from [[sources]]. *)
Fixpoint layers (dg : DiGraph) (sources : list NodeId) (k : nat)
  : list (list NodeId) :=
  match k with
  | O => [sources]
  | S k' => let s := layers dg sources k' in s ++ [next_nodes dg s]
  end.

(** Graph predicates used by the statements. *)

Definition edge (dg : DiGraph) (u v : NodeId) : Prop := In (u, v) (dg_edges dg).

(** Is there a walk of [k] edges ending in [v]? *)
Fixpoint walk_to (dg : DiGraph) (k : nat) (v : NodeId) : bool :=
  match k with
  | O => true
  | S k' => existsb (fun e => walk_to dg k' (fst e)) (in_edges dg v)
  end.

(** A graph on n nodes is acyclic exactly when it has no walk of n edges. *)
Definition is_dag (dg : DiGraph) : bool :=
  negb (existsb (walk_to dg (List.length (dg_nodes dg))) (dg_nodes dg)).

(** Every occurrence of a node comes after an occurrence of each of its
    predecessors. *)
Definition predecessors_first (dg : DiGraph) (l : list NodeId) : Prop :=
  forall l1 v l2, l = l1 ++ v :: l2 ->
  forall u, edge dg u v -> In u l1.

(** A topological order: every node is listed once, after all its
    predecessors. *)
Definition topological (dg : DiGraph) (l : list NodeId) : Prop :=
  NoDup l /\ predecessors_first dg l.

(** A sequence without the repeated listings: each node at its first
    occurrence. *)
Fixpoint first_occurrences (l : list NodeId) : list NodeId :=
  match l with
  | [] => []
  | v :: l' => v :: filter (fun u => negb (String.eqb u v)) (first_occurrences l')
  end.

(** The nodes visited by a walk of the graph, in order, and its end. *)
Inductive walk (dg : DiGraph) : list NodeId -> NodeId -> Prop :=
| walk_one v : walk dg [v] v
| walk_snoc p u v : walk dg p u -> edge dg u v -> walk dg (p ++ [v]) v.

(** Some node reaches itself along at least one edge. *)
Definition cyclic (dg : DiGraph) : Prop :=
  exists v, clos_trans NodeId (edge dg) v v.

Definition edges_closed (dg : DiGraph) : Prop :=
  forall u v, edge dg u v -> In u (dg_nodes dg) /\ In v (dg_nodes dg).

(** ** Python values, exceptions and outcomes *)

(** The JSON-like values found in node specs and passed as batch arguments. *)
Inductive pyval :=
| PNone
| PBool (b : bool)
| PInt (z : Z)
| PFloat (num : Z) (den : positive)
| PStr (s : string)
| PList (l : list pyval)
| PTuple (l : list pyval).

Inductive exn :=
| ValueError (msg : string)
| AttributeError (msg : string)
| KeyError (key : string)
| IndexError (msg : string)
| TypeError (msg : string)
| AssertionError.

(** What running a piece of the module gives: a value, a raised exception, or
    [Running] when the unbounded [while True] loop has not left within the
    iterations allowed. *)
Inductive result (A : Type) :=
| Ok (a : A)
| Raise (e : exn)
| Running.
Arguments Ok {A} a.
Arguments Raise {A} e.
Arguments Running {A}.

(** Sequencing of outcomes, and [[f(x) for x in xs]] with a fallible [f]. *)
Definition rbind {A B} (r : result A) (f : A -> result B) : result B :=
  match r with
  | Ok a => f a
  | Raise e => Raise e
  | Running => Running
  end.

Fixpoint map_result {A B} (f : A -> result B) (xs : list A) : result (list B) :=
  match xs with
  | [] => Ok []
  | x :: xs' => rbind (f x) (fun y => rbind (map_result f xs') (fun ys => Ok (y :: ys)))
  end.

(** What a call of a collaborator of the module gives: the value it returns
    or the exception it raises. *)
Inductive outcome (A : Type) :=
| Returns (a : A)
| Raises (e : exn).
Arguments Returns {A} a.
Arguments Raises {A} e.

Definition run {A} (o : outcome A) : result A :=
  match o with
  | Returns a => Ok a
  | Raises e => Raise e
  end.

(** [d[k]] on a dict: [KeyError] when the key is missing. *)
Definition dict_item {V} (d : dict V) (k : string) : result V :=
  match dict_get d k with
  | Some v => Ok v
  | None => Raise (KeyError k)
  end.

(** [d.pop(k)]: the dict without [k]; [KeyError] when the key is missing. *)
Definition pop {V} (d : dict V) (k : string) : result (dict V) :=
  match dict_get d k with
  | Some _ => Ok (dict_pop d k)
  | None => Raise (KeyError k)
  end.

(** [bool(v)]. *)
Definition truthy (v : pyval) : bool :=
  match v with
  | PNone => false
  | PBool b => b
  | PInt z => negb (Z.eqb z 0)
  | PFloat num _ => negb (Z.eqb num 0)
  | PStr s => negb (String.eqb s "")
  | PList l | PTuple l => negb (Nat.eqb (List.length l) 0)
  end.

(** [v[i]] for a non-negative index. *)
Definition py_index (v : pyval) (i : nat) : result pyval :=
  match v with
  | PList l | PTuple l =>
      match nth_error l i with
      | Some x => Ok x
      | None => Raise (IndexError "index out of range")
      end
  | PStr s =>
      match String.get i s with
      | Some c => Ok (PStr (String c EmptyString))
      | None => Raise (IndexError "string index out of range")
      end
  | _ => Raise (TypeError "object is not subscriptable")
  end.

(** [isinstance(v, str)]. *)
Definition is_str (v : pyval) : bool :=
  match v with PStr _ => true | _ => false end.

(** ** Keras objects *)

(** [K.int_shape]: a tuple of dimensions, [None] for an unknown one. *)
Definition shape := list (option nat).

(** The layer constructors the module calls, with the arguments it passes. *)
Inductive layer_cfg :=
| Dense (units : nat)
| GlobalMaxPooling1D
| Lambda_expand_tile
| Concatenate (axis : Z)
| Add
| Multiply
| Subtract
| Activation (activation : string)
| Bidirectional_CuDNNLSTM (node_params : dict pyval)
| multiplicative_self_attention_init (node_params : dict pyval)
| node_func (node_name : string) (node_params : dict pyval).

(** A layer object; [layer_id] is its identity. *)
Record Layer := mkLayer {
  layer_id : nat;
  layer_cfg_of : layer_cfg
}.

(** A symbolic tensor: a model input, or the output of a layer call. *)
Inductive Tensor :=
| InputTensor (id : nat) (s : shape)
| LayerOutput (l : Layer) (args : list Tensor) (s : shape).

Definition int_shape (t : Tensor) : shape :=
  match t with
  | InputTensor _ s => s
  | LayerOutput _ _ s => s
  end.

Record Model := mkModel {
  model_inputs : list Tensor;
  model_outputs : Tensor
}.

(** What a build does, in order. *)
Inductive event :=
| EvNew (l : Layer)
| EvCall (l : Layer) (args : list Tensor)
| EvGetDigraph
| EvFindSourcesAndSinks
| EvInitializeAllNodes
| EvGetNodeOutput (node_str_id : NodeId).

Record World := mkWorld {
  next_id : nat;
  trace : list event
}.

(** *** Shape rules of the Keras 2 layers the module uses *)

(** Python index into a tuple of length [n]: negative indices count from the
    end. *)
Definition norm_axis (axis : Z) (n : nat) : option nat :=
  if (axis <? 0)%Z
  then (if (0 <=? Z.of_nat n + axis)%Z then Some (Z.to_nat (Z.of_nat n + axis)) else None)
  else (if (axis <? Z.of_nat n)%Z then Some (Z.to_nat axis) else None).

Fixpoint del_at {A} (i : nat) (l : list A) : list A :=
  match i, l with
  | _, [] => []
  | O, _ :: l' => l'
  | S i', x :: l' => x :: del_at i' l'
  end.

Fixpoint set_at {A} (i : nat) (x : A) (l : list A) : list A :=
  match i, l with
  | _, [] => []
  | O, _ :: l' => x :: l'
  | S i', y :: l' => y :: set_at i' x l'
  end.

Definition dim_eqb (a b : option nat) : bool :=
  match a, b with
  | Some x, Some y => Nat.eqb x y
  | None, None => true
  | _, _ => false
  end.

Fixpoint shape_eqb (a b : shape) : bool :=
  match a, b with
  | [], [] => true
  | x :: a', y :: b' => dim_eqb x y && shape_eqb a' b'
  | _, _ => false
  end.

Definition dim_add (a b : option nat) : option nat :=
  match a, b with
  | Some x, Some y => Some (x + y)
  | _, _ => None
  end.

(** [del reduced_inputs_shapes[i][self.axis]]: [IndexError] when the shape
    has no such axis. *)
Definition del_axis (axis : Z) (s : shape) : result shape :=
  match norm_axis axis (List.length s) with
  | Some a => Ok (del_at a s)
  | None => Raise (IndexError "list assignment index out of range")
  end.

(** [Concatenate(axis).build] and [compute_output_shape]: at least two
    inputs, equal shapes once the concat axis is deleted; the output sums the
    concat axis. *)
Definition concatenate_shape (axis : Z) (ins : list shape) : result shape :=
  match ins with
  | [] | [_] =>
      Raise (ValueError "A `Concatenate` layer should be called on a list of at least 2 inputs")
  | s0 :: rest =>
      match map_result (del_axis axis) ins with
      | Ok reduced =>
          if forallb (fun r => shape_eqb r (hd [] reduced)) reduced
          then
            match norm_axis axis (List.length s0) with
            | Some a0 =>
                Ok (set_at a0
                      (fold_left (fun acc s => dim_add acc (nth a0 s None))
                                 rest (nth a0 s0 None)) s0)
            | None => Raise (IndexError "list assignment index out of range")
            end
          else Raise (ValueError "A `Concatenate` layer requires inputs with matching shapes except for the concat axis.")
      | Raise e => Raise e
      | Running => Running
      end
  end.

(** [_Merge._compute_elemwise_op_output_shape] on two shapes without their
    batch axis, the longer first. *)
Fixpoint broadcast_dims (s1 s2 : list (option nat)) : result (list (option nat)) :=
  match s1, s2 with
  | i :: s1', j :: s2' =>
      match broadcast_dims s1' s2' with
      | Ok r =>
          match i, j with
          | None, _ | _, None => Ok (None :: r)
          | Some x, Some y =>
              if Nat.eqb x 1 then Ok (Some y :: r)
              else if Nat.eqb y 1 then Ok (Some x :: r)
              else if Nat.eqb x y then Ok (Some x :: r)
              else Raise (ValueError "Operands could not be broadcast together")
          end
      | r => r
      end
  | _, _ => Ok []
  end.

Definition elemwise_op_output_shape (shape1 shape2 : list (option nat))
  : result (list (option nat)) :=
  let (a, b) := if Nat.ltb (List.length shape1) (List.length shape2)
                then (shape2, shape1) else (shape1, shape2) in
  let k := List.length a - List.length b in
  match broadcast_dims (skipn k a) b with
  | Ok r => Ok (firstn k a ++ r)
  | r => r
  end.

Fixpoint dedup_dims (l : list nat) : list nat :=
  match l with
  | [] => []
  | x :: l' => if existsb (Nat.eqb x) l' then dedup_dims l' else x :: dedup_dims l'
  end.

(** [_Merge.build]/[compute_output_shape] ([Add], [Multiply]): a list of at
    least two inputs, one batch size, dimensions that broadcast. *)
Definition merge_shape (ins : list shape) : result shape :=
  match ins with
  | [] | [_] =>
      Raise (ValueError "A merge layer should be called on a list of at least 2 inputs.")
  | s0 :: rest =>
      let batch_sizes :=
        dedup_dims (flat_map (fun s => match hd None s with Some b => [b] | None => [] end) ins) in
      if Nat.ltb 1 (List.length batch_sizes)
      then Raise (ValueError "Can not merge tensors with different batch sizes.")
      else
        match fold_left (fun acc s =>
                match acc with
                | Ok o => elemwise_op_output_shape o (tl s)
                | r => r
                end) rest (Ok (tl s0)) with
        | Ok o => Ok (match batch_sizes with b :: _ => Some b | [] => None end :: o)
        | r => r
        end
  end.

Definition known_activations : list string :=
  ["softmax"; "elu"; "selu"; "softplus"; "softsign"; "relu"; "tanh";
   "sigmoid"; "hard_sigmoid"; "linear"].

(** Modelled from the spec: [expand_tile] of deeppavlov.models.evolution.utils
    is not among the sources.  Section 4.3: a rank-2 output is lifted to rank
    3 by tiling it across a synthetic time axis of length 1. *)
Definition expand_tile_shape (s : shape) : result shape :=
  match s with
  | b :: rest => Ok (b :: Some 1 :: rest)
  | [] => Raise (ValueError "expand_tile needs a batch axis")
  end.

(** The output shape of one of the Keras layers the module instantiates
    itself, or the exception the call raises. *)
Definition keras_shape (cfg : layer_cfg) (ins : list shape) : result shape :=
  match cfg, ins with
  | Dense units, [s] =>
      if Nat.ltb (List.length s) 2
      then Raise (ValueError "Input 0 is incompatible with layer dense: expected min_ndim=2")
      else match last s None with
           | Some _ => Ok (removelast s ++ [Some units])
           | None => Raise (ValueError "The last dimension of the inputs to `Dense` should be defined. Found `None`.")
           end
  | GlobalMaxPooling1D, [s] =>
      match s with
      | [b; _; f] => Ok [b; f]
      | _ => Raise (ValueError "Input 0 is incompatible with layer global_max_pooling1d: expected ndim=3")
      end
  | Lambda_expand_tile, [s] => expand_tile_shape s
  | Concatenate axis, _ => concatenate_shape axis ins
  | Add, _ | Multiply, _ => merge_shape ins
  | Subtract, _ =>
      if Nat.eqb (List.length ins) 2 then merge_shape ins
      else Raise (ValueError "A `Subtract` layer should be called on exactly 2 inputs")
  | Activation name, [s] =>
      if existsb (String.eqb name) known_activations then Ok s
      else Raise (ValueError "Unknown activation function")
  | _, _ => Raise (ValueError "Layer was called with an input that isn't a symbolic tensor.")
  end.

(** ** The build monad: layer identities and the trace of a build *)

Definition M (A : Type) : Type := World -> result A * World.

Definition ret {A} (a : A) : M A := fun w => (Ok a, w).

Definition bind {A B} (m : M A) (f : A -> M B) : M B :=
  fun w =>
    match m w with
    | (Ok a, w') => f a w'
    | (Raise e, w') => (Raise e, w')
    | (Running, w') => (Running, w')
    end.

Notation "x <- m ;; k" := (bind m (fun x => k))
  (at level 61, m at next level, right associativity).
Notation "m ;; k" := (bind m (fun _ => k))
  (at level 61, right associativity).

Definition raise {A} (e : exn) : M A := fun w => (Raise e, w).

(** Lift a pure outcome. *)
Definition lift {A} (r : result A) : M A := fun w => (r, w).

(** [try: body / except ValueError: handler]: other exceptions pass. *)
Definition try_except_ValueError {A} (body handler : M A) : M A :=
  fun w =>
    match body w with
    | (Raise (ValueError _), w') => handler w'
    | r => r
    end.

Definition log (e : event) : M unit :=
  fun w => (Ok tt, mkWorld (next_id w) (trace w ++ [e])).

(** A constructor call [Cls(...)]: a fresh layer object. *)
Definition new_layer (cfg : layer_cfg) : M Layer :=
  fun w =>
    let l := mkLayer (next_id w) cfg in
    (Ok l, mkWorld (S (next_id w)) (trace w ++ [EvNew l])).

(** [for x in xs: acc = body(acc, x)]. *)
Fixpoint for_each {A S} (xs : list A) (body : S -> A -> M S) (acc : S) : M S :=
  match xs with
  | [] => ret acc
  | x :: xs' => acc' <- body acc x ;; for_each xs' body acc'
  end.

(** [[f(x) for x in xs]]. *)
Fixpoint map_M {A B} (f : A -> M B) (xs : list A) : M (list B) :=
  match xs with
  | [] => ret []
  | x :: xs' => y <- f x ;; ys <- map_M f xs' ;; ret (y :: ys)
  end.

(** ** The architecture descriptor *)

Inductive text_size_cfg :=
| TextSizeInt (n : Z)
| TextSizeList (l : list Z).

(** [opt["binary_mask"]] is a nested list in the configuration and an
    [np.ndarray] once the model is constructed. *)
Inductive mask_value :=
| ndarray (m : Mask)
| pylist (m : Mask).

Definition mask_entries (v : mask_value) : Mask :=
  match v with ndarray m => m | pylist m => m end.

(** [np.array(v)]. *)
Definition np_array (v : mask_value) : mask_value := ndarray (mask_entries v).

(** The entries of [params] / [self.opt] the module reads.  The node specs
    live under their own keys of the same dict; they are kept in
    [p_node_specs]. *)
Record Params := mkParams {
  p_in : list string;
  p_text_size : text_size_cfg;
  p_embedding_size : Z;
  p_binary_mask : mask_value;
  p_nodes : dict string;
  p_node_specs : dict (dict pyval);
  p_n_types : Z;
  p_confident_threshold : string;
  p_last_layer_activation : option string
}.

(** [params.get("last_layer_activation", "sigmoid")] *)
Definition default_activation (params : Params) : string :=
  match p_last_layer_activation params with
  | Some a => a
  | None => "sigmoid"
  end.

(** Sizes [Input] accepts: a non-negative embedding size and, for each
    stream, a non-negative text size. *)
Definition valid_sizes (params : Params) : bool :=
  (0 <=? p_embedding_size params)%Z &&
  match p_text_size params with
  | TextSizeInt ts => (0 <=? ts)%Z
  | TextSizeList l =>
      Nat.leb (List.length (p_in params)) (List.length l) &&
      forallb (fun ts => (0 <=? ts)%Z) l
  end.

(** The names bound in the module's global namespace by its imports and
    definitions, with whether the object is callable. *)
Definition module_globals : list (string * bool) :=
  [("np", false); ("copy", true); ("deepcopy", true);
   ("Dense", true); ("Input", true); ("concatenate", true); ("Activation", true);
   ("Conv1D", true); ("Dropout", true); ("BatchNormalization", true);
   ("GlobalMaxPooling1D", true); ("MaxPooling1D", true); ("LSTM", true);
   ("Bidirectional", true); ("Model", true); ("l2", true);
   ("Concatenate", true); ("Reshape", true); ("CuDNNLSTM", true);
   ("Lambda", true); ("Add", true); ("Subtract", true); ("Multiply", true);
   ("K", false); ("overrides", true); ("Path", true);
   ("ConfigError", true); ("register", true); ("KerasModel", true);
   ("KerasIntentModel", true); ("labels2onehot", true); ("log_metrics", true);
   ("proba2labels", true); ("FasttextEmbedder", true); ("md5_hashsum", true);
   ("NLTKTokenizer", true); ("get_logger", true);
   ("number_to_type_layer", true); ("find_sources_and_sinks", true);
   ("get_digraph_from_binary_mask", true); ("get_graph_and_plot", true);
   ("expand_tile", true); ("save_json", true); ("read_json", true);
   ("multiplicative_self_attention_init", true);
   ("multiplicative_self_attention_get_output", true);
   ("log", false);
   ("KerasEvolutionClassificationManyInputsModel", true);
   ("__name__", false); ("__doc__", false); ("__package__", false);
   ("__loader__", false); ("__spec__", false); ("__file__", false);
   ("__cached__", false); ("__builtins__", false)].

(** [hash(v)] is defined: a list is unhashable, and so is a tuple that
    holds an unhashable value. *)
Fixpoint hashable (v : pyval) : bool :=
  match v with
  | PList _ => false
  | PTuple l => forallb hashable l
  | _ => true
  end.

(** [globals().get(name, None)]: the object bound to [name], as its name and
    whether it is callable, [None] when nothing is bound to it; the lookup
    hashes [name] and raises [TypeError] when it cannot. *)
Definition globals_get (name : pyval) : result (option (string * bool)) :=
  if hashable name then
    Ok (match name with
        | PStr n =>
            match dict_get module_globals n with
            | Some c => Some (n, c)
            | None => None
            end
        | _ => None
        end)
  else Raise (TypeError "unhashable type: 'list'").

(** [callable(node_func)], with the name of the callable. *)
Definition callable (node_func : option (string * bool)) : option string :=
  match node_func with
  | Some (n, true) => Some n
  | _ => None
  end.

Definition pyval_is_str (v : pyval) (s : string) : bool :=
  match v with PStr n => String.eqb n s | _ => false end.

(** [node_params = deepcopy(spec)] followed by the three [pop]s. *)
Definition strip_node_keys (spec : dict pyval) : result (dict pyval) :=
  match pop spec "node_name" with
  | Ok d1 =>
      match pop d1 "node_type" with
      | Ok d2 => pop d2 "node_layer"
      | r => r
      end
  | r => r
  end.

(** [params[params["nodes"][node_str_id]]]. *)
Definition node_spec (params : Params) (node_str_id : NodeId)
  : result (string * dict pyval) :=
  match dict_item (p_nodes params) node_str_id with
  | Ok key =>
      match dict_item (p_node_specs params) key with
      | Ok spec => Ok (key, spec)
      | Raise e => Raise e
      | Running => Running
      end
  | Raise e => Raise e
  | Running => Running
  end.

Definition node_name_of (spec : dict pyval) : result pyval :=
  dict_item spec "node_name".

(** *** Node specs as objects *)

(** The dict objects of a run, by address.  [deepcopy] allocates a new
    object holding the entries of the one it copies (the values of a node
    spec are numbers, strings and lists of them, and are copied along);
    [pop] updates an object in place. *)
Definition Heap := list (dict pyval).

Definition deepcopy (h : Heap) (a : nat) : Heap * nat :=
  (h ++ [nth a h []], List.length h).

Definition obj_pop (h : Heap) (a : nat) (k : string) : result Heap :=
  match dict_get (nth a h []) k with
  | Some _ => Ok (set_at a (dict_pop (nth a h []) k) h)
  | None => Raise (KeyError k)
  end.

(** Source lines 201-204, 209-212, 224-227, 230-233 and 238-241, on objects:
    [node_params = deepcopy(spec)], then the three [pop]s on [node_params]. *)
Definition strip_node_keys_at (h : Heap) (spec : nat) : result (Heap * nat) :=
  let (h, node_params) := deepcopy h spec in
  rbind (obj_pop h node_params "node_name") (fun h =>
  rbind (obj_pop h node_params "node_type") (fun h =>
  rbind (obj_pop h node_params "node_layer") (fun h =>
  Ok (h, node_params)))).

(** ** Model construction *)

(** [Input(shape=(text_size, embedding_size))]: a fresh rank-3 placeholder
    with an unknown batch size; a negative dimension is rejected. *)
Definition Input (text_size embedding_size : Z) : M Tensor :=
  fun w =>
    if ((text_size <? 0) || (embedding_size <? 0))%Z
    then (Raise (ValueError "Dimension must be >= 0"), w)
    else (Ok (InputTensor (next_id w)
                [None; Some (Z.to_nat text_size); Some (Z.to_nat embedding_size)]),
          mkWorld (S (next_id w)) (trace w)).

(** [max(features)] on dimensions that may be [None]. *)
Definition py_max (l : list (option nat)) : result (option nat) :=
  match l with
  | [] => Raise (ValueError "max() arg is an empty sequence")
  | [x] => Ok x
  | _ =>
      if forallb (fun d => match d with Some _ => true | None => false end) l
      then Ok (Some (fold_right (fun d m => match d with Some x => Nat.max x m | None => m end) 0 l))
      else Raise (TypeError "'>' not supported between instances of 'NoneType' and 'int'")
  end.

(** [t[i]] on a shape tuple. *)
Definition shape_item (s : shape) (i : nat) : result (option nat) :=
  match nth_error s i with
  | Some d => Ok d
  | None => Raise (IndexError "tuple index out of range")
  end.

Section Build.

(** The layer catalog is a collaborator: what a node layer (an entry of the
    module globals built from the node's keyword arguments, the
    bidirectional recurrent wrapper, the attention block) returns on given
    input shapes is a parameter of the construction.  The rule is asked at
    every call; what a layer remembers of earlier calls is not modelled. *)
Variable node_shape : layer_cfg -> list shape -> result shape.

(** So is the construction of a node layer: the constructor of a catalog
    entry, of the bidirectional recurrent wrapper or of the attention block
    checks the keyword arguments it is given and may raise; [node_init] gives
    the exception, [None] when the constructor returns. *)
Variable node_init : layer_cfg -> option exn.

Definition layer_output_shape (cfg : layer_cfg) (ins : list shape) : result shape :=
  match cfg with
  | Bidirectional_CuDNNLSTM _
  | multiplicative_self_attention_init _
  | node_func _ _ => node_shape cfg ins
  | _ => keras_shape cfg ins
  end.

(** [layer(args)]: the application is recorded, then the layer checks the
    shapes and either returns its output tensor or raises. *)
Definition call (l : Layer) (args : list Tensor) : M Tensor :=
  fun w =>
    let w' := mkWorld (next_id w) (trace w ++ [EvCall l args]) in
    match layer_output_shape (layer_cfg_of l) (map int_shape args) with
    | Ok s => (Ok (LayerOutput l args s), w')
    | Raise e => (Raise e, w')
    | Running => (Running, w')
    end.

(** Modelled from the spec: [multiplicative_self_attention_get_output] of
    deeppavlov.core.layers.keras_layers is not among the sources.  Section
    4.3: an apply call that consumes the parameters built by the init call
    and the input tensor and produces the attention output. *)
Definition multiplicative_self_attention_get_output (inp : Tensor)
    (initialized : Layer) : M Tensor :=
  call initialized [inp].

(** [Lambda(lambda x: expand_tile(x, axis=1))(t)] *)
Definition lift_rank2 (t : Tensor) : M Tensor :=
  l <- new_layer Lambda_expand_tile ;; call l [t].

(** Source lines 185-188: the body of the first loop of the fallback. *)
Definition fallback_lift (t : Tensor) : M (Tensor * option nat) :=
  t' <- (if Nat.eqb (List.length (int_shape t)) 2 then lift_rank2 t else ret t) ;;
  time_step <- lift (shape_item (int_shape t') 1) ;;
  feature <- lift (shape_item (int_shape t') 2) ;;
  ret (t', feature).

(** Source lines 192-195: the body of the second loop of the fallback. *)
Definition fallback_project (new_feature_shape : option nat) (t : Tensor) : M Tensor :=
  d <- lift (shape_item (int_shape t) 2) ;;
  if dim_eqb d new_feature_shape then ret t
  else match new_feature_shape with
       | Some units => l <- new_layer (Dense units) ;; call l [t]
       | None => raise (TypeError "Dense units must be an int")
       end.

(** Source lines 182-196: the [except ValueError] branch. *)
Definition concat_fallback (inp_list : list Tensor) : M Tensor :=
  lifted <- map_M fallback_lift inp_list ;;
  let inp_list := map fst lifted in
  let features := map snd lifted in
  new_feature_shape <- lift (py_max features) ;;
  new_inp_list <- map_M (fallback_project new_feature_shape) inp_list ;;
  c <- new_layer (Concatenate 1) ;;
  call c new_inp_list.

(** Source lines 170-177: the body of the first loop of [get_node_output]. *)
Definition gather_one (edges_outputs : dict Tensor) (input_node : NodeId) : M Tensor :=
  t <- lift (dict_item edges_outputs input_node) ;;
  if Nat.eqb (List.length (int_shape t)) 3 then ret t
  else if Nat.eqb (List.length (int_shape t)) 2 then lift_rank2 t
  else raise (ValueError "All the layers should take in and take out 2 and 3 dimensional tensors!").

(** Source lines 167-198: the input of a non-source node from the outputs
    of its predecessors. *)
Definition gather_inputs (node_str_id : NodeId) (dg : DiGraph)
    (edges_outputs : dict Tensor) : M Tensor :=
  let input_nodes := map fst (in_edges dg node_str_id) in
  inp_list <- map_M (gather_one edges_outputs) input_nodes ;;
  if Nat.ltb 1 (List.length input_nodes)
  then try_except_ValueError
         (c <- new_layer (Concatenate (-1)) ;; call c inp_list)
         (concat_fallback inp_list)
  else match inp_list with
       | t :: _ => ret t
       | [] => raise (IndexError "list index out of range")
       end.

(** [get_node_output] (source lines 166-214). *)
Definition get_node_output (model_layers : dict Layer) (node_str_id : NodeId)
    (dg : DiGraph) (params : Params) (edges_outputs : dict Tensor)
    (inp : option Tensor) : M Tensor :=
  log (EvGetNodeOutput node_str_id) ;;
  inp <- match inp with
         | Some t => ret t
         | None => gather_inputs node_str_id dg edges_outputs
         end ;;
  ks <- lift (node_spec params node_str_id) ;;
  name <- lift (node_name_of (snd ks)) ;;
  if pyval_is_str name "SelfMultiplicativeAttention" then
    node_params <- lift (strip_node_keys (snd ks)) ;;
    layer <- lift (dict_item model_layers (fst ks)) ;;
    multiplicative_self_attention_get_output inp layer
  else
    node_func_ <- lift (globals_get name) ;;
    node_params <- lift (strip_node_keys (snd ks)) ;;
    layer <- lift (dict_item model_layers (fst ks)) ;;
    call layer [inp].

(** A constructor call of [initialize_all_nodes] (source lines 228, 235 and
    243): the constructor raises, or a new layer object is returned. *)
Definition construct (cfg : layer_cfg) : M Layer :=
  match node_init cfg with
  | Some e => raise e
  | None => new_layer cfg
  end.

(** Source lines 222-245: the body of the loop over the node ids. *)
Definition initialize_node (params : Params) (isolates : list NodeId)
    (model_layers : dict Layer) (node_str_id : NodeId) : M (dict Layer) :=
  if negb (mem node_str_id isolates) then
    ks <- lift (node_spec params node_str_id) ;;
    name <- lift (node_name_of (snd ks)) ;;
    if pyval_is_str name "BiCuDNNLSTM" then
      node_params <- lift (strip_node_keys (snd ks)) ;;
      l <- construct (Bidirectional_CuDNNLSTM node_params) ;;
      ret (dict_set model_layers (fst ks) l)
    else if pyval_is_str name "SelfMultiplicativeAttention" then
      node_params <- lift (strip_node_keys (snd ks)) ;;
      l <- construct (multiplicative_self_attention_init node_params) ;;
      ret (dict_set model_layers (fst ks) l)
    else
      node_func_ <- lift (globals_get name) ;;
      node_params <- lift (strip_node_keys (snd ks)) ;;
      match callable node_func_ with
      | Some n =>
          l <- construct (node_func n node_params) ;;
          ret (dict_set model_layers (fst ks) l)
      | None =>
          raise (AttributeError ("Node " ++ node_str_id ++ " is not defined correctly"))
      end
  else ret model_layers.

(** [initialize_all_nodes] (source lines 216-247). *)
Definition initialize_all_nodes (params : Params) : M (dict Layer) :=
  log EvInitializeAllNodes ;;
  log EvGetDigraph ;;
  let dg := get_digraph_from_binary_mask (p_nodes params)
              (mask_entries (np_array (p_binary_mask params))) in
  log EvFindSourcesAndSinks ;;
  let isolates := isolates_of dg in
  for_each (keys (p_nodes params)) (initialize_node params isolates) [].

(** Source lines 275-291 and 372-388: the combination of the per-stream
    vectors and the classification head. *)
Definition cross_stream_head (n_classes : nat) (params : Params)
    (inputs full_outputs : list Tensor) : M Model :=
  add <- new_layer Add ;;
  summ <- call add full_outputs ;;
  mul <- new_layer Multiply ;;
  mult <- call mul full_outputs ;;
  full_outputs <- try_except_ValueError
      (sub <- new_layer Subtract ;;
       subt <- call sub full_outputs ;;
       ret (full_outputs ++ [subt]))
      (ret full_outputs) ;;
  let full_outputs := full_outputs ++ [summ] in
  let full_outputs := full_outputs ++ [mult] in
  c <- new_layer (Concatenate (-1)) ;;
  output <- call c full_outputs ;;
  d <- new_layer (Dense n_classes) ;;
  output <- call d [output] ;;
  let activation := default_activation params in
  a <- new_layer (Activation activation) ;;
  act_output <- call a [output] ;;
  ret (mkModel inputs act_output).

(** Source lines 258-264. *)
Definition make_inputs (params : Params) : M (list Tensor) :=
  match p_text_size params with
  | TextSizeList l =>
      map_M (fun i =>
        match nth_error l i with
        | Some ts => Input ts (p_embedding_size params)
        | None => raise (IndexError "list index out of range")
        end) (seq 0 (List.length (p_in params)))
  | TextSizeInt ts =>
      map_M (fun _ => Input ts (p_embedding_size params))
            (seq 0 (List.length (p_in params)))
  end.

(** Source lines 269-273. *)
Definition degenerate_streams (inputs : list Tensor) : M (list Tensor) :=
  dense1 <- new_layer (Dense 1) ;;
  globalmaxpooling <- new_layer GlobalMaxPooling1D ;;
  for_each inputs (fun full_outputs inp =>
    output <- call dense1 [inp] ;;
    pooled <- call globalmaxpooling [output] ;;
    ret (full_outputs ++ [pooled])) [].

(** Source lines 347-366: the stream's output from the sinks. *)
Definition sinks_output (sinks : list NodeId) (edges_outputs : dict Tensor)
  : M Tensor :=
  match sinks with
  | [sink] => lift (dict_item edges_outputs sink)
  | _ =>
      outputs <- map_M (fun sink => lift (dict_item edges_outputs sink)) sinks ;;
      try_except_ValueError
        (c <- new_layer (Concatenate (-1)) ;; call c outputs)
        (outputs <- map_M (fun t =>
             if Nat.eqb (List.length (int_shape t)) 3
             then g <- new_layer GlobalMaxPooling1D ;; call g [t]
             else ret t) outputs ;;
         c <- new_layer (Concatenate 1) ;;
         call c outputs)
  end.

(** Source lines 296-370: the body of [for inp in inputs]. *)
Definition build_stream (fuel : nat) (params : Params) (model_layers : dict Layer)
    (inp : Tensor) : M Tensor :=
  log EvGetDigraph ;;
  let dg := get_digraph_from_binary_mask (p_nodes params)
              (mask_entries (np_array (p_binary_mask params))) in
  log EvFindSourcesAndSinks ;;
  let sources := sources_of dg in
  let sinks := sinks_of dg in
  let isolates := isolates_of dg in
  match schedule_loop fuel dg sinks [sources] with
  | None => lift Running
  | Some sequence_of_nodes =>
      let sequence_of_nodes := flatten sequence_of_nodes in
      edges_outputs <- for_each sequence_of_nodes (fun edges_outputs node_str_id =>
          if mem node_str_id sources then
            t <- get_node_output model_layers node_str_id dg params edges_outputs (Some inp) ;;
            ret (dict_set edges_outputs node_str_id t)
          else if mem node_str_id isolates then ret edges_outputs
          else
            t <- get_node_output model_layers node_str_id dg params edges_outputs None ;;
            ret (dict_set edges_outputs node_str_id t)) [] ;;
      output <- sinks_output sinks edges_outputs ;;
      if Nat.eqb (List.length (int_shape output)) 3
      then g <- new_layer GlobalMaxPooling1D ;; call g [output]
      else ret output
  end.

(** [evolution_many_inputs_classification_model] (source lines 249-388);
    [n_classes] is [self.n_classes]. *)
Definition evolution_many_inputs_classification_model (fuel : nat)
    (n_classes : nat) (params : Params) : M Model :=
  inputs <- make_inputs params ;;
  if Z.eqb (np_sum (mask_entries (p_binary_mask params))) 0 then
    full_outputs <- degenerate_streams inputs ;;
    cross_stream_head n_classes params inputs full_outputs
  else
    model_layers <- initialize_all_nodes params ;;
    full_outputs <- for_each inputs (fun full_outputs inp =>
        output <- build_stream fuel params model_layers inp ;;
        ret (full_outputs ++ [output])) [] ;;
    cross_stream_head n_classes params inputs full_outputs.

End Build.

(** ** Batch entry points *)

(** Python [l[:n]]: a negative bound counts from the end. *)
Definition slice_to {A} (n : Z) (l : list A) : list A :=
  if (n <? 0)%Z then firstn (List.length l - Z.to_nat (- n)) l
  else firstn (Z.to_nat n) l.

(** [sen[:text_size]] on a Python sequence. *)
Definition py_slice_to (text_size : Z) (sen : pyval) : result pyval :=
  match sen with
  | PList l => Ok (PList (slice_to text_size l))
  | PTuple l => Ok (PTuple (slice_to text_size l))
  | PStr s =>
      Ok (PStr (string_of_list_ascii (slice_to text_size (list_ascii_of_string s))))
  | _ => Raise (TypeError "object is not subscriptable")
  end.

(** [list(v)]. *)
Definition py_list (v : pyval) : result (list pyval) :=
  match v with
  | PList l | PTuple l => Ok l
  | PStr s => Ok (map (fun c => PStr (String c EmptyString)) (list_ascii_of_string s))
  | _ => Raise (TypeError "object is not iterable")
  end.

(** [len(v)] of a sequence. *)
Definition py_len (v : pyval) : nat :=
  match v with
  | PList l | PTuple l => List.length l
  | PStr s => String.length s
  | _ => 0
  end.

(** A call of a method of the Keras model [self.model], with its
    arguments. *)
Inductive model_call (T L : Type) :=
| model_train_on_batch (features : list T) (onehot_labels : L)
| model_test_on_batch (features : list T) (onehot_labels : L)
| model_predict (features : list T).
Arguments model_train_on_batch {T L}.
Arguments model_test_on_batch {T L}.
Arguments model_predict {T L}.

Section Batches.

(** Embedding components, and the collaborators of the batch entry points,
    none of which is among the sources: the embedder [self.fasttext_model],
    the tokenizer [self.tokenizer], [labels2onehot] with the classes of the
    model, the compiled Keras model [self.model], and [proba2labels] with
    the threshold and the classes of the model.  Each of them returns a
    value or raises. *)
Variable F : Type.
Variable zero : F.
Variable fasttext_model : list pyval -> outcome (list (list (list F))).
Variable tokenizer : list pyval -> outcome (list pyval).
Variable OneHot : Type.
Variable labels2onehot : pyval -> outcome OneHot.
Variable Values : Type.
Variable keras_model : model_call (list (list (list F))) OneHot -> outcome Values.
Variable Labels : Type.
Variable proba2labels : Values -> outcome Labels.

(** [np.zeros(n)] *)
Definition np_zeros (n : Z) : result (list F) :=
  if (n <? 0)%Z then Raise (ValueError "negative dimensions are not allowed")
  else Ok (repeat zero (Z.to_nat n)).

(** [texts2vec] (source lines 62-80). *)
Definition texts2vec (opt : Params) (sentences : list pyval) (i : nat)
  : result (list (list (list F))) :=
  rbind (np_zeros (p_embedding_size opt)) (fun pad =>
  rbind (match p_text_size opt with
         | TextSizeList l =>
             match nth_error l i with
             | Some ts => Ok ts
             | None => Raise (IndexError "list index out of range")
             end
         | TextSizeInt ts => Ok ts
         end) (fun text_size =>
  rbind (map_result (py_slice_to text_size) sentences) (fun sliced =>
  rbind (run (fasttext_model sliced)) (fun embeddings_batch =>
  Ok (map (fun tokens =>
        repeat pad (Z.to_nat (text_size - Z.of_nat (List.length tokens))) ++ tokens)
      embeddings_batch))))).

(** Source lines 100-105 and 132-137: one feature array per input stream. *)
Definition batch_features (opt : Params) (texts : pyval)
  : result (list (list (list (list F)))) :=
  map_result (fun i =>
    rbind (py_index texts i) (fun texts_i =>
    rbind (py_index texts_i 0) (fun first =>
    rbind (py_list texts_i) (fun l =>
    if is_str first
    then rbind (run (tokenizer l)) (fun tokens => texts2vec opt tokens i)
    else texts2vec opt l i))))
    (seq 0 (List.length (p_in opt))).

(** [train_on_batch] (source lines 83-109). *)
Definition train_on_batch (opt : Params) (args : list pyval) : result Values :=
  let (labels, texts) :=
    if Nat.ltb (List.length (p_in opt)) (List.length args)
    then (last args PNone, PTuple (removelast args))
    else (PNone, PTuple args) in
  rbind (batch_features opt texts) (fun features =>
  rbind (run (labels2onehot labels)) (fun onehot_labels =>
  run (keras_model (model_train_on_batch features onehot_labels)))).

(** [infer_on_batch] (source lines 112-145). *)
Definition infer_on_batch (opt : Params) (args : list pyval) : result Values :=
  rbind (if Nat.ltb 1 (List.length args)
         then Ok (last args PNone, PTuple (removelast args))
         else if Nat.eqb (List.length args) 1
         then Ok (PNone, hd PNone args)
         else Raise (ValueError "Nothing to infer in infer_on_batch"))
    (fun labels_texts =>
  let labels := fst labels_texts in
  let texts := snd labels_texts in
  rbind (batch_features opt texts) (fun features =>
  if truthy labels
  then rbind (run (labels2onehot labels)) (fun onehot_labels =>
       run (keras_model (model_test_on_batch features onehot_labels)))
  else run (keras_model (model_predict features)))).

(** [__call__] (source lines 148-164): the tuple of streams is passed on as
    one argument; the result is the labels [proba2labels] reads off the
    predictions, with the predictions, whose rows the source pairs with the
    classes. *)
Definition __call__ (opt : Params) (args : list pyval) : result (Labels * Values) :=
  if Nat.eqb (List.length args) (List.length (p_in opt))
  then rbind (infer_on_batch opt [PTuple args]) (fun preds =>
       rbind (run (proba2labels preds)) (fun labels =>
       Ok (labels, preds)))
  else Raise AssertionError.

End Batches.

(** ** Construction and persistence of the architecture descriptor *)

(** The part of the object the descriptor lives in: [self.opt], and what the
    last [save] wrote. *)
Record Self := mkSelf {
  opt : Params;
  saved_opt : option Params
}.

Definition set_binary_mask (o : Params) (v : mask_value) : Params :=
  mkParams (p_in o) (p_text_size o) (p_embedding_size o) v (p_nodes o)
           (p_node_specs o) (p_n_types o) (p_confident_threshold o)
           (p_last_layer_activation o).

(** Modelled from the spec: [KerasIntentModel.__init__] is not among the
    sources.  Section 6: the persisted architecture descriptor is consumed at
    construction; what is modelled is the object of a construction that goes
    through, with the configuration as [self.opt] and nothing saved yet.
    (Section 5: the architecture is built at construction time; the build is
    [evolution_many_inputs_classification_model] above, and a build that
    raises leaves no object.) *)
Definition super_init (kwargs : Params) : Self := mkSelf kwargs None.

(** Modelled from the spec: [get_graph_and_plot] of
    deeppavlov.models.evolution.check_binary_mask is not among the sources,
    and the source does not use what it returns.  Section 3 (lifecycle): the
    node table and the mask are not modified once supplied; the function is
    taken to read its arguments only, and to return. *)
Definition get_graph_and_plot (nodes : dict string) (binary_mask : mask_value)
    (n_types : Z) : unit := tt.

(** [__init__] (source lines 56-60), on the descriptor. *)
Definition __init__ (kwargs : Params) : Self :=
  let self := super_init kwargs in
  let self :=
    mkSelf (set_binary_mask (opt self) (np_array (p_binary_mask (opt self))))
           (saved_opt self) in
  let _ := get_graph_and_plot (p_nodes (opt self)) (p_binary_mask (opt self))
                              (p_n_types (opt self)) in
  self.

(** [ndarray.tolist()] *)
Definition tolist (v : mask_value) : mask_value := pylist (mask_entries v).

(** Modelled from the spec: [KerasModel.save] is not among the sources.
    Section 6: save persists the architecture descriptor (and the weights). *)
Definition super_save (self : Self) : Self :=
  mkSelf (opt self) (Some (opt self)).

(** [save] (source lines 390-406). *)
Definition save (self : Self) : Self * bool :=
  let self :=
    match p_binary_mask (opt self) with
    | pylist _ => self
    | ndarray _ =>
        mkSelf (set_binary_mask (opt self) (tolist (p_binary_mask (opt self))))
               (saved_opt self)
    end in
  (super_save self, true).

(** ** Observations on a build *)

(** Every event a computation adds to the trace satisfies [P]. *)
Definition emits {A} (P : event -> Prop) (m : M A) : Prop :=
  forall w, exists evs, trace (snd (m w)) = trace w ++ evs /\ Forall P evs.

(** The events of graph extraction, node initialization and node
    materialization. *)
Definition graph_event (e : event) : bool :=
  match e with
  | EvGetDigraph | EvFindSourcesAndSinks | EvInitializeAllNodes
  | EvGetNodeOutput _ => true
  | _ => false
  end.

(** The configurations of catalog layers, built by [initialize_all_nodes]. *)
Definition is_node_cfg (cfg : layer_cfg) : bool :=
  match cfg with
  | Bidirectional_CuDNNLSTM _ | multiplicative_self_attention_init _
  | node_func _ _ => true
  | _ => false
  end.

Definition is_Dense (cfg : layer_cfg) : bool :=
  match cfg with Dense _ => true | _ => false end.

(** The layer objects constructed during a build, in order. *)
Definition created_layers (tr : list event) : list Layer :=
  flat_map (fun e => match e with EvNew l => [l] | _ => [] end) tr.

(** The [Dense] objects the module constructs itself during a build. *)
Definition module_dense_layers (tr : list event) : list Layer :=
  filter (fun l => is_Dense (layer_cfg_of l)) (created_layers tr).

Definition not_a_call (e : event) : Prop :=
  match e with EvCall _ _ => False | _ => True end.

Definition is_node_layer_creation (e : event) : Prop :=
  exists l, e = EvNew l /\ is_node_cfg (layer_cfg_of l) = true.

(** [P] admits the layers the module constructs and applies itself. *)
Definition admits_module_layers (P : event -> Prop) : Prop :=
  (forall l, is_node_cfg (layer_cfg_of l) = false -> P (EvNew l)) /\
  (forall l args, is_node_cfg (layer_cfg_of l) = false -> P (EvCall l args)).

(** [P] admits applying the layers held in [model_layers]. *)
Definition admits_calls_of (model_layers : dict Layer) (P : event -> Prop) : Prop :=
  forall k l args, dict_get model_layers k = Some l -> P (EvCall l args).

(** What the per-stream loop may do once [model_layers] is built: construct
    and apply layers of its own, and apply the node layers of
    [model_layers]; it constructs no node layer. *)
Definition stream_event (model_layers : dict Layer) (e : event) : Prop :=
  match e with
  | EvNew l => is_node_cfg (layer_cfg_of l) = false
  | EvCall l _ =>
      is_node_cfg (layer_cfg_of l) = false \/
      exists k, dict_get model_layers k = Some l
  | EvInitializeAllNodes => False
  | _ => True
  end.

(** The tensors a model's final [Concatenate] was applied to: the argument of
    the classification head's input. *)
Definition head_features (m : Model) : list Tensor :=
  match model_outputs m with
  | LayerOutput _ [LayerOutput _ [LayerOutput _ args _] _] _ => args
  | _ => []
  end.

(** The constructor of the layer that produced a tensor. *)
Definition producer (t : Tensor) : option layer_cfg :=
  match t with
  | LayerOutput l _ _ => Some (layer_cfg_of l)
  | InputTensor _ _ => None
  end.

(** The shape of a stream's placeholder. *)
Definition stream_input_shape (emb : Z) (t : Tensor) : Prop :=
  exists ts, int_shape t = [None; Some ts; Some (Z.to_nat emb)].

(** One stream of the degenerate architecture: the shared projection, then
    the shared pooling. *)
Definition degenerate_vector (dense1 globalmaxpooling : Layer) (inp t : Tensor) : Prop :=
  exists s1 s2,
    t = LayerOutput globalmaxpooling [LayerOutput dense1 [inp] s1] s2.

(** ** Node specs *)

Definition graph_of (params : Params) : DiGraph :=
  get_digraph_from_binary_mask (p_nodes params)
    (mask_entries (np_array (p_binary_mask params))).

(** A node whose type name is neither of the two special cases nor bound to
    a callable in the module's globals (and can be looked up there). *)
Definition unresolved (params : Params) (node_str_id : NodeId) : bool :=
  match node_spec params node_str_id with
  | Ok (_, spec) =>
      match node_name_of spec with
      | Ok name =>
          negb (pyval_is_str name "BiCuDNNLSTM") &&
          negb (pyval_is_str name "SelfMultiplicativeAttention") &&
          match globals_get name with
          | Ok node_func_ =>
              match callable node_func_ with Some _ => false | None => true end
          | _ => false
          end
      | _ => false
      end
  | _ => false
  end.

(** The layer [initialize_all_nodes] asks for on behalf of a node: defined
    when the node has a spec holding the three keys the module pops and a
    type name that is one of the two special cases or bound to a callable in
    the module's globals. *)
Definition node_cfg_of (params : Params) (node_str_id : NodeId) : option layer_cfg :=
  match node_spec params node_str_id with
  | Ok (_, spec) =>
      match node_name_of spec, strip_node_keys spec with
      | Ok name, Ok node_params =>
          if pyval_is_str name "BiCuDNNLSTM"
          then Some (Bidirectional_CuDNNLSTM node_params)
          else if pyval_is_str name "SelfMultiplicativeAttention"
          then Some (multiplicative_self_attention_init node_params)
          else match globals_get name with
               | Ok node_func_ =>
                   match callable node_func_ with
                   | Some n => Some (node_func n node_params)
                   | None => None
                   end
               | _ => None
               end
      | _, _ => None
      end
  | _ => None
  end.

(** The node has a spec holding the three keys the module pops. *)
Definition complete_spec (params : Params) (node_str_id : NodeId) : bool :=
  match node_spec params node_str_id with
  | Ok (_, spec) =>
      match strip_node_keys spec with Ok _ => true | _ => false end
  | _ => false
  end.

Definition attribute_error_of (node_str_id : NodeId) : exn :=
  AttributeError ("Node " ++ node_str_id ++ " is not defined correctly").

(** ** Reconciling predecessor outputs *)

(** A rank-3 tensor with batch size [b] and a known feature width. *)
Definition rank3_with (b : option nat) (t : Tensor) : Prop :=
  exists tm f, int_shape t = [b; tm; Some f].

(** A predecessor output [get_node_output] accepts: rank 2 or rank 3, batch
    size [b], known feature width. *)
Definition reconcilable (b : option nat) (t : Tensor) : Prop :=
  (exists f, int_shape t = [b; Some f]) \/ rank3_with b t.

(** [t'] is [t] itself when [t] has rank 3, and [t] under a fresh
    [Lambda(expand_tile)] with a time axis of length 1 when it has rank 2. *)
Definition lifted_of (t t' : Tensor) : Prop :=
  (List.length (int_shape t) = 3 /\ t' = t) \/
  (exists b f l,
     int_shape t = [b; f] /\ layer_cfg_of l = Lambda_expand_tile /\
     t' = LayerOutput l [t] [b; Some 1; f]).

Definition feature_width (t : Tensor) : nat :=
  match nth 2 (int_shape t) None with
  | Some f => f
  | None => 0
  end.

Definition max_width (ts : list Tensor) : nat :=
  fold_right (fun t m => Nat.max (feature_width t) m) 0 ts.

(** [t'] is [t] itself when [t] already has the width, and [t] under a fresh
    [Dense(width)] otherwise. *)
Definition projected_to (width : nat) (t t' : Tensor) : Prop :=
  (feature_width t = width /\ t' = t) \/
  (feature_width t <> width /\
   exists d, layer_cfg_of d = Dense width /\
             t' = LayerOutput d [t] (removelast (int_shape t) ++ [Some width])).

(** ** Batches of token lists *)

(** The text size [texts2vec] uses for stream [i]. *)
Definition text_size_of (opt : Params) (i : nat) (text_size : Z) : Prop :=
  match p_text_size opt with
  | TextSizeInt n => n = text_size
  | TextSizeList l => nth_error l i = Some text_size
  end.

(** A batch of token lists as the Python value [texts2vec] receives. *)
Definition token_batch (sentences : list (list string)) : list pyval :=
  map (fun sen => PList (map PStr sen)) sentences.

(** ** Streams, sinks, node specs and masks *)

(** The placeholder of stream [i]: rank 3, unknown batch size, the stream's
    own text size and the embedding size. *)
Definition stream_placeholder (params : Params) (i : nat) (t : Tensor) : Prop :=
  exists id ts,
    text_size_of params i ts /\ (0 <= ts)%Z /\ (0 <= p_embedding_size params)%Z /\
    t = InputTensor id [None; Some (Z.to_nat ts);
                        Some (Z.to_nat (p_embedding_size params))].

(** [t'] is [t] itself when [t] is not of rank 3, and [t] under a fresh
    [GlobalMaxPooling1D], without its time axis, when it is. *)
Definition pooled_of (t t' : Tensor) : Prop :=
  (List.length (int_shape t) <> 3 /\ t' = t) \/
  (exists g b tm f,
     int_shape t = [b; tm; f] /\ layer_cfg_of g = GlobalMaxPooling1D /\
     t' = LayerOutput g [t] [b; f]).

(** The last dimension of a tensor, 0 when unknown. *)
Definition last_width (t : Tensor) : nat :=
  match last (int_shape t) None with
  | Some f => f
  | None => 0
  end.

(** The keys of a node spec that are no keyword arguments of its layer, in
    the order the module pops them. *)
Definition reserved_keys : list string := ["node_name"; "node_type"; "node_layer"].

(** The first reserved key a spec does not hold. *)
Definition first_missing_key (spec : dict pyval) : option string :=
  find (fun k => match dict_get spec k with None => true | Some _ => false end)
       reserved_keys.

(** Python [sen[:text_size]] on a list of tokens, for a negative bound: the
    last [-text_size] tokens are dropped. *)
Definition drop_last (text_size : Z) (sen : list string) : list string :=
  firstn (List.length sen - Z.to_nat (- text_size)) sen.

(** The nodes [get_node_output] was called for during a build, in order. *)
Definition materialized (tr : list event) : list NodeId :=
  flat_map (fun e => match e with EvGetNodeOutput v => [v] | _ => [] end) tr.

(** A mask over [n] nodes: no more than [n] rows of no more than [n]
    entries, each 0 or 1. *)
Definition binary_mask (n : nat) (mask : Mask) : Prop :=
  List.length mask <= n /\
  Forall (fun row => List.length row <= n /\
                     Forall (fun x => x = 0%Z \/ x = 1%Z) row) mask.

(** ** A small catalog and configurations for the examples *)

Definition kwarg_nat (node_params : dict pyval) (k : string) : option nat :=
  match dict_get node_params k with
  | Some (PInt z) => if (0 <=? z)%Z then Some (Z.to_nat z) else None
  | _ => None
  end.

(** Shape rules for three catalog entries: [Dense(units=...)],
    [GlobalMaxPooling1D()] and [Dropout(...)]. *)
Definition catalog_shape (cfg : layer_cfg) (ins : list shape) : result shape :=
  match cfg, ins with
  | node_func name node_params, [s] =>
      if String.eqb name "Dense" then
        match kwarg_nat node_params "units" with
        | Some u => keras_shape (Dense u) [s]
        | None => Raise (TypeError "Dense needs units")
        end
      else if String.eqb name "GlobalMaxPooling1D" then keras_shape GlobalMaxPooling1D [s]
      else if String.eqb name "Dropout" then Ok s
      else Raise (ValueError "not in the example catalog")
  | _, _ => Raise (ValueError "not in the example catalog")
  end.

(** The constructors of the example catalog: [Dense] needs its [units], the
    others take what they are given. *)
Definition catalog_init (cfg : layer_cfg) : option exn :=
  match cfg with
  | node_func name node_params =>
      if String.eqb name "Dense" then
        match dict_get node_params "units" with
        | Some _ => None
        | None =>
            Some (TypeError "__init__() missing 1 required positional argument: 'units'")
        end
      else None
  | _ => None
  end.

Definition node_spec_of (name : string) (kwargs : dict pyval) : dict pyval :=
  [("node_name", PStr name); ("node_type", PStr name); ("node_layer", PStr name)]
  ++ kwargs.

Definition dense_spec (units : Z) : dict pyval :=
  node_spec_of "Dense" [("units", PInt units)].

Definition example_params (streams : list string) (mask : Mask)
    (nodes : dict string) (specs : dict (dict pyval)) : Params :=
  mkParams streams (TextSizeInt 5) 3 (pylist mask) nodes specs 3 "0.5" None.

Definition world0 : World := mkWorld 0 [].

Definition four_nodes : dict string :=
  [("0", "node_0"); ("1", "node_1"); ("2", "node_2"); ("3", "node_3")].

Definition four_dense_specs : dict (dict pyval) :=
  [("node_0", dense_spec 4); ("node_1", dense_spec 4);
   ("node_2", dense_spec 4); ("node_3", dense_spec 4)].

(** 0 -> 1, 0 -> 2, 1 -> 3, 2 -> 3 *)
Definition diamond_mask : Mask :=
  [[0; 1; 1; 0]; [0; 0; 0; 1]; [0; 0; 0; 1]; [0; 0; 0; 0]]%Z.

(** 0 -> 1, 1 -> 2, 2 -> 1, 2 -> 3: the sink 3 lies behind the cycle 1 <-> 2. *)
Definition stall_mask : Mask :=
  [[0; 1; 0; 0]; [0; 0; 1; 0]; [0; 1; 0; 1]; [0; 0; 0; 0]]%Z.

Definition three_nodes : dict string :=
  [("0", "node_0"); ("1", "node_1"); ("2", "node_2")].

Definition three_dense_specs : dict (dict pyval) :=
  [("node_0", dense_spec 4); ("node_1", dense_spec 4); ("node_2", dense_spec 4)].

Definition zero_mask : Mask := [[0; 0; 0]; [0; 0; 0]; [0; 0; 0]]%Z.

(** 0 -> 2, 1 -> 2, where node 0 pools its input to rank 2 and node 1 keeps
    rank 3 with another width: the inputs of node 2 need the fallback. *)
Definition fallback_mask : Mask := [[0; 0; 1]; [0; 0; 1]; [0; 0; 0]]%Z.

Definition fallback_specs : dict (dict pyval) :=
  [("node_0", node_spec_of "GlobalMaxPooling1D" []);
   ("node_1", dense_spec 4);
   ("node_2", dense_spec 2)].

(** The outputs of nodes 0 (pooled, rank 2) and 1 (a sequence, rank 3) of
    [fallback_mask], as node 2 finds them. *)
Definition fallback_edges_outputs : dict Tensor :=
  [("0", LayerOutput (mkLayer 2 (node_func "GlobalMaxPooling1D" []))
                     [InputTensor 0 [None; Some 5; Some 3]] [None; Some 3]);
   ("1", LayerOutput (mkLayer 3 (node_func "Dense" [("units", PInt 4)]))
                     [InputTensor 0 [None; Some 5; Some 3]] [None; Some 5; Some 4])].

(** 0 -> 1, and node 2 isolated with a type name that is no global. *)
Definition isolate_mask : Mask := [[0; 1; 0]; [0; 0; 0]; [0; 0; 0]]%Z.

Definition isolate_unknown_specs : dict (dict pyval) :=
  [("node_0", dense_spec 4); ("node_1", dense_spec 4);
   ("node_2", node_spec_of "NoSuchLayer" [])].

(** 0 -> 1 -> 2 with an unknown type name at node 1. *)
Definition chain_mask : Mask := [[0; 1; 0]; [0; 0; 1]; [0; 0; 0]]%Z.

Definition chain_unknown_specs : dict (dict pyval) :=
  [("node_0", dense_spec 4); ("node_1", node_spec_of "NoSuchLayer" []);
   ("node_2", dense_spec 4)].

(** An embedder that gives every token the same vector of width 3, and a
    tokenizer that makes one token of every text. *)
Definition example_embedder (batch : list pyval) : outcome (list (list (list Z))) :=
  Returns (map (fun sen => repeat [1; 1; 1]%Z (py_len sen)) batch).

Definition example_tokenizer (texts : list pyval) : outcome (list pyval) :=
  Returns (map (fun text => PList [text]) texts).

(** A label codec over two classes: one row per sample; labels that are no
    list cannot be iterated over. *)
Definition example_labels2onehot (labels : pyval) : outcome (list (list Z)) :=
  match labels with
  | PList l => Returns (map (fun _ => [1; 0]%Z) l)
  | _ => Raises (TypeError "object is not iterable")
  end.

(** A model that, like Keras, wants as many samples in every feature array
    as in the labels, and answers with a loss, or with one row of
    probabilities per sample. *)
Definition example_model
    (c : model_call (list (list (list Z))) (list (list Z))) : outcome (list (list Z)) :=
  match c with
  | model_train_on_batch features onehot_labels
  | model_test_on_batch features onehot_labels =>
      if forallb (fun x => Nat.eqb (List.length x) (List.length onehot_labels)) features
      then Returns [[0%Z]]
      else Raises (ValueError "Input arrays should have the same number of samples as target arrays")
  | model_predict features => Returns (map (fun _ => [1; 0]%Z) (hd [] features))
  end.

Definition example_proba2labels (preds : list (list Z)) : outcome (list string) :=
  Returns (map (fun _ => "class_0") preds).

(** A batch of two tokenized samples for one input stream, and labels for
    two samples. *)
Definition example_stream : pyval :=
  PList [PList [PStr "a"; PStr "b"]; PList [PStr "c"]].

Definition example_labels : pyval :=
  PList [PList [PStr "class_0"]; PList [PStr "class_0"]].

(** 0 -> 1 and 1 -> 0: every node lies on the cycle, there is no source and
    no sink. *)
Definition cycle_nodes : dict string := [("0", "node_0"); ("1", "node_1")].

Definition cycle_mask : Mask := [[0; 1]; [1; 0]]%Z.

Definition cycle_specs : dict (dict pyval) :=
  [("node_0", dense_spec 4); ("node_1", dense_spec 4)].

(** 0 -> 1 and 0 -> 2: two sinks. *)
Definition fork_mask : Mask := [[0; 1; 1]; [0; 0; 0]; [0; 0; 0]]%Z.

(** The outputs of the sinks 1 (a sequence, rank 3) and 2 (pooled, rank 2) of
    [fork_mask]. *)
Definition fork_edges_outputs : dict Tensor :=
  [("1", LayerOutput (mkLayer 3 (node_func "Dense" [("units", PInt 4)]))
                     [InputTensor 0 [None; Some 5; Some 3]] [None; Some 5; Some 4]);
   ("2", LayerOutput (mkLayer 4 (node_func "GlobalMaxPooling1D" []))
                     [InputTensor 0 [None; Some 5; Some 3]] [None; Some 3])].

(** A predecessor output of rank 4. *)
Definition rank4_edges_outputs : dict Tensor :=
  [("0", InputTensor 0 [None; Some 5; Some 3]);
   ("1", InputTensor 1 [None; Some 5; Some 3; Some 2])].

(** Node 1 of 0 -> 1 -> 2 has a spec without "node_type" and a type name
    that is no global. *)
Definition chain_incomplete_specs : dict (dict pyval) :=
  [("node_0", dense_spec 4);
   ("node_1", [("node_name", PStr "NoSuchLayer"); ("node_layer", PStr "x")]);
   ("node_2", dense_spec 4)].

(** Nodes 0 and 1 of 0 -> 2 <- 1 are of one type. *)
Definition shared_type_nodes : dict string :=
  [("0", "node_0"); ("1", "node_0"); ("2", "node_2")].

(** * Properties *)

(** ** Containers *)

Lemma mem_In x l : mem x l = true <-> In x l.
Proof.
  unfold mem. rewrite existsb_exists. split.
  - intros (y & Hy & E). apply String.eqb_eq in E. now subst.
  - intros H. exists x. split; [assumption | apply String.eqb_refl].
Qed.

Lemma mem_false x l : mem x l = false <-> ~ In x l.
Proof.
  rewrite <- mem_In. destruct (mem x l); intuition congruence.
Qed.

Lemma issubset_incl a b : issubset a b = true <-> incl a b.
Proof.
  unfold issubset. rewrite forallb_forall. unfold incl.
  split; intros H x Hx; apply mem_In; auto.
Qed.

Lemma issubset_false a b :
  issubset a b = false -> exists x, In x a /\ ~ In x b.
Proof.
  induction a as [|y a IH]; simpl; [discriminate|].
  destruct (mem y b) eqn:E; simpl.
  - intros H. destruct (IH H) as (x & Hx & Hn). exists x. auto.
  - intros _. exists y. split; [auto | now apply mem_false].
Qed.


(** ** Graph views *)

Lemma in_edges_In dg u v : In (u, v) (in_edges dg v) <-> edge dg u v.
Proof.
  unfold in_edges, edge. rewrite filter_In. simpl.
  rewrite String.eqb_refl. tauto.
Qed.

Lemma in_edges_elim dg e v : In e (in_edges dg v) -> edge dg (fst e) v /\ snd e = v.
Proof.
  unfold in_edges, edge. rewrite filter_In. intros [H E].
  apply String.eqb_eq in E. destruct e as [a b]. simpl in *. now subst.
Qed.

Lemma out_edges_elim dg e u : In e (out_edges dg u) -> edge dg u (snd e) /\ fst e = u.
Proof.
  unfold out_edges, edge. rewrite filter_In. intros [H E].
  apply String.eqb_eq in E. destruct e as [a b]. simpl in *. now subst.
Qed.

Lemma out_edges_In dg u v : In (u, v) (out_edges dg u) <-> edge dg u v.
Proof.
  unfold out_edges, edge. rewrite filter_In. simpl.
  rewrite String.eqb_refl. tauto.
Qed.

Lemma preds_In dg u v : In u (map fst (in_edges dg v)) <-> edge dg u v.
Proof.
  rewrite in_map_iff. split.
  - intros (e & <- & He). now apply in_edges_elim in He.
  - intros H. exists (u, v). split; [reflexivity | now apply in_edges_In].
Qed.

Lemma in_degree_pos dg u v : edge dg u v -> in_degree dg v <> 0.
Proof.
  intros H. apply in_edges_In in H. unfold in_degree.
  destruct (in_edges dg v); [contradiction | discriminate].
Qed.

Lemma out_degree_pos dg u v : edge dg u v -> out_degree dg u <> 0.
Proof.
  intros H. apply out_edges_In in H. unfold out_degree.
  destruct (out_edges dg u); [contradiction | discriminate].
Qed.

Lemma in_degree_zero dg u v : in_degree dg v = 0 -> ~ edge dg u v.
Proof. intros H E. now apply in_degree_pos in E. Qed.

Lemma in_degree_has_pred dg v : in_degree dg v <> 0 -> exists u, edge dg u v.
Proof.
  unfold in_degree. destruct (in_edges dg v) as [|e l] eqn:E;
    [simpl; intros H; now destruct H|].
  intros _. exists (fst e). apply (in_edges_elim dg e v). rewrite E. now left.
Qed.

Lemma sources_spec dg v :
  In v (sources_of dg) <->
  In v (dg_nodes dg) /\ in_degree dg v = 0 /\ out_degree dg v <> 0.
Proof.
  unfold sources_of, find_sources_and_sinks. simpl. rewrite filter_In.
  rewrite andb_true_iff, negb_true_iff, Nat.eqb_eq, Nat.eqb_neq. tauto.
Qed.

Lemma sinks_spec dg v :
  In v (sinks_of dg) <->
  In v (dg_nodes dg) /\ out_degree dg v = 0 /\ in_degree dg v <> 0.
Proof.
  unfold sinks_of, find_sources_and_sinks. simpl. rewrite filter_In.
  rewrite andb_true_iff, negb_true_iff, Nat.eqb_eq, Nat.eqb_neq. tauto.
Qed.

Lemma isolates_spec dg v :
  In v (isolates_of dg) <->
  In v (dg_nodes dg) /\ in_degree dg v = 0 /\ out_degree dg v = 0.
Proof.
  unfold isolates_of, find_sources_and_sinks. simpl. rewrite filter_In.
  rewrite andb_true_iff, !Nat.eqb_eq. tauto.
Qed.

Lemma enumerate_In {A} (l : list A) : forall i k x, In (k, x) (enumerate i l) -> In x l.
Proof.
  induction l as [|y l IH]; simpl; intros i k x H; [contradiction|].
  destruct H as [H|H]; [inversion H; now left | right; eauto].
Qed.

Lemma get_digraph_edges_closed {V} (nodes : dict V) mask :
  edges_closed (get_digraph_from_binary_mask nodes mask).
Proof.
  intros u v H. unfold edge, get_digraph_from_binary_mask in H. simpl in H.
  apply in_flat_map in H. destruct H as ([i a] & Ha & H).
  apply in_flat_map in H. destruct H as ([j b] & Hb & H).
  simpl in H. destruct (Z.eqb _ 1); [|contradiction].
  destruct H as [H|[]]. inversion H; subst.
  simpl. split; eapply enumerate_In; eassumption.
Qed.

(** ** The scheduling loop *)

Section Scheduling.
Variable dg : DiGraph.
Variable sinks : list NodeId.
Variable sources : list NodeId.

Let covered (k : nat) : bool := issubset sinks (flatten (layers dg sources k)).

Lemma layers_cons k : exists tl, layers dg sources k = sources :: tl.
Proof.
  induction k as [|k [tl IH]]; simpl.
  - now exists [].
  - rewrite IH. now exists (tl ++ [next_nodes dg (sources :: tl)]).
Qed.

Lemma layers_hd k : hd [] (layers dg sources k) = sources.
Proof. destruct (layers_cons k) as [tl ->]. reflexivity. Qed.

Lemma flatten_snoc (s : list (list NodeId)) l : flatten (s ++ [l]) = flatten s ++ l.
Proof. unfold flatten. rewrite concat_app. simpl. now rewrite app_nil_r. Qed.

Lemma flatten_layers_S k :
  flatten (layers dg sources (S k)) =
  flatten (layers dg sources k) ++ next_nodes dg (layers dg sources k).
Proof. simpl. apply flatten_snoc. Qed.

Lemma sources_scheduled k v : In v sources -> In v (flatten (layers dg sources k)).
Proof.
  intros H. destruct (layers_cons k) as [tl ->]. unfold flatten. simpl.
  apply in_or_app. now left.
Qed.

Lemma next_nodes_In s v :
  In v (next_nodes dg s) <->
  exists p, In p (last s []) /\ edge dg p v /\
            incl (map fst (in_edges dg v)) (flatten s).
Proof.
  unfold next_nodes. rewrite in_flat_map. split.
  - intros (p & Hp & H). apply in_flat_map in H. destruct H as (e & He & H).
    destruct (issubset _ _) eqn:E; [|contradiction].
    destruct H as [H|[]]. apply out_edges_elim in He. destruct He as [He _].
    subst v. exists p. split; [assumption|]. split; [assumption|].
    now apply issubset_incl.
  - intros (p & Hp & He & Hs). exists p. split; [assumption|].
    apply in_flat_map. exists (p, v). split; [now apply out_edges_In|].
    simpl. apply issubset_incl in Hs. rewrite Hs. now left.
Qed.

Lemma next_nodes_stalled s : next_nodes dg (s ++ [[]]) = [].
Proof. unfold next_nodes. now rewrite last_last. Qed.

(** Once a pass adds nothing while a sink is missing, no later pass can
    leave the loop. *)
Lemma schedule_loop_stall s :
  next_nodes dg s = [] -> issubset sinks (flatten s) = false ->
  forall fuel, schedule_loop fuel dg sinks s = None.
Proof.
  intros Hn Hc fuel. revert s Hn Hc.
  induction fuel as [|fuel IH]; intros s Hn Hc; simpl; [reflexivity|].
  rewrite Hc, Hn. apply IH.
  - apply next_nodes_stalled.
  - now rewrite flatten_snoc, app_nil_r.
Qed.

(** The only way out of the loop is the [break]. *)
Lemma schedule_loop_exit fuel : forall s s',
  schedule_loop fuel dg sinks s = Some s' ->
  issubset sinks (flatten s') = true.
Proof.
  induction fuel as [|fuel IH]; intros s s'; simpl; [discriminate|].
  destruct (issubset sinks (flatten s)) eqn:E.
  - intros H. inversion H. now subst.
  - apply IH.
Qed.

Lemma schedule_loop_layers d : forall j fuel,
  (forall i, j <= i < j + d -> covered i = false) ->
  covered (j + d) = true -> d < fuel ->
  schedule_loop fuel dg sinks (layers dg sources j) =
  Some (layers dg sources (j + d)).
Proof.
  induction d as [|d IH]; intros j fuel Hlt Hc Hf.
  - destruct fuel as [|fuel]; [lia|]. simpl. rewrite Nat.add_0_r in Hc.
    unfold covered in Hc. rewrite Hc. now rewrite Nat.add_0_r.
  - destruct fuel as [|fuel]; [lia|]. simpl.
    assert (Hj : covered j = false) by (apply Hlt; lia).
    unfold covered in Hj. rewrite Hj.
    change (layers dg sources j ++ [next_nodes dg (layers dg sources j)])
      with (layers dg sources (S j)).
    rewrite (IH (S j) fuel).
    + f_equal. f_equal. lia.
    + intros i Hi. apply Hlt. lia.
    + replace (S j + d) with (j + S d) by lia. exact Hc.
    + lia.
Qed.

Lemma first_covered_or N :
  (exists k, k <= N /\ covered k = true /\ forall i, i < k -> covered i = false)
  \/ (forall i, i <= N -> covered i = false).
Proof.
  induction N as [|N [(k & Hk & Hc & Hl) | Hall]].
  - destruct (covered 0) eqn:E.
    + left. exists 0. split; [lia|]. split; [assumption | intros; lia].
    + right. intros i Hi. replace i with 0 by lia. assumption.
  - left. exists k. split; [lia|]. split; assumption.
  - destruct (covered (S N)) eqn:E.
    + left. exists (S N). split; [lia|]. split; [assumption|].
      intros i Hi. apply Hall. lia.
    + right. intros i Hi. destruct (Nat.eq_dec i (S N)) as [->|Hne];
        [assumption | apply Hall; lia].
Qed.

End Scheduling.

(** ** Walks and acyclicity *)

Lemma walk_to_S_pred dg k v :
  walk_to dg (S k) v = true -> exists u, edge dg u v /\ walk_to dg k u = true.
Proof.
  simpl. rewrite existsb_exists. intros (e & He & Hw).
  apply in_edges_elim in He. exists (fst e). tauto.
Qed.

Lemma walk_to_S_intro dg k u v :
  edge dg u v -> walk_to dg k u = true -> walk_to dg (S k) v = true.
Proof.
  intros He Hw. simpl. apply existsb_exists. exists (u, v).
  split; [now apply in_edges_In | exact Hw].
Qed.

Lemma walk_to_prefix dg a b : forall v,
  walk_to dg (S a + b) v = true -> exists u, walk_to dg (S a) u = true.
Proof.
  induction b as [|b IH]; intros v H.
  - rewrite Nat.add_0_r in H. now exists v.
  - replace (S a + S b) with (S (S a + b)) in H by lia.
    apply walk_to_S_pred in H. destruct H as (u & _ & H). eauto.
Qed.

Lemma dag_no_long_walk dg :
  edges_closed dg -> is_dag dg = true ->
  forall k v, List.length (dg_nodes dg) <= S k -> walk_to dg (S k) v = false.
Proof.
  intros Hc Hd k v Hn. destruct (walk_to dg (S k) v) eqn:E; [|reflexivity].
  exfalso. unfold is_dag in Hd. apply negb_true_iff in Hd.
  destruct (List.length (dg_nodes dg)) as [|n] eqn:En.
  - apply walk_to_S_pred in E. destruct E as (u & He & _).
    apply Hc in He. destruct (dg_nodes dg); [tauto | discriminate].
  - replace (S k) with (S n + (k - n)) in E by lia.
    apply walk_to_prefix in E. destruct E as (u & Hu).
    assert (Hin : In u (dg_nodes dg)).
    { pose proof Hu as Hu'. apply walk_to_S_pred in Hu'.
      destruct Hu' as (p & He & _). now apply Hc in He. }
    assert (existsb (walk_to dg (S n)) (dg_nodes dg) = true)
      by (apply existsb_exists; eauto).
    congruence.
Qed.

Section Dag.
Variable dg : DiGraph.
Hypothesis Hclosed : edges_closed dg.
Hypothesis Hdag : is_dag dg = true.

Let sources := sources_of dg.
Let sinks := sinks_of dg.
Let sched (k : nat) := flatten (layers dg sources k).

Lemma last_layers_S k :
  last (layers dg sources (S k)) [] = next_nodes dg (layers dg sources k).
Proof. simpl. apply last_last. Qed.

Lemma flatten_single (l : list NodeId) : flatten [l] = l.
Proof. unfold flatten. simpl. apply app_nil_r. Qed.

(** A node all of whose parents are scheduled is scheduled itself or enters
    with the next pass. *)
Lemma layers_closure k : forall v,
  in_degree dg v <> 0 -> incl (map fst (in_edges dg v)) (sched k) ->
  In v (sched k) \/ In v (next_nodes dg (layers dg sources k)).
Proof.
  unfold sched. induction k as [|k IH]; intros v Hdeg Hinc.
  - right. apply next_nodes_In. destruct (in_degree_has_pred dg v Hdeg) as (u & Hu).
    exists u. cbn [layers last] in *. rewrite flatten_single in *.
    split; [apply Hinc; now apply preds_In|]. split; assumption.
  - rewrite flatten_layers_S in *.
    destruct (issubset (map fst (in_edges dg v)) (flatten (layers dg sources k))) eqn:E.
    + apply issubset_incl in E. left. apply in_or_app.
      destruct (IH v Hdeg E); [now left | now right].
    + right. apply issubset_false in E. destruct E as (u & Hu & Hnu).
      apply next_nodes_In. exists u. rewrite last_layers_S.
      split.
      * specialize (Hinc u Hu). apply in_app_or in Hinc. tauto.
      * split; [now apply preds_In|]. now rewrite flatten_layers_S.
Qed.

Lemma last_layer_walk k : forall v,
  In v (last (layers dg sources k) []) -> walk_to dg k v = true.
Proof.
  induction k as [|k IH]; intros v H; [reflexivity|].
  rewrite last_layers_S in H. apply next_nodes_In in H.
  destruct H as (p & Hp & He & _). eapply walk_to_S_intro; eauto.
Qed.

(** Walking back from an unscheduled node through unscheduled parents ends,
    in an acyclic graph, at a node whose parents are all scheduled. *)
Lemma back_chain k i : forall v,
  ~ In v (sched k) -> in_degree dg v <> 0 ->
  (exists m, ~ In m (sched k) /\ in_degree dg m <> 0 /\
             incl (map fst (in_edges dg m)) (sched k))
  \/ walk_to dg i v = true.
Proof.
  induction i as [|i IH]; intros v Hv Hdeg; [now right|].
  destruct (issubset (map fst (in_edges dg v)) (sched k)) eqn:E.
  - left. exists v. apply issubset_incl in E. auto.
  - apply issubset_false in E. destruct E as (u & Hu & Hnu).
    apply preds_In in Hu.
    assert (Hdu : in_degree dg u <> 0).
    { intros Hz. apply Hnu. apply sources_scheduled.
      apply sources_spec. split; [now apply Hclosed in Hu|].
      split; [assumption | eapply out_degree_pos; eassumption]. }
    destruct (IH u Hnu Hdu) as [Hm | Hw]; [now left | right].
    eapply walk_to_S_intro; eassumption.
Qed.

Lemma schedule_progress k :
  issubset sinks (sched k) = false ->
  exists m, In m (next_nodes dg (layers dg sources k)).
Proof.
  intros Hc. apply issubset_false in Hc. destruct Hc as (s & Hs & Hns).
  apply sinks_spec in Hs. destruct Hs as (Hin & _ & Hdeg).
  destruct (back_chain k (S (List.length (dg_nodes dg))) s Hns Hdeg)
    as [(m & Hm & Hdm & Hinc) | Hw].
  - exists m. destruct (layers_closure k m Hdm Hinc); [contradiction | assumption].
  - rewrite dag_no_long_walk in Hw; [discriminate | assumption | assumption | lia].
Qed.

Lemma uncovered_bound k :
  issubset sinks (sched k) = false -> S k < List.length (dg_nodes dg).
Proof.
  intros Hc. destruct (schedule_progress k Hc) as (m & Hm).
  rewrite <- last_layers_S in Hm. apply last_layer_walk in Hm.
  destruct (Nat.lt_ge_cases (S k) (List.length (dg_nodes dg))) as [|Hge];
    [assumption|].
  rewrite dag_no_long_walk in Hm; [discriminate | assumption | assumption | exact Hge].
Qed.

Lemma sources_no_pred v u : In v sources -> ~ edge dg u v.
Proof. intros H. apply sources_spec in H. apply in_degree_zero. tauto. Qed.

Lemma layers_predecessors_first k : predecessors_first dg (sched k).
Proof.
  unfold sched. induction k as [|k IH]; intros l1 v l2 E u Hu.
  - cbn [layers] in E. rewrite flatten_single in E. exfalso. apply (sources_no_pred v u); [|assumption].
    fold sources. rewrite E. apply in_or_app. right. now left.
  - rewrite flatten_layers_S in E.
    assert (HN : In v (next_nodes dg (layers dg sources k)) ->
                 incl (flatten (layers dg sources k)) l1 -> In u l1).
    { intros Hv Hl. apply next_nodes_In in Hv. destruct Hv as (_ & _ & _ & Hinc).
      apply Hl, Hinc. now apply preds_In. }
    apply app_eq_app in E. destruct E as (l & [[E1 E2] | [E1 E2]]).
    + destruct l as [|w l].
      * simpl in E2. rewrite app_nil_r in E1. apply HN.
        -- rewrite <- E2. now left.
        -- rewrite E1. apply incl_refl.
      * inversion E2; subst w. eapply IH; eassumption.
    + apply HN.
      * rewrite E2. apply in_or_app. right. now left.
      * rewrite E1. apply incl_appl, incl_refl.
Qed.

(** The scheduled set is closed under predecessors. *)
Lemma sched_pred_closed k u v : In v (sched k) -> edge dg u v -> In u (sched k).
Proof.
  intros Hv He. apply in_split in Hv. destruct Hv as (l1 & l2 & E).
  pose proof (layers_predecessors_first k l1 v l2 E u He) as H.
  rewrite E. apply in_or_app. now left.
Qed.

Lemma forward_chain k i : forall j v,
  incl sinks (sched k) -> ~ In v (sched k) -> out_degree dg v <> 0 ->
  walk_to dg j v = true -> exists w, walk_to dg (j + i) w = true.
Proof.
  induction i as [|i IH]; intros j v Hs Hv Hdeg Hw.
  - exists v. now rewrite Nat.add_0_r.
  - unfold out_degree in Hdeg.
    destruct (out_edges dg v) as [|e l] eqn:E; [now destruct Hdeg|].
    assert (He : edge dg v (snd e)).
    { apply (out_edges_elim dg e v). rewrite E. now left. }
    assert (Hnw : ~ In (snd e) (sched k)).
    { intros Hin. apply Hv. eapply sched_pred_closed; eassumption. }
    assert (Hdw : out_degree dg (snd e) <> 0).
    { intros Hz. apply Hnw, Hs. apply sinks_spec.
      split; [now apply Hclosed in He|].
      split; [assumption | eapply in_degree_pos; eassumption]. }
    destruct (IH (S j) (snd e) Hs Hnw Hdw) as (w & Hww).
    + eapply walk_to_S_intro; eassumption.
    + exists w. now replace (j + S i) with (S j + i) by lia.
Qed.

(** Once the sinks are covered, every node that has an edge is scheduled. *)
Lemma covered_all k v :
  issubset sinks (sched k) = true ->
  In v (dg_nodes dg) -> ~ In v (isolates_of dg) -> In v (sched k).
Proof.
  intros Hc Hin Hiso. apply issubset_incl in Hc.
  destruct (mem v (sched k)) eqn:E; [now apply mem_In|]. exfalso.
  apply mem_false in E.
  destruct (Nat.eq_dec (out_degree dg v) 0) as [Hz|Hnz].
  - destruct (Nat.eq_dec (in_degree dg v) 0) as [Hi|Hi].
    + apply Hiso. apply isolates_spec. tauto.
    + apply E, Hc. apply sinks_spec. tauto.
  - destruct (forward_chain k (S (List.length (dg_nodes dg))) 0 v Hc E Hnz eq_refl)
      as (w & Hw).
    cbn [Nat.add] in Hw. rewrite dag_no_long_walk in Hw;
      [discriminate | assumption | assumption | lia].
Qed.

(** On an acyclic graph the loop leaves after at most as many passes as
    there are nodes, with the layers built so far. *)
Lemma schedule_loop_dag :
  exists k, k <= List.length (dg_nodes dg) /\
    issubset sinks (sched k) = true /\
    forall fuel, k < fuel ->
      schedule_loop fuel dg sinks [sources] = Some (layers dg sources k).
Proof.
  destruct (first_covered_or dg sinks sources (List.length (dg_nodes dg)))
    as [(k & Hk & Hc & Hl) | Hall].
  - exists k. split; [assumption|]. split; [assumption|].
    intros fuel Hf.
    apply (schedule_loop_layers dg sinks sources k 0 fuel); auto.
    intros i Hi. apply Hl. lia.
  - specialize (Hall _ (Nat.le_refl _)). apply uncovered_bound in Hall. lia.
Qed.

End Dag.

(** ** [is_dag] is acyclicity *)

Lemma cycle_pred dg v :
  clos_trans NodeId (edge dg) v v ->
  exists w, edge dg w v /\ clos_trans NodeId (edge dg) w w.
Proof.
  intros H. apply clos_trans_tn1 in H. inversion H; subst.
  - exists v. split; [assumption | now apply t_step].
  - match goal with
    | He : edge dg ?y v, Hy : clos_trans_n1 _ _ v ?y |- _ =>
        exists y; split; [exact He|];
        eapply t_trans; [apply t_step; exact He | now apply clos_tn1_trans]
    end.
Qed.

Lemma cycle_walk_to dg k : forall v,
  clos_trans NodeId (edge dg) v v -> walk_to dg k v = true.
Proof.
  induction k as [|k IH]; intros v H; [reflexivity|].
  destruct (cycle_pred dg v H) as (w & He & Hw).
  eapply walk_to_S_intro; [exact He | now apply IH].
Qed.

Lemma walk_to_walk dg k : forall v,
  walk_to dg k v = true -> exists p, walk dg p v /\ List.length p = S k.
Proof.
  induction k as [|k IH]; intros v H.
  - exists [v]. split; [constructor | reflexivity].
  - apply walk_to_S_pred in H. destruct H as (u & He & Hw).
    destruct (IH u Hw) as (p & Hp & Hl). exists (p ++ [v]).
    split; [econstructor; eassumption|]. rewrite length_app. simpl. lia.
Qed.

Lemma walk_nodes dg p v :
  edges_closed dg -> walk dg p v -> forall x, In x p -> x = v \/ In x (dg_nodes dg).
Proof.
  intros Hc H. induction H as [v | p u v Hp IH He]; intros x Hx.
  - destruct Hx as [Hx|[]]. now left.
  - apply in_app_or in Hx. destruct Hx as [Hx | [Hx|[]]]; [|now left].
    right. destruct (IH x Hx) as [-> | Hin]; [now apply Hc in He | assumption].
Qed.

Lemma walk_reaches dg p v :
  walk dg p v -> forall l1 a l2, p = l1 ++ a :: l2 ->
  clos_refl_trans NodeId (edge dg) a v.
Proof.
  intros H. induction H as [v | p u v Hp IH He]; intros l1 a l2 E.
  - destruct l1 as [|x l1]; [inversion E; apply rt_refl|].
    inversion E. now destruct l1.
  - destruct (exists_last (l:=a :: l2)) as (l2' & b & E2); [discriminate|].
    rewrite E2, app_assoc in E. apply app_inj_tail in E. destruct E as [E ->].
    destruct l2' as [|c l2'].
    + inversion E2; subst. apply rt_refl.
    + inversion E2; subst c. eapply rt_trans; [|apply rt_step; exact He].
      eapply IH. rewrite E. reflexivity.
Qed.

Lemma walk_repeat_cycle dg p v :
  walk dg p v -> forall l1 a l2 l3, p = l1 ++ a :: l2 ++ a :: l3 ->
  clos_trans NodeId (edge dg) a a.
Proof.
  intros H. induction H as [v | p u v Hp IH He]; intros l1 a l2 l3 E.
  - destruct l1 as [|x l1]; inversion E.
    + now destruct l2.
    + now destruct l1.
  - destruct (exists_last (l:=a :: l3)) as (l3' & b & E3); [discriminate|].
    rewrite E3 in E.
    replace (l1 ++ a :: l2 ++ l3' ++ [b]) with ((l1 ++ a :: l2 ++ l3') ++ [b]) in E
      by (rewrite <- !app_assoc; simpl; now rewrite <- app_assoc).
    apply app_inj_tail in E. destruct E as [E ->].
    destruct l3' as [|c l3'].
    + simpl in E3. injection E3 as Ea El. subst b l3. rewrite app_nil_r in E.
      apply clos_rt_t with (y := u); [|apply t_step; exact He].
      eapply walk_reaches; [exact Hp | exact E].
    + inversion E3; subst c. eapply IH. exact E.
Qed.

Lemma string_decidable_eq : decidable_eq NodeId.
Proof. intros x y. destruct (string_dec x y); [now left | now right]. Qed.

(** The executable test agrees with the absence of cycles. *)
Lemma is_dag_acyclic dg :
  edges_closed dg -> (is_dag dg = true <-> ~ cyclic dg).
Proof.
  intros Hc. split.
  - intros Hd (v & Hv).
    assert (Hin : In v (dg_nodes dg)).
    { destruct (cycle_pred dg v Hv) as (w & He & _). now apply Hc in He. }
    unfold is_dag in Hd. apply negb_true_iff in Hd.
    assert (existsb (walk_to dg (List.length (dg_nodes dg))) (dg_nodes dg) = true).
    { apply existsb_exists. exists v. split; [assumption | now apply cycle_walk_to]. }
    congruence.
  - intros Hn. unfold is_dag. apply negb_true_iff.
    destruct (existsb _ _) eqn:E; [|reflexivity]. exfalso. apply Hn.
    apply existsb_exists in E. destruct E as (v & Hin & Hw).
    apply walk_to_walk in Hw. destruct Hw as (p & Hp & Hl).
    assert (Hinc : incl p (dg_nodes dg)).
    { intros x Hx. destruct (walk_nodes dg p v Hc Hp x Hx) as [-> |]; assumption. }
    assert (Hnd : ~ NoDup p).
    { intros Hnd. apply NoDup_incl_length with (l' := dg_nodes dg) in Hnd;
        [lia | assumption]. }
    apply (not_NoDup string_decidable_eq) in Hnd.
    destruct Hnd as (a & l1 & l2 & l3 & E). exists a.
    eapply walk_repeat_cycle; eassumption.
Qed.

(** ** Stepping through the build monad *)

Lemma bind_Ok {A B} (m : M A) (f : A -> M B) w a w' :
  m w = (Ok a, w') -> bind m f w = f a w'.
Proof. unfold bind. now intros ->. Qed.

Lemma bind_Raise {A B} (m : M A) (f : A -> M B) w e w' :
  m w = (Raise e, w') -> bind m f w = (Raise e, w').
Proof. unfold bind. now intros ->. Qed.

Lemma bind_Running {A B} (m : M A) (f : A -> M B) w :
  fst (m w) = Running -> fst (bind m f w) = Running.
Proof. unfold bind. destruct (m w) as [[a|e|] w']; simpl; congruence. Qed.

Lemma bind_inv {A B} (m : M A) (f : A -> M B) w b w2 :
  bind m f w = (Ok b, w2) ->
  exists a w1, m w = (Ok a, w1) /\ f a w1 = (Ok b, w2).
Proof.
  unfold bind. destruct (m w) as [[a|e|] w1]; try discriminate. eauto.
Qed.

Lemma build_stream_running node_shape fuel params model_layers inp w :
  (let dg := get_digraph_from_binary_mask (p_nodes params)
               (mask_entries (np_array (p_binary_mask params))) in
   schedule_loop fuel dg (sinks_of dg) [sources_of dg] = None) ->
  fst (build_stream node_shape fuel params model_layers inp w) = Running.
Proof.
  cbv zeta. intros H. unfold build_stream.
  rewrite (bind_Ok (log EvGetDigraph) _ w tt _ eq_refl).
  erewrite (bind_Ok (log EvFindSourcesAndSinks)); [|reflexivity].
  rewrite H. reflexivity.
Qed.

(** ** What a computation adds to the trace *)

Lemma emits_ret {A} P (a : A) : emits P (ret a).
Proof. intros w. exists []. simpl. now rewrite app_nil_r. Qed.

Lemma emits_raise {A} P e : emits P (@raise A e).
Proof. intros w. exists []. simpl. now rewrite app_nil_r. Qed.

Lemma emits_lift {A} P (r : result A) : emits P (lift r).
Proof. intros w. exists []. simpl. now rewrite app_nil_r. Qed.

Lemma emits_log (P : event -> Prop) e : P e -> emits P (log e).
Proof. intros H w. exists [e]. simpl. split; [reflexivity | now constructor]. Qed.

Lemma emits_new_layer (P : event -> Prop) cfg :
  (forall id, P (EvNew (mkLayer id cfg))) -> emits P (new_layer cfg).
Proof.
  intros H w. eexists. simpl. split; [reflexivity|]. constructor; [apply H | constructor].
Qed.

Lemma emits_call (P : event -> Prop) node_shape l args :
  P (EvCall l args) -> emits P (call node_shape l args).
Proof.
  intros H w. exists [EvCall l args]. unfold call.
  destruct (layer_output_shape _ _ _); simpl; (split; [reflexivity | now constructor]).
Qed.

Lemma emits_Input P ts emb : emits P (Input ts emb).
Proof.
  intros w. exists []. unfold Input. destruct (_ || _)%bool; simpl; now rewrite app_nil_r.
Qed.

Lemma emits_bind_post {A B} P (Q : A -> Prop) (m : M A) (f : A -> M B) :
  emits P m -> (forall w a w', m w = (Ok a, w') -> Q a) ->
  (forall a, Q a -> emits P (f a)) -> emits P (bind m f).
Proof.
  intros Hm HQ Hf w. unfold bind. destruct (Hm w) as (evs & E & HP).
  destruct (m w) as [[a|e|] w1] eqn:Em; simpl in E.
  - destruct (Hf a (HQ _ _ _ Em) w1) as (evs' & E' & HP').
    exists (evs ++ evs'). rewrite E', E, app_assoc. split; [reflexivity|].
    now apply Forall_app.
  - exists evs. simpl. now split.
  - exists evs. simpl. now split.
Qed.

Lemma emits_bind {A B} P (m : M A) (f : A -> M B) :
  emits P m -> (forall a, emits P (f a)) -> emits P (bind m f).
Proof.
  intros Hm Hf. apply emits_bind_post with (Q := fun _ => True); auto.
Qed.

Lemma emits_bind_lift {A B} P (r : result A) (f : A -> M B) :
  (forall a, r = Ok a -> emits P (f a)) -> emits P (bind (lift r) f).
Proof.
  intros Hf. apply emits_bind_post with (Q := fun a => r = Ok a).
  - apply emits_lift.
  - unfold lift. intros w a w' H. now inversion H.
  - exact Hf.
Qed.

Lemma emits_try {A} P (body handler : M A) :
  emits P body -> emits P handler -> emits P (try_except_ValueError body handler).
Proof.
  intros Hb Hh w. unfold try_except_ValueError.
  destruct (Hb w) as (evs & E & HP).
  destruct (body w) as [[a|e|] w1] eqn:Eb; simpl in E;
    try (exists evs; simpl; now split).
  destruct e; try (exists evs; simpl; now split).
  destruct (Hh w1) as (evs' & E' & HP').
  exists (evs ++ evs'). rewrite E', E, app_assoc. split; [reflexivity|].
  now apply Forall_app.
Qed.

Lemma emits_for_each {A S} P (xs : list A) (body : S -> A -> M S) :
  (forall acc x, In x xs -> emits P (body acc x)) ->
  forall acc, emits P (for_each xs body acc).
Proof.
  induction xs as [|x xs IH]; intros H acc; simpl.
  - apply emits_ret.
  - apply emits_bind; [apply H; now left|].
    intros acc'. apply IH. intros a y Hy. apply H. now right.
Qed.

Lemma emits_map_M {A B} P (f : A -> M B) (xs : list A) :
  (forall x, In x xs -> emits P (f x)) -> emits P (map_M f xs).
Proof.
  induction xs as [|x xs IH]; intros H; simpl.
  - apply emits_ret.
  - apply emits_bind; [apply H; now left|]. intros y.
    apply emits_bind; [apply IH; intros z Hz; apply H; now right|].
    intros ys. apply emits_ret.
Qed.

Lemma emits_weaken {A} (P Q : event -> Prop) (m : M A) :
  (forall e, P e -> Q e) -> emits P m -> emits Q m.
Proof.
  intros HPQ Hm w. destruct (Hm w) as (evs & E & HP). exists evs.
  split; [assumption|]. eapply Forall_impl; eassumption.
Qed.

Lemma emits_bind_new {B} P cfg (f : Layer -> M B) :
  (forall id, P (EvNew (mkLayer id cfg))) ->
  (forall l, layer_cfg_of l = cfg -> emits P (f l)) ->
  emits P (bind (new_layer cfg) f).
Proof.
  intros Hn Hf. apply emits_bind_post with (Q := fun l => layer_cfg_of l = cfg).
  - now apply emits_new_layer.
  - unfold new_layer. intros w a w' H. now inversion H.
  - exact Hf.
Qed.

Ltac emits_case :=
  match goal with
  | |- emits _ (if ?c then _ else _) => destruct c
  | |- emits _ (match ?x with _ => _ end) => destruct x
  end.

Ltac emits_step :=
  first [ apply emits_ret | apply emits_raise | apply emits_lift | apply emits_Input
        | apply emits_bind_lift; intros
        | apply emits_bind_new; [intros | intros]
        | apply emits_try
        | apply emits_for_each; intros
        | apply emits_map_M; intros
        | apply emits_log
        | apply emits_call
        | apply emits_bind; [|intros]
        | emits_case ].

Section ModuleLayers.
Variable node_shape : layer_cfg -> list shape -> result shape.
Variable P : event -> Prop.
Hypothesis HP : admits_module_layers P.

Lemma admits_new cfg id : is_node_cfg cfg = false -> P (EvNew (mkLayer id cfg)).
Proof. intros H. now apply HP. Qed.

Lemma admits_call l args cfg :
  layer_cfg_of l = cfg -> is_node_cfg cfg = false -> P (EvCall l args).
Proof. intros <- H. now apply HP. Qed.

Ltac module_layers :=
  repeat (emits_step;
          try (apply admits_new; reflexivity);
          try (eapply admits_call; [eassumption | reflexivity])).

Lemma emits_lift_rank2 t : emits P (lift_rank2 node_shape t).
Proof. unfold lift_rank2. module_layers. Qed.

Lemma emits_concat_fallback inp_list : emits P (concat_fallback node_shape inp_list).
Proof.
  unfold concat_fallback, fallback_lift, fallback_project.
  module_layers; try apply emits_lift_rank2.
Qed.

Lemma emits_gather_inputs node_str_id dg edges_outputs :
  emits P (gather_inputs node_shape node_str_id dg edges_outputs).
Proof.
  unfold gather_inputs, gather_one. module_layers;
    try apply emits_lift_rank2; try apply emits_concat_fallback.
Qed.

Lemma emits_cross_stream_head n_classes params inputs full_outputs :
  emits P (cross_stream_head node_shape n_classes params inputs full_outputs).
Proof. unfold cross_stream_head. module_layers. Qed.

Lemma emits_make_inputs params : emits P (make_inputs params).
Proof. unfold make_inputs. module_layers. Qed.

Lemma emits_degenerate_streams inputs : emits P (degenerate_streams node_shape inputs).
Proof. unfold degenerate_streams. module_layers. Qed.

Lemma emits_sinks_output sinks edges_outputs :
  emits P (sinks_output node_shape sinks edges_outputs).
Proof. unfold sinks_output. module_layers. Qed.

Lemma emits_get_node_output model_layers node_str_id dg params edges_outputs inp :
  admits_calls_of model_layers P -> P (EvGetNodeOutput node_str_id) ->
  emits P (get_node_output node_shape model_layers node_str_id dg params edges_outputs inp).
Proof.
  intros Hc Hg. unfold get_node_output, multiplicative_self_attention_get_output.
  apply emits_bind; [now apply emits_log | intros _].
  apply emits_bind; [destruct inp; [apply emits_ret | apply emits_gather_inputs]|].
  intros t. apply emits_bind_lift. intros ks _. apply emits_bind_lift. intros name _.
  destruct (pyval_is_str name "SelfMultiplicativeAttention").
  - apply emits_bind_lift. intros np _. apply emits_bind_lift. intros l Hl.
    apply emits_call. unfold dict_item in Hl.
    destruct (dict_get model_layers (fst ks)) eqn:E; inversion Hl; subst. eapply Hc; eassumption.
  - apply emits_bind_lift. intros node_func_ _.
    apply emits_bind_lift. intros np _. apply emits_bind_lift. intros l Hl.
    apply emits_call. unfold dict_item in Hl.
    destruct (dict_get model_layers (fst ks)) eqn:E; inversion Hl; subst. eapply Hc; eassumption.
Qed.

Lemma emits_build_stream fuel params model_layers inp :
  admits_calls_of model_layers P ->
  (forall e, graph_event e = true -> e <> EvInitializeAllNodes -> P e) ->
  emits P (build_stream node_shape fuel params model_layers inp).
Proof.
  intros Hc Hg. unfold build_stream.
  apply emits_bind; [apply emits_log; apply Hg; [reflexivity | discriminate] | intros _].
  apply emits_bind; [apply emits_log; apply Hg; [reflexivity | discriminate] | intros _].
  destruct (schedule_loop _ _ _ _); [|apply emits_lift].
  apply emits_bind.
  - apply emits_for_each. intros acc x _.
    assert (Hx : P (EvGetNodeOutput x)) by (apply Hg; [reflexivity | discriminate]).
    destruct (mem x _).
    + apply emits_bind; [now apply emits_get_node_output | intros; apply emits_ret].
    + destruct (mem x _); [apply emits_ret|].
      apply emits_bind; [now apply emits_get_node_output | intros; apply emits_ret].
  - intros eo. apply emits_bind; [apply emits_sinks_output|].
    intros out. module_layers.
Qed.

End ModuleLayers.

(** ** Layer calls *)

Lemma call_Ok node_shape l args s w :
  layer_output_shape node_shape (layer_cfg_of l) (map int_shape args) = Ok s ->
  call node_shape l args w =
  (Ok (LayerOutput l args s), mkWorld (next_id w) (trace w ++ [EvCall l args])).
Proof. unfold call. now intros ->. Qed.

Lemma call_Raise node_shape l args e w :
  layer_output_shape node_shape (layer_cfg_of l) (map int_shape args) = Raise e ->
  call node_shape l args w =
  (Raise e, mkWorld (next_id w) (trace w ++ [EvCall l args])).
Proof. unfold call. now intros ->. Qed.

Lemma call_inv node_shape l args w t w' :
  call node_shape l args w = (Ok t, w') ->
  exists s, layer_output_shape node_shape (layer_cfg_of l) (map int_shape args) = Ok s /\
            t = LayerOutput l args s.
Proof.
  unfold call. destruct (layer_output_shape _ _ _) as [s|e|]; intros H; inversion H.
  now exists s.
Qed.

Lemma new_layer_inv cfg w l w' :
  new_layer cfg w = (Ok l, w') -> layer_cfg_of l = cfg.
Proof. unfold new_layer. intros H. now inversion H. Qed.

Lemma try_inv {A} (body handler : M A) w a w' :
  try_except_ValueError body handler w = (Ok a, w') ->
  body w = (Ok a, w') \/
  exists msg w1, body w = (Raise (ValueError msg), w1) /\ handler w1 = (Ok a, w').
Proof.
  unfold try_except_ValueError. destruct (body w) as [[x|e|] w1]; try discriminate.
  - now left.
  - destruct e; try discriminate. right. eauto.
Qed.

Lemma try_Ok {A} (body handler : M A) w a w' :
  body w = (Ok a, w') -> try_except_ValueError body handler w = (Ok a, w').
Proof. unfold try_except_ValueError. now intros ->. Qed.

Lemma try_ValueError {A} (body handler : M A) w msg w' :
  body w = (Raise (ValueError msg), w') ->
  try_except_ValueError body handler w = handler w'.
Proof. unfold try_except_ValueError. now intros ->. Qed.

(** ** Shapes of equal vectors *)

Lemma dim_eqb_refl d : dim_eqb d d = true.
Proof. destruct d; simpl; [apply Nat.eqb_refl | reflexivity]. Qed.

Lemma shape_eqb_refl s : shape_eqb s s = true.
Proof. induction s; simpl; [reflexivity|]. now rewrite dim_eqb_refl. Qed.

Lemma elemwise_same f :
  elemwise_op_output_shape [Some f] [Some f] = Ok [Some f].
Proof.
  unfold elemwise_op_output_shape. simpl.
  destruct (Nat.eqb f 1); [reflexivity|]. now rewrite Nat.eqb_refl.
Qed.

Lemma fold_elemwise_repeat f n :
  fold_left (fun acc s =>
     match acc with
     | Ok o => elemwise_op_output_shape o (tl s)
     | r => r
     end) (repeat [@None nat; Some f] n) (Ok [Some f]) = Ok [Some f]
  /\ forall k,
  fold_left (fun acc s =>
     match acc with
     | Ok o => elemwise_op_output_shape o (tl s)
     | r => r
     end) (repeat [Some k; Some f] n) (Ok [Some f]) = Ok [Some f].
Proof.
  induction n as [|n [IH1 IH2]]; simpl; [now split|].
  rewrite elemwise_same. split; [exact IH1 | exact IH2].
Qed.

Lemma dedup_repeat k n : dedup_dims (repeat k (S n)) = [k].
Proof.
  induction n as [|n IH]; [reflexivity|].
  change (repeat k (S (S n))) with (k :: repeat k (S n)).
  cbn [dedup_dims]. rewrite IH.
  replace (existsb (Nat.eqb k) (repeat k (S n))) with true; [reflexivity|].
  simpl. now rewrite Nat.eqb_refl.
Qed.

Lemma flat_map_repeat {A B} (g : A -> list B) x n :
  flat_map g (repeat x n) = List.concat (repeat (g x) n).
Proof. induction n; simpl; [reflexivity | now rewrite IHn]. Qed.

(** [Add] and [Multiply] on two or more vectors of one shape. *)
Lemma merge_shape_repeat b f n :
  merge_shape (repeat [b; Some f] (S (S n))) = Ok [b; Some f].
Proof.
  unfold merge_shape. cbn [repeat].
  change ([b; Some f] :: [b; Some f] :: repeat [b; Some f] n)
    with (repeat [b; Some f] (S (S n))).
  rewrite flat_map_repeat. cbn [hd].
  destruct b as [k|].
  - replace (List.concat (repeat [k] (S (S n)))) with (repeat k (S (S n))).
    + rewrite dedup_repeat. cbn [List.length Nat.ltb Nat.leb].
      change (repeat [Some k; Some f] (S (S n)))
        with ([Some k; Some f] :: repeat [Some k; Some f] (S n)).
      cbv iota beta. cbn [tl].
      change ([Some k; Some f] :: repeat [Some k; Some f] n)
        with (repeat [Some k; Some f] (S n)).
      now rewrite (proj2 (fold_elemwise_repeat f (S n)) k).
    + clear. induction (S (S n)) as [|m IH]; simpl; [reflexivity | now rewrite <- IH].
  - replace (List.concat (repeat [] (S (S n)))) with (@nil nat).
    + cbn [dedup_dims List.length Nat.ltb Nat.leb].
      change (repeat [None; Some f] (S (S n)))
        with ([@None nat; Some f] :: repeat [None; Some f] (S n)).
      cbv iota beta. cbn [tl].
      change ([@None nat; Some f] :: repeat [None; Some f] n)
        with (repeat [@None nat; Some f] (S n)).
      now rewrite (proj1 (fold_elemwise_repeat f (S n))).
    + clear. induction (S (S n)) as [|m IH]; simpl; [reflexivity | assumption].
Qed.

Lemma fold_dim_add_repeat (b : option nat) f n acc :
  fold_left (fun a s => dim_add a (nth 1 s None)) (repeat [b; Some f] n) (Some acc)
  = Some (acc + n * f).
Proof.
  revert acc. induction n as [|n IH]; intros acc; simpl.
  - f_equal. lia.
  - rewrite IH. f_equal. lia.
Qed.

Lemma map_result_del_axis axis a (ss : list shape) :
  Forall (fun s => norm_axis axis (List.length s) = Some a) ss ->
  map_result (del_axis axis) ss = Ok (map (del_at a) ss).
Proof.
  induction 1 as [|s ss Hs _ IH]; simpl; [reflexivity|].
  unfold del_axis at 1. rewrite Hs, IH. reflexivity.
Qed.

Lemma forallb_same_reduced (r0 : shape) (rs : list shape) :
  Forall (fun r => r = r0) rs -> forallb (fun r => shape_eqb r r0) rs = true.
Proof.
  intros H. apply forallb_forall. intros r Hr. rewrite Forall_forall in H.
  rewrite (H r Hr). apply shape_eqb_refl.
Qed.

(** [Concatenate()] on two or more vectors of one shape. *)
Lemma concatenate_shape_repeat b f n :
  concatenate_shape (-1) (repeat [b; Some f] (S (S n))) = Ok [b; Some (S (S n) * f)].
Proof.
  unfold concatenate_shape.
  rewrite (map_result_del_axis (-1) 1 (repeat [b; Some f] (S (S n)))).
  - cbn [repeat map hd del_at].
    change (norm_axis (-1) (List.length [b; Some f])) with (Some 1).
    rewrite forallb_same_reduced.
    + change ([b; Some f] :: repeat [b; Some f] n) with (repeat [b; Some f] (S n)).
      cbn [nth]. rewrite fold_dim_add_repeat. cbn [set_at]. repeat f_equal; lia.
    + constructor; [reflexivity|]. constructor; [reflexivity|].
      apply Forall_forall. intros r Hr. apply in_map_iff in Hr.
      destruct Hr as (s & <- & Hs). apply repeat_spec in Hs. now subst.
  - apply Forall_forall. intros s Hs. apply repeat_spec in Hs. now subst.
Qed.

Lemma map_int_shape_repeat (ts : list Tensor) s :
  Forall (fun t => int_shape t = s) ts ->
  map int_shape ts = repeat s (List.length ts).
Proof.
  induction 1 as [|t ts Ht _ IH]; simpl; [reflexivity|]. now rewrite Ht, IH.
Qed.

(** ** The cross-stream reduction and the classification head *)

Lemma cross_stream_head_inv node_shape n_classes params inputs full_outputs w model w' :
  cross_stream_head node_shape n_classes params inputs full_outputs w = (Ok model, w') ->
  exists add mul c d a ss sm sc sd sa diff,
    layer_cfg_of add = Add /\ layer_cfg_of mul = Multiply /\
    layer_cfg_of c = Concatenate (-1) /\ layer_cfg_of d = Dense n_classes /\
    layer_cfg_of a = Activation (default_activation params) /\
    match keras_shape Subtract (map int_shape full_outputs) with
    | Ok sdiff => exists sub, layer_cfg_of sub = Subtract /\
                              diff = [LayerOutput sub full_outputs sdiff]
    | _ => diff = []
    end /\
    model = mkModel inputs
      (LayerOutput a [LayerOutput d [LayerOutput c
         (full_outputs ++ diff ++
          [LayerOutput add full_outputs ss; LayerOutput mul full_outputs sm]) sc] sd] sa).
Proof.
  unfold cross_stream_head. intros H.
  apply bind_inv in H. destruct H as (add & w1 & Hadd & H).
  apply bind_inv in H. destruct H as (summ & w2 & Hsumm & H).
  apply bind_inv in H. destruct H as (mul & w3 & Hmul & H).
  apply bind_inv in H. destruct H as (mult & w4 & Hmult & H).
  apply bind_inv in H. destruct H as (fo & w5 & Htry & H).
  apply bind_inv in H. destruct H as (c & w6 & Hc & H).
  apply bind_inv in H. destruct H as (out1 & w7 & Hout1 & H).
  apply bind_inv in H. destruct H as (d & w8 & Hd & H).
  apply bind_inv in H. destruct H as (out2 & w9 & Hout2 & H).
  apply bind_inv in H. destruct H as (a & w10 & Ha & H).
  apply bind_inv in H. destruct H as (out3 & w11 & Hout3 & H).
  unfold ret in H. inversion H; subst model w'. clear H.
  apply new_layer_inv in Hadd, Hmul, Hc, Hd, Ha.
  apply call_inv in Hsumm, Hmult, Hout1, Hout2, Hout3.
  destruct Hsumm as (ss & _ & ->). destruct Hmult as (sm & _ & ->).
  destruct Hout1 as (sc & _ & ->). destruct Hout2 as (sd & _ & ->).
  destruct Hout3 as (sa & _ & ->).
  assert (Hdiff : exists diff, fo = full_outputs ++ diff /\
            match keras_shape Subtract (map int_shape full_outputs) with
            | Ok sdiff => exists sub, layer_cfg_of sub = Subtract /\
                                      diff = [LayerOutput sub full_outputs sdiff]
            | _ => diff = []
            end).
  { apply try_inv in Htry. destruct Htry as [Hb | (msg & wb & Hb & Hh)].
    - apply bind_inv in Hb. destruct Hb as (sub & wa & Hsub & Hb).
      apply bind_inv in Hb. destruct Hb as (subt & wc & Hsubt & Hb).
      unfold ret in Hb. inversion Hb; subst. apply new_layer_inv in Hsub.
      apply call_inv in Hsubt. destruct Hsubt as (sdiff & Hs & ->).
      rewrite Hsub in Hs. cbn [layer_output_shape] in Hs.
      exists [LayerOutput sub full_outputs sdiff]. split; [reflexivity|].
      rewrite Hs. eauto.
    - unfold ret in Hh. inversion Hh; subst. exists []. rewrite app_nil_r.
      split; [reflexivity|].
      unfold bind in Hb. cbn [new_layer] in Hb. unfold call in Hb.
      cbn [layer_cfg_of layer_output_shape] in Hb.
      destruct (keras_shape Subtract (map int_shape fo)); [discriminate | reflexivity | reflexivity]. }
  destruct Hdiff as (diff & -> & Hdiff).
  exists add, mul, c, d, a, ss, sm, sc, sd, sa, diff.
  repeat (split; [assumption|]).
  rewrite <- !app_assoc. reflexivity.
Qed.

Lemma keras_shape_Dense_vector units b w :
  keras_shape (Dense units) [[b; Some w]] = Ok [b; Some units].
Proof. reflexivity. Qed.

Lemma known_activation_shape name s :
  In name known_activations -> keras_shape (Activation name) [s] = Ok s.
Proof.
  intros H. cbn [keras_shape].
  replace (existsb (String.eqb name) known_activations) with true; [reflexivity|].
  symmetry. apply existsb_exists. exists name. split; [assumption | apply String.eqb_refl].
Qed.

Lemma Forall_shape_length_ge2 (ts : list Tensor) s :
  2 <= List.length ts -> Forall (fun t => int_shape t = s) ts ->
  exists n, map int_shape ts = repeat s (S (S n)) /\ List.length ts = S (S n).
Proof.
  intros Hl Hs. exists (List.length ts - 2).
  replace (S (S (List.length ts - 2))) with (List.length ts) by lia.
  split; [now apply map_int_shape_repeat | reflexivity].
Qed.

(** The final [Concatenate], [Dense] and [Activation] on vectors of one
    shape. *)
Lemma head_tail_Ok node_shape n_classes act inputs (features : list Tensor) b f w :
  2 <= List.length features ->
  Forall (fun t => int_shape t = [b; Some f]) features ->
  In act known_activations ->
  exists model w',
    (c <- new_layer (Concatenate (-1)) ;;
     output <- call node_shape c features ;;
     d <- new_layer (Dense n_classes) ;;
     output <- call node_shape d [output] ;;
     a <- new_layer (Activation act) ;;
     act_output <- call node_shape a [output] ;;
     ret (mkModel inputs act_output)) w = (Ok model, w') /\
    head_features model = features /\
    model_inputs model = inputs /\
    int_shape (model_outputs model) = [b; Some n_classes].
Proof.
  intros Hl Hs Hact.
  destruct (Forall_shape_length_ge2 features _ Hl Hs) as (n & Hm & Hn).
  erewrite bind_Ok; [|reflexivity].
  erewrite bind_Ok;
    [|apply call_Ok; cbn [layer_cfg_of layer_output_shape keras_shape];
      rewrite Hm; apply concatenate_shape_repeat].
  erewrite bind_Ok; [|reflexivity].
  erewrite bind_Ok; [|apply call_Ok; reflexivity].
  erewrite bind_Ok; [|reflexivity].
  erewrite bind_Ok;
    [|apply call_Ok; cbn [layer_cfg_of layer_output_shape map int_shape];
      now apply known_activation_shape].
  eexists. eexists. split; [reflexivity|]. repeat split; reflexivity.
Qed.

(** On two or more per-stream vectors of one shape the reduction returns:
    the sum and the product are computed, the difference exactly when there
    are two streams, and the head is fed the stream vectors, then the
    difference when computed, then the sum and the product. *)
Lemma cross_stream_head_Ok node_shape n_classes params inputs full_outputs b f w :
  2 <= List.length full_outputs ->
  Forall (fun t => int_shape t = [b; Some f]) full_outputs ->
  In (default_activation params) known_activations ->
  exists model w' add mul sub,
    cross_stream_head node_shape n_classes params inputs full_outputs w = (Ok model, w') /\
    layer_cfg_of add = Add /\ layer_cfg_of mul = Multiply /\ layer_cfg_of sub = Subtract /\
    head_features model =
      full_outputs ++
      (if Nat.eqb (List.length full_outputs) 2
       then [LayerOutput sub full_outputs [b; Some f]] else []) ++
      [LayerOutput add full_outputs [b; Some f];
       LayerOutput mul full_outputs [b; Some f]] /\
    model_inputs model = inputs /\
    int_shape (model_outputs model) = [b; Some n_classes].
Proof.
  intros Hl Hs Hact.
  destruct (Forall_shape_length_ge2 full_outputs _ Hl Hs) as (n & Hm & Hn).
  unfold cross_stream_head.
  erewrite bind_Ok; [|reflexivity].
  erewrite bind_Ok;
    [|apply call_Ok; cbn [layer_cfg_of layer_output_shape keras_shape];
      rewrite Hm; apply merge_shape_repeat].
  erewrite bind_Ok; [|reflexivity].
  erewrite bind_Ok;
    [|apply call_Ok; cbn [layer_cfg_of layer_output_shape keras_shape];
      rewrite Hm; apply merge_shape_repeat].
  cbv zeta.
  destruct n as [|n].
  - (* two streams: the difference is computed *)
    erewrite bind_Ok.
    2:{ apply try_Ok. erewrite bind_Ok; [|reflexivity].
        erewrite bind_Ok; [reflexivity|].
        apply call_Ok. cbn [layer_cfg_of layer_output_shape keras_shape].
        rewrite length_map, Hn. cbn [Nat.eqb]. rewrite Hm. apply merge_shape_repeat. }
    match goal with
    | |- context [bind (new_layer (Concatenate (-1)))
                       (fun c => bind (call _ c ?L) _) ?w0] =>
        destruct (head_tail_Ok node_shape n_classes (default_activation params) inputs
                    L b f w0) as (model & w' & Hrun & Hfeat & Hin & Hshape)
    end.
    + rewrite !length_app. simpl. lia.
    + repeat (apply Forall_app; split); try assumption; repeat constructor.
    + assumption.
    + exists model, w', (mkLayer (next_id w) Add), (mkLayer (S (next_id w)) Multiply),
        (mkLayer (S (S (next_id w))) Subtract).
      split; [exact Hrun|].
      repeat (split; [reflexivity|]). split; [|split; assumption].
      rewrite Hfeat, Hn. cbn [Nat.eqb]. now rewrite <- !app_assoc.
  - (* more than two: the difference is skipped *)
    erewrite bind_Ok.
    2:{ erewrite try_ValueError; [reflexivity|].
        erewrite bind_Ok; [|reflexivity].
        erewrite bind_Raise; [reflexivity|].
        apply call_Raise. cbn [layer_cfg_of layer_output_shape keras_shape].
        rewrite length_map, Hn. cbn [Nat.eqb]. reflexivity. }
    match goal with
    | |- context [bind (new_layer (Concatenate (-1)))
                       (fun c => bind (call _ c ?L) _) ?w0] =>
        destruct (head_tail_Ok node_shape n_classes (default_activation params) inputs
                    L b f w0) as (model & w' & Hrun & Hfeat & Hin & Hshape)
    end.
    + rewrite !length_app. simpl. lia.
    + repeat (apply Forall_app; split); try assumption; repeat constructor.
    + assumption.
    + exists model, w', (mkLayer (next_id w) Add), (mkLayer (S (next_id w)) Multiply),
        (mkLayer 0 Subtract).
      split; [exact Hrun|].
      repeat (split; [reflexivity|]). split; [|split; assumption].
      rewrite Hfeat, Hn. cbn [Nat.eqb]. now rewrite <- !app_assoc.
Qed.

(** ** The degenerate architecture *)

Lemma map_M_Ok {A B} (f : A -> M B) (R : B -> Prop) xs :
  (forall x w, In x xs -> exists y w', f x w = (Ok y, w') /\ R y) ->
  forall w, exists ys w',
    map_M f xs w = (Ok ys, w') /\ List.length ys = List.length xs /\ Forall R ys.
Proof.
  induction xs as [|x xs IH]; intros H w; simpl.
  - exists [], w. repeat split. constructor.
  - destruct (H x w (or_introl eq_refl)) as (y & w1 & Hy & Ry).
    destruct (IH (fun z w0 Hz => H z w0 (or_intror Hz)) w1) as (ys & w2 & Hys & Hl & HR).
    exists (y :: ys), w2. rewrite (bind_Ok _ _ _ _ _ Hy), (bind_Ok _ _ _ _ _ Hys).
    simpl. repeat split; [now rewrite Hl | now constructor].
Qed.

Lemma Input_Ok ts emb w :
  (0 <= ts)%Z -> (0 <= emb)%Z ->
  Input ts emb w =
  (Ok (InputTensor (next_id w) [None; Some (Z.to_nat ts); Some (Z.to_nat emb)]),
   mkWorld (S (next_id w)) (trace w)).
Proof.
  intros H1 H2. unfold Input.
  replace (ts <? 0)%Z with false by (symmetry; apply Z.ltb_ge; lia).
  replace (emb <? 0)%Z with false by (symmetry; apply Z.ltb_ge; lia).
  reflexivity.
Qed.

Lemma make_inputs_Ok params w :
  valid_sizes params = true ->
  exists inputs w',
    make_inputs params w = (Ok inputs, w') /\
    List.length inputs = List.length (p_in params) /\
    Forall (stream_input_shape (p_embedding_size params)) inputs.
Proof.
  unfold valid_sizes, make_inputs. intros H.
  apply andb_true_iff in H. destruct H as [Hemb H]. apply Z.leb_le in Hemb.
  destruct (p_text_size params) as [ts | l].
  - apply Z.leb_le in H.
    destruct (map_M_Ok (fun _ : nat => Input ts (p_embedding_size params))
                (stream_input_shape (p_embedding_size params))
                (seq 0 (List.length (p_in params)))) with (w := w)
      as (ys & w' & Hr & Hl & HR).
    + intros x w0 _. eexists. eexists. split; [now apply Input_Ok|].
      eexists. reflexivity.
    + exists ys, w'. rewrite length_seq in Hl. auto.
  - apply andb_true_iff in H. destruct H as [Hlen Hall].
    apply Nat.leb_le in Hlen. rewrite forallb_forall in Hall.
    destruct (map_M_Ok (fun i : nat =>
                  match nth_error l i with
                  | Some ts => Input ts (p_embedding_size params)
                  | None => raise (IndexError "list index out of range")
                  end)
                (stream_input_shape (p_embedding_size params))
                (seq 0 (List.length (p_in params)))) with (w := w)
      as (ys & w' & Hr & Hl & HR).
    + intros i w0 Hi. apply in_seq in Hi.
      destruct (nth_error l i) as [ts|] eqn:E.
      * eexists. eexists. split.
        -- apply Input_Ok; [|assumption]. apply Z.leb_le, Hall.
           eapply nth_error_In; eassumption.
        -- eexists. reflexivity.
      * apply nth_error_None in E. lia.
    + exists ys, w'. rewrite length_seq in Hl. auto.
Qed.

Lemma degenerate_loop_inv node_shape dense1 gmp inputs : forall acc w outs w',
  for_each inputs (fun full_outputs inp =>
      output <- call node_shape dense1 [inp] ;;
      pooled <- call node_shape gmp [output] ;;
      ret (full_outputs ++ [pooled])) acc w = (Ok outs, w') ->
  exists new, outs = acc ++ new /\ Forall2 (degenerate_vector dense1 gmp) inputs new.
Proof.
  induction inputs as [|inp inputs IH]; intros acc w outs w' H; simpl in H.
  - unfold ret in H. inversion H. exists []. rewrite app_nil_r. split; [reflexivity | constructor].
  - apply bind_inv in H. destruct H as (acc' & w1 & Hb & H).
    apply bind_inv in Hb. destruct Hb as (o & w2 & Ho & Hb).
    apply bind_inv in Hb. destruct Hb as (pl & w3 & Hp & Hb).
    unfold ret in Hb. inversion Hb; subst acc' w3. clear Hb.
    apply call_inv in Ho, Hp. destruct Ho as (s1 & _ & ->). destruct Hp as (s2 & _ & ->).
    destruct (IH _ _ _ _ H) as (new & -> & HF).
    exists (LayerOutput gmp [LayerOutput dense1 [inp] s1] s2 :: new).
    rewrite <- app_assoc. split; [reflexivity|].
    constructor; [|assumption]. now exists s1, s2.
Qed.

Lemma degenerate_streams_inv node_shape inputs w outs w' :
  degenerate_streams node_shape inputs w = (Ok outs, w') ->
  exists dense1 gmp,
    layer_cfg_of dense1 = Dense 1 /\ layer_cfg_of gmp = GlobalMaxPooling1D /\
    Forall2 (degenerate_vector dense1 gmp) inputs outs.
Proof.
  unfold degenerate_streams. intros H.
  apply bind_inv in H. destruct H as (dense1 & w1 & Hd & H).
  apply bind_inv in H. destruct H as (gmp & w2 & Hg & H).
  apply new_layer_inv in Hd, Hg.
  apply degenerate_loop_inv in H. destruct H as (new & -> & HF).
  exists dense1, gmp. auto.
Qed.

Lemma degenerate_loop_Ok node_shape dense1 gmp emb inputs :
  layer_cfg_of dense1 = Dense 1 -> layer_cfg_of gmp = GlobalMaxPooling1D ->
  Forall (stream_input_shape emb) inputs ->
  forall acc w, exists new w',
    for_each inputs (fun full_outputs inp =>
        output <- call node_shape dense1 [inp] ;;
        pooled <- call node_shape gmp [output] ;;
        ret (full_outputs ++ [pooled])) acc w = (Ok (acc ++ new), w') /\
    List.length new = List.length inputs /\
    Forall (fun t => int_shape t = [None; Some 1]) new.
Proof.
  intros Hd Hg. induction 1 as [|inp inputs (ts & Hinp) _ IH]; intros acc w; simpl.
  - exists [], w. rewrite app_nil_r. repeat split. constructor.
  - erewrite bind_Ok.
    2:{ erewrite bind_Ok.
        2:{ apply call_Ok. rewrite Hd. cbn [layer_output_shape map]. rewrite Hinp. reflexivity. }
        erewrite bind_Ok; [reflexivity|].
        apply call_Ok. rewrite Hg. reflexivity. }
    match goal with
    | |- context [for_each inputs _ (acc ++ [?t]) ?w0] =>
        destruct (IH (acc ++ [t]) w0) as (new & w' & Hr & Hl & HF);
        exists (t :: new), w'
    end.
    rewrite Hr, <- app_assoc. simpl. repeat split; [now rewrite Hl | now constructor].
Qed.

Lemma degenerate_streams_Ok node_shape emb inputs w :
  Forall (stream_input_shape emb) inputs ->
  exists outs w',
    degenerate_streams node_shape inputs w = (Ok outs, w') /\
    List.length outs = List.length inputs /\
    Forall (fun t => int_shape t = [None; Some 1]) outs.
Proof.
  intros H. unfold degenerate_streams.
  erewrite bind_Ok; [|reflexivity]. erewrite bind_Ok; [|reflexivity].
  match goal with
  | |- context [for_each inputs _ [] ?w0] =>
      destruct (degenerate_loop_Ok node_shape (mkLayer (next_id w) (Dense 1))
                  (mkLayer (S (next_id w)) GlobalMaxPooling1D) emb inputs
                  eq_refl eq_refl H [] w0) as (new & w' & Hr & Hl & HF)
  end.
  exists new, w'. split; [exact Hr | now split].
Qed.

Lemma filter_graph_event_emits {A} (m : M A) w :
  emits (fun e => graph_event e = false) m ->
  filter graph_event (trace (snd (m w))) = filter graph_event (trace w).
Proof.
  intros H. destruct (H w) as (evs & -> & HF). rewrite filter_app.
  replace (filter graph_event evs) with (@nil event); [apply app_nil_r|].
  symmetry. induction HF as [|e evs He _ IH]; simpl; [reflexivity|]. now rewrite He.
Qed.

Lemma no_graph_event_admits : admits_module_layers (fun e => graph_event e = false).
Proof. split; reflexivity. Qed.

Lemma merge_shape_two ins s : merge_shape ins = Ok s -> 2 <= List.length ins.
Proof. destruct ins as [|s0 [|s1 ins]]; simpl; try discriminate. lia. Qed.

(** The reduction needs two stream vectors: [Add] rejects a shorter list. *)
Lemma cross_stream_head_two node_shape n_classes params inputs full_outputs w model w' :
  cross_stream_head node_shape n_classes params inputs full_outputs w = (Ok model, w') ->
  2 <= List.length full_outputs.
Proof.
  unfold cross_stream_head. intros H.
  apply bind_inv in H. destruct H as (add & w1 & Hadd & H).
  apply bind_inv in H. destruct H as (summ & w2 & Hsumm & _).
  apply new_layer_inv in Hadd. apply call_inv in Hsumm.
  destruct Hsumm as (ss & Hs & _). rewrite Hadd in Hs.
  cbn [layer_output_shape] in Hs.
  assert (Hm : merge_shape (map int_shape full_outputs) = Ok ss).
  { destruct (map int_shape full_outputs); exact Hs. }
  apply merge_shape_two in Hm. now rewrite length_map in Hm.
Qed.

(** C2 (as the code has it): a mask that sums to zero takes the degenerate
    branch.  Whatever the outcome, the build records no graph extraction,
    node initialization or node materialization.  A model it returns has one
    [Dense(1)] and one [GlobalMaxPooling1D] object, applied in turn to every
    input stream; the head [Concatenate] -> [Dense(n_classes)] ->
    [Activation] is fed the stream vectors, then their difference when
    [Subtract] accepts them, then their sum and their product; and there are
    at least two streams.  With at least two input streams, non-negative
    sizes and a known activation it returns. *)
Theorem zero_mask_builds_degenerate node_shape node_init fuel n_classes params w :
  np_sum (mask_entries (p_binary_mask params)) = 0%Z ->
  let out :=
    evolution_many_inputs_classification_model node_shape node_init fuel n_classes params w in
  filter graph_event (trace (snd out)) = filter graph_event (trace w) /\
  (forall model, fst out = Ok model ->
     exists dense1 globalmaxpooling streams add mul diff c d a ss sm sc sd sa,
       layer_cfg_of dense1 = Dense 1 /\
       layer_cfg_of globalmaxpooling = GlobalMaxPooling1D /\
       Forall2 (degenerate_vector dense1 globalmaxpooling) (model_inputs model) streams /\
       2 <= List.length streams /\
       layer_cfg_of add = Add /\ layer_cfg_of mul = Multiply /\
       match keras_shape Subtract (map int_shape streams) with
       | Ok sdiff => exists sub, layer_cfg_of sub = Subtract /\
                                 diff = [LayerOutput sub streams sdiff]
       | _ => diff = []
       end /\
       layer_cfg_of c = Concatenate (-1) /\
       layer_cfg_of d = Dense n_classes /\
       layer_cfg_of a = Activation (default_activation params) /\
       model_outputs model =
         LayerOutput a [LayerOutput d [LayerOutput c
           (streams ++ diff ++
            [LayerOutput add streams ss; LayerOutput mul streams sm]) sc] sd] sa) /\
  (2 <= List.length (p_in params) -> valid_sizes params = true ->
   In (default_activation params) known_activations ->
   exists model, fst out = Ok model /\
     List.length (model_inputs model) = List.length (p_in params) /\
     int_shape (model_outputs model) = [None; Some n_classes]).
Proof.
  intros Hsum out. subst out. unfold evolution_many_inputs_classification_model.
  rewrite Hsum. cbn [Z.eqb]. split; [|split].
  - apply filter_graph_event_emits.
    apply emits_bind; [apply emits_make_inputs | intros inputs].
    apply emits_bind;
      [exact (emits_degenerate_streams _ _ no_graph_event_admits _) | intros fo].
    exact (emits_cross_stream_head _ _ no_graph_event_admits _ _ _ _).
  - intros model H.
    destruct (bind _ _ w) as [r w'] eqn:E. simpl in H. subst r.
    apply bind_inv in E. destruct E as (inputs & w1 & _ & E).
    apply bind_inv in E. destruct E as (fo & w2 & Hdeg & E).
    apply degenerate_streams_inv in Hdeg.
    destruct Hdeg as (dense1 & gmp & Hd & Hg & HF).
    pose proof (cross_stream_head_two _ _ _ _ _ _ _ _ E) as Htwo.
    apply cross_stream_head_inv in E.
    destruct E as (add & mul & c & d & a & ss & sm & sc & sd & sa & diff &
                   Hadd & Hmul & Hc & Hdn & Ha & Hdiff & ->).
    exists dense1, gmp, fo, add, mul, diff, c, d, a, ss, sm, sc, sd, sa.
    repeat (split; [assumption|]). reflexivity.
  - intros Hlen Hsizes Hact.
    destruct (make_inputs_Ok params w Hsizes) as (inputs & w1 & Hin & Hl & HF).
    destruct (degenerate_streams_Ok node_shape _ inputs w1 HF) as (outs & w2 & Hdeg & Hlo & Hso).
    destruct (cross_stream_head_Ok node_shape n_classes params inputs outs None 1 w2)
      as (model & w3 & _ & _ & _ & Hrun & _ & _ & _ & _ & Hmi & Hsh);
      [lia | assumption | assumption |].
    exists model. rewrite (bind_Ok _ _ _ _ _ Hin), (bind_Ok _ _ _ _ _ Hdeg), Hrun.
    simpl. split; [reflexivity|]. split; [now rewrite Hmi | assumption].
Qed.

Lemma zero_mask_builds_degenerate_witness :
  let params := example_params ["x"; "y"] zero_mask three_nodes three_dense_specs in
  let out :=
    evolution_many_inputs_classification_model catalog_shape catalog_init 0 2 params world0 in
  filter graph_event (trace (snd out)) = [] /\
  exists model, fst out = Ok model /\
    List.length (model_inputs model) = 2 /\
    int_shape (model_outputs model) = [None; Some 2].
Proof.
  intros params out.
  destruct (zero_mask_builds_degenerate catalog_shape catalog_init 0 2 params world0 eq_refl)
    as (Htrace & _ & Hret).
  split; [exact Htrace|].
  apply Hret; [simpl; lia | reflexivity | simpl; tauto].
Defined.

(** C2, refuted as stated: with a zero mask and a single input stream the
    build does not return: [Add] is applied to the one stream vector and
    raises [ValueError]. *)
Lemma zero_mask_single_stream_raises :
  let params := example_params ["x"] zero_mask three_nodes three_dense_specs in
  np_sum (mask_entries (p_binary_mask params)) = 0%Z /\
  fst (evolution_many_inputs_classification_model catalog_shape catalog_init 0 2
         params world0) =
  Raise (ValueError "A merge layer should be called on a list of at least 2 inputs.").
Proof. intros params. split; [reflexivity | vm_compute; reflexivity]. Qed.

(** C5 (as the code has it): when the reduction returns, the sum and the
    product of all stream vectors have been computed, the difference is
    present exactly when [Subtract] accepts the stream vectors (a
    [ValueError] from it is swallowed), and the head is fed the stream
    vectors, then the difference when computed, then the sum, then the
    product.  On two or more stream vectors of one shape the reduction does
    return, with the difference exactly for two streams. *)
Theorem cross_stream_reduction_order node_shape n_classes params inputs full_outputs w :
  (forall model w',
     cross_stream_head node_shape n_classes params inputs full_outputs w = (Ok model, w') ->
     exists add mul ss sm diff,
       layer_cfg_of add = Add /\ layer_cfg_of mul = Multiply /\
       match keras_shape Subtract (map int_shape full_outputs) with
       | Ok sdiff => exists sub, layer_cfg_of sub = Subtract /\
                                 diff = [LayerOutput sub full_outputs sdiff]
       | _ => diff = []
       end /\
       head_features model =
         full_outputs ++ diff ++
         [LayerOutput add full_outputs ss; LayerOutput mul full_outputs sm]) /\
  (forall b f,
     2 <= List.length full_outputs ->
     Forall (fun t => int_shape t = [b; Some f]) full_outputs ->
     In (default_activation params) known_activations ->
     exists model w',
       cross_stream_head node_shape n_classes params inputs full_outputs w = (Ok model, w') /\
       List.length (head_features model) =
         List.length full_outputs +
         (if Nat.eqb (List.length full_outputs) 2 then 1 else 0) + 2).
Proof.
  split.
  - intros model w' H. apply cross_stream_head_inv in H.
    destruct H as (add & mul & c & d & a & ss & sm & sc & sd & sa & diff &
                   Hadd & Hmul & _ & _ & _ & Hdiff & ->).
    exists add, mul, ss, sm, diff. repeat (split; [assumption|]). reflexivity.
  - intros b f Hl Hs Hact.
    destruct (cross_stream_head_Ok node_shape n_classes params inputs full_outputs b f w
                Hl Hs Hact)
      as (model & w' & add & mul & sub & Hrun & _ & _ & _ & Hfeat & _).
    exists model, w'. split; [exact Hrun|]. rewrite Hfeat, !length_app.
    destruct (Nat.eqb _ 2); simpl; lia.
Qed.

Lemma cross_stream_reduction_order_witness :
  let streams := [InputTensor 0 [None; Some 4]; InputTensor 1 [None; Some 4];
                  InputTensor 2 [None; Some 4]] in
  let params := example_params ["x"; "y"; "z"] zero_mask three_nodes three_dense_specs in
  exists model w',
    cross_stream_head catalog_shape 2 params [] streams world0 = (Ok model, w') /\
    List.length (head_features model) = 5.
Proof.
  intros streams params.
  apply (proj2 (cross_stream_reduction_order catalog_shape 2 params [] streams world0)
           None 4).
  - simpl. lia.
  - repeat constructor.
  - simpl. tauto.
Defined.

(** C5, refuted as stated: with two streams the difference is computed and
    is appended before the sum and the product, so the head is fed
    [stream vectors..., difference, sum, product], not
    [stream vectors..., sum, product, difference]. *)
Lemma difference_precedes_sum_and_product :
  let params := example_params ["x"; "y"] zero_mask three_nodes three_dense_specs in
  exists model w',
    evolution_many_inputs_classification_model catalog_shape catalog_init 0 2 params world0
      = (Ok model, w') /\
    map producer (head_features model) =
      [Some GlobalMaxPooling1D; Some GlobalMaxPooling1D;
       Some Subtract; Some Add; Some Multiply] /\
    map producer (head_features model) <>
      [Some GlobalMaxPooling1D; Some GlobalMaxPooling1D;
       Some Add; Some Multiply; Some Subtract].
Proof.
  intros params. eexists. eexists. split; [vm_compute; reflexivity|].
  split; [reflexivity | discriminate].
Qed.

(** ** Node initialization *)

Lemma strip_node_keys_name spec node_params :
  strip_node_keys spec = Ok node_params -> exists name, node_name_of spec = Ok name.
Proof.
  unfold strip_node_keys, pop, node_name_of, dict_item.
  destruct (dict_get spec "node_name"); [eauto | discriminate].
Qed.

Lemma initialize_node_isolate node_init params isolates model_layers node_str_id w :
  mem node_str_id isolates = true ->
  initialize_node node_init params isolates model_layers node_str_id w = (Ok model_layers, w).
Proof. unfold initialize_node. now intros ->. Qed.

Lemma construct_accepts node_init cfg w :
  node_init cfg = None ->
  construct node_init cfg w =
  (Ok (mkLayer (next_id w) cfg),
   mkWorld (S (next_id w)) (trace w ++ [EvNew (mkLayer (next_id w) cfg)])).
Proof. unfold construct. now intros ->. Qed.

Lemma construct_rejects node_init cfg e w :
  node_init cfg = Some e -> construct node_init cfg w = (Raise e, w).
Proof. unfold construct. now intros ->. Qed.

Lemma construct_inv node_init cfg w l w' :
  construct node_init cfg w = (Ok l, w') ->
  node_init cfg = None /\ l = mkLayer (next_id w) cfg /\
  w' = mkWorld (S (next_id w)) (trace w ++ [EvNew (mkLayer (next_id w) cfg)]).
Proof.
  unfold construct. destruct (node_init cfg); [discriminate|].
  unfold new_layer. intros H. inversion H. auto.
Qed.

Lemma emits_construct (P : event -> Prop) node_init cfg :
  (forall id, P (EvNew (mkLayer id cfg))) -> emits P (construct node_init cfg).
Proof.
  intros H. unfold construct. destruct (node_init cfg);
    [apply emits_raise | now apply emits_new_layer].
Qed.

Lemma initialize_node_unresolved node_init params isolates model_layers node_str_id w :
  mem node_str_id isolates = false ->
  unresolved params node_str_id = true ->
  complete_spec params node_str_id = true ->
  initialize_node node_init params isolates model_layers node_str_id w =
  (Raise (attribute_error_of node_str_id), w).
Proof.
  unfold initialize_node, unresolved, complete_spec. intros -> Hu Hc. cbn [negb].
  destruct (node_spec params node_str_id) as [[key spec]|e|] eqn:E; try discriminate.
  destruct (node_name_of spec) as [name|e|] eqn:En; try discriminate.
  destruct (strip_node_keys spec) as [np|e|] eqn:Es; try discriminate.
  apply andb_true_iff in Hu. destruct Hu as [Hu Hg].
  apply andb_true_iff in Hu. destruct Hu as [Hb Ha].
  apply negb_true_iff in Hb, Ha.
  unfold bind, lift. cbn [fst snd]. rewrite En, Hb, Ha.
  destruct (globals_get name) as [g|e|]; try discriminate.
  rewrite Es. destruct (callable g); [discriminate | reflexivity].
Qed.

(** The loop body on a node whose layer is defined and whose constructor
    returns. *)
Lemma initialize_node_constructs node_init params isolates model_layers node_str_id w cfg :
  mem node_str_id isolates = false ->
  node_cfg_of params node_str_id = Some cfg ->
  node_init cfg = None ->
  exists key spec,
    node_spec params node_str_id = Ok (key, spec) /\
    is_node_cfg cfg = true /\
    initialize_node node_init params isolates model_layers node_str_id w =
    (Ok (dict_set model_layers key (mkLayer (next_id w) cfg)),
     mkWorld (S (next_id w)) (trace w ++ [EvNew (mkLayer (next_id w) cfg)])).
Proof.
  unfold initialize_node, node_cfg_of. intros -> Hcfg Hinit. cbn [negb].
  destruct (node_spec params node_str_id) as [[key spec]|e|] eqn:E; try discriminate.
  destruct (node_name_of spec) as [name|e|] eqn:En; try discriminate.
  destruct (strip_node_keys spec) as [np|e|] eqn:Es; try discriminate.
  exists key, spec. unfold bind, lift. cbn [fst snd]. rewrite En.
  destruct (pyval_is_str name "BiCuDNNLSTM").
  { inversion Hcfg; subst cfg. rewrite Es, (construct_accepts _ _ _ Hinit). auto. }
  destruct (pyval_is_str name "SelfMultiplicativeAttention").
  { inversion Hcfg; subst cfg. rewrite Es, (construct_accepts _ _ _ Hinit). auto. }
  destruct (globals_get name) as [g|e|]; try discriminate.
  rewrite Es. destruct (callable g) as [n|]; [|discriminate].
  inversion Hcfg; subst cfg. rewrite (construct_accepts _ _ _ Hinit). auto.
Qed.

(** The loop body on a node whose layer is defined and whose constructor
    raises: the exception of the constructor comes out. *)
Lemma initialize_node_constructor_raises node_init params isolates model_layers
    node_str_id w cfg e :
  mem node_str_id isolates = false ->
  node_cfg_of params node_str_id = Some cfg ->
  node_init cfg = Some e ->
  initialize_node node_init params isolates model_layers node_str_id w = (Raise e, w).
Proof.
  unfold initialize_node, node_cfg_of. intros -> Hcfg Hinit. cbn [negb].
  destruct (node_spec params node_str_id) as [[key spec]|e0|] eqn:E; try discriminate.
  destruct (node_name_of spec) as [name|e0|] eqn:En; try discriminate.
  destruct (strip_node_keys spec) as [np|e0|] eqn:Es; try discriminate.
  unfold bind, lift. cbn [fst snd]. rewrite En.
  destruct (pyval_is_str name "BiCuDNNLSTM").
  { inversion Hcfg; subst cfg. now rewrite Es, (construct_rejects _ _ _ _ Hinit). }
  destruct (pyval_is_str name "SelfMultiplicativeAttention").
  { inversion Hcfg; subst cfg. now rewrite Es, (construct_rejects _ _ _ _ Hinit). }
  destruct (globals_get name) as [g|e0|]; try discriminate.
  rewrite Es. destruct (callable g) as [n|]; [|discriminate].
  inversion Hcfg; subst cfg. now rewrite (construct_rejects _ _ _ _ Hinit).
Qed.

Lemma initialize_node_inv node_init params isolates model_layers node_str_id w ml' w' :
  initialize_node node_init params isolates model_layers node_str_id w = (Ok ml', w') ->
  (mem node_str_id isolates = true /\ ml' = model_layers /\ w' = w) \/
  (mem node_str_id isolates = false /\
   exists key spec cfg,
     node_spec params node_str_id = Ok (key, spec) /\
     is_node_cfg cfg = true /\
     ml' = dict_set model_layers key (mkLayer (next_id w) cfg) /\
     w' = mkWorld (S (next_id w)) (trace w ++ [EvNew (mkLayer (next_id w) cfg)])).
Proof.
  unfold initialize_node. destruct (mem node_str_id isolates); cbn [negb].
  - unfold ret. intros H. inversion H. now left.
  - intros H. right. split; [reflexivity|].
    apply bind_inv in H. destruct H as ([key spec] & w1 & Hks & H).
    unfold lift in Hks. inversion Hks; subst w1. clear Hks.
    apply bind_inv in H. destruct H as (name & w1 & Hn & H).
    unfold lift in Hn. inversion Hn; subst w1. clear Hn.
    exists key, spec. cbn [fst snd] in H.
    assert (Hfin : forall cfg,
              is_node_cfg cfg = true ->
              (l <- construct node_init cfg ;; ret (dict_set model_layers key l)) w
                = (Ok ml', w') ->
              exists cfg,
                node_spec params node_str_id = Ok (key, spec) /\
                is_node_cfg cfg = true /\
                ml' = dict_set model_layers key (mkLayer (next_id w) cfg) /\
                w' = mkWorld (S (next_id w)) (trace w ++ [EvNew (mkLayer (next_id w) cfg)])).
    { intros cfg Hcfg Hrun. apply bind_inv in Hrun. destruct Hrun as (l & w2 & Hl & Hrun).
      apply construct_inv in Hl. destruct Hl as (_ & -> & ->).
      unfold ret in Hrun. inversion Hrun. exists cfg. auto. }
    destruct (pyval_is_str name "BiCuDNNLSTM").
    { apply bind_inv in H. destruct H as (np & w1 & Hnp & H).
      unfold lift in Hnp. inversion Hnp; subst w1. eapply Hfin; [|exact H]. reflexivity. }
    destruct (pyval_is_str name "SelfMultiplicativeAttention").
    { apply bind_inv in H. destruct H as (np & w1 & Hnp & H).
      unfold lift in Hnp. inversion Hnp; subst w1. eapply Hfin; [|exact H]. reflexivity. }
    apply bind_inv in H. destruct H as (g & w1 & Hg & H).
    unfold lift in Hg. inversion Hg; subst w1. clear Hg.
    apply bind_inv in H. destruct H as (np & w1 & Hnp & H).
    unfold lift in Hnp. inversion Hnp; subst w1. clear Hnp.
    destruct (callable g) as [n|]; [|discriminate].
    eapply Hfin; [|exact H]. reflexivity.
Qed.

Lemma emits_initialize_node node_init params isolates model_layers node_str_id :
  emits is_node_layer_creation
        (initialize_node node_init params isolates model_layers node_str_id).
Proof.
  unfold initialize_node.
  repeat first [ apply emits_bind; [apply emits_construct; intros; eexists;
                                    split; [reflexivity | reflexivity] | intros]
               | emits_step ].
Qed.

Lemma emits_initialize_all_nodes (P : event -> Prop) node_init params :
  (forall e, is_node_layer_creation e -> P e) ->
  P EvInitializeAllNodes -> P EvGetDigraph -> P EvFindSourcesAndSinks ->
  emits P (initialize_all_nodes node_init params).
Proof.
  intros Hn H1 H2 H3. unfold initialize_all_nodes.
  apply emits_bind; [now apply emits_log | intros _].
  apply emits_bind; [now apply emits_log | intros _].
  apply emits_bind; [now apply emits_log | intros _].
  apply emits_for_each. intros acc x _.
  eapply emits_weaken; [exact Hn | apply emits_initialize_node].
Qed.

Lemma dict_get_set_eq {V} (d : dict V) k v : dict_get (dict_set d k v) k = Some v.
Proof.
  induction d as [|[k' v'] d IH]; simpl.
  - now rewrite String.eqb_refl.
  - destruct (String.eqb k k') eqn:E; simpl; rewrite E; [reflexivity | exact IH].
Qed.

Lemma dict_get_set_neq {V} (d : dict V) k k0 v :
  k0 <> k -> dict_get (dict_set d k v) k0 = dict_get d k0.
Proof.
  intros Hne. induction d as [|[k' v'] d IH]; simpl.
  - apply String.eqb_neq in Hne. now rewrite Hne.
  - destruct (String.eqb k k') eqn:E; simpl.
    + apply String.eqb_eq in E. subst k'.
      apply String.eqb_neq in Hne. now rewrite Hne.
    + destruct (String.eqb k0 k'); [reflexivity | exact IH].
Qed.

Lemma dict_get_set_cases {V} (d : dict V) k k0 v x :
  dict_get (dict_set d k v) k0 = Some x -> x = v \/ dict_get d k0 = Some x.
Proof.
  destruct (string_dec k0 k) as [->|Hne].
  - rewrite dict_get_set_eq. intros H. inversion H. now left.
  - rewrite dict_get_set_neq by assumption. now right.
Qed.

Lemma dict_get_set_some {V} (d : dict V) k k0 v :
  (exists x, dict_get d k0 = Some x) -> exists x, dict_get (dict_set d k v) k0 = Some x.
Proof.
  intros (x & Hx). destruct (string_dec k0 k) as [->|Hne].
  - rewrite dict_get_set_eq. eauto.
  - rewrite dict_get_set_neq by assumption. eauto.
Qed.

Lemma created_layers_app tr1 tr2 :
  created_layers (tr1 ++ tr2) = created_layers tr1 ++ created_layers tr2.
Proof. unfold created_layers. apply flat_map_app. Qed.

(** The loop of [initialize_all_nodes]: one new layer per non-isolate node,
    stored under the node's spec key. *)
Lemma initialize_loop_inv node_init params isolates ids : forall acc w ml w',
  for_each ids (initialize_node node_init params isolates) acc w = (Ok ml, w') ->
  exists ls,
    trace w' = trace w ++ map EvNew ls /\
    List.length ls = List.length (filter (fun id => negb (mem id isolates)) ids) /\
    Forall (fun l => is_node_cfg (layer_cfg_of l) = true) ls /\
    (forall id, In id ids -> mem id isolates = false ->
       exists key spec l, node_spec params id = Ok (key, spec) /\
                          dict_get ml key = Some l) /\
    (forall k l, dict_get ml k = Some l -> In l ls \/ dict_get acc k = Some l).
Proof.
  induction ids as [|id ids IH]; intros acc w ml w' H; simpl in H.
  - unfold ret in H. inversion H; subst. exists []. simpl. rewrite app_nil_r.
    repeat split; [constructor | intros id [] | auto].
  - apply bind_inv in H. destruct H as (acc1 & w1 & Hn & H).
    destruct (IH _ _ _ _ H) as (ls & Htr & Hlen & Hcfg & Hid & Hml).
    apply initialize_node_inv in Hn.
    destruct Hn as [(Hiso & -> & ->) | (Hiso & key & spec & cfg & Hsp & Hnc & -> & ->)].
    + exists ls. cbn [filter]. rewrite Hiso. cbn [negb].
      repeat split; try assumption.
      intros id' [<-|Hin] Hni; [congruence | auto].
    + exists (mkLayer (next_id w) cfg :: ls). cbn [filter]. rewrite Hiso. cbn [negb].
      split; [rewrite Htr; cbn [trace map]; now rewrite <- app_assoc|].
      split; [simpl; now rewrite Hlen|].
      split; [constructor; assumption|].
      split.
      * intros id' [<-|Hin] Hni; [|auto].
        exists key, spec.
        assert (Hk : exists x, dict_get ml key = Some x).
        { clear - H. revert H. generalize (dict_get_set_eq acc key (mkLayer (next_id w) cfg)).
          generalize (dict_set acc key (mkLayer (next_id w) cfg)) as d.
          generalize (mkWorld (S (next_id w)) (trace w ++ [EvNew (mkLayer (next_id w) cfg)])) as w0.
          generalize (mkLayer (next_id w) cfg) as l0.
          induction ids as [|i ids IHi]; intros l0 w0 d Hd H; simpl in H.
          - unfold ret in H. inversion H; subst. eauto.
          - apply bind_inv in H. destruct H as (d1 & w1 & Hn & H).
            apply initialize_node_inv in Hn.
            destruct Hn as [(_ & -> & ->) | (_ & k1 & s1 & c1 & _ & _ & -> & ->)].
            + eapply IHi; eassumption.
            + destruct (dict_get_set_some d k1 key (mkLayer (next_id w0) c1)
                          (ex_intro _ l0 Hd)) as (x & Hx).
              eapply IHi; eassumption. }
        destruct Hk as (x & Hx). exists x. auto.
      * intros k l Hl. destruct (Hml k l Hl) as [Hin | Hget]; [left; now right|].
        apply dict_get_set_cases in Hget. destruct Hget as [-> | Hget];
          [left; now left | now right].
Qed.

Lemma initialize_all_nodes_inv node_init params w ml w' :
  initialize_all_nodes node_init params w = (Ok ml, w') ->
  exists ls,
    trace w' = trace w ++
      [EvInitializeAllNodes; EvGetDigraph; EvFindSourcesAndSinks] ++ map EvNew ls /\
    List.length ls =
      List.length (filter (fun id => negb (mem id (isolates_of (graph_of params))))
                          (keys (p_nodes params))) /\
    Forall (fun l => is_node_cfg (layer_cfg_of l) = true) ls /\
    (forall id, In id (keys (p_nodes params)) ->
       mem id (isolates_of (graph_of params)) = false ->
       exists key spec l, node_spec params id = Ok (key, spec) /\
                          dict_get ml key = Some l) /\
    (forall k l, dict_get ml k = Some l -> In l ls).
Proof.
  unfold initialize_all_nodes. intros H.
  apply bind_inv in H. destruct H as ([] & w1 & H1 & H).
  apply bind_inv in H. destruct H as ([] & w2 & H2 & H).
  apply bind_inv in H. destruct H as ([] & w3 & H3 & H).
  unfold log in H1, H2, H3. inversion H1; subst w1. inversion H2; subst w2.
  inversion H3; subst w3. clear H1 H2 H3.
  apply initialize_loop_inv in H. destruct H as (ls & Htr & Hlen & Hcfg & Hid & Hml).
  exists ls. cbn [trace] in Htr. split; [rewrite Htr, <- !app_assoc; reflexivity|].
  repeat split; try assumption.
  intros k l Hl. destruct (Hml k l Hl) as [|Hget]; [assumption | discriminate].
Qed.

Lemma map_M_trace {A B} (g : A -> M B) xs :
  (forall x w y w', g x w = (Ok y, w') -> trace w' = trace w) ->
  forall w ys w', map_M g xs w = (Ok ys, w') -> trace w' = trace w.
Proof.
  intros Hg. induction xs as [|x xs IH]; intros w ys w' H; simpl in H.
  - unfold ret in H. now inversion H.
  - apply bind_inv in H. destruct H as (y & wa & Hy & H).
    apply bind_inv in H. destruct H as (ys' & wb & Hys & H).
    unfold ret in H. inversion H; subst.
    rewrite (IH _ _ _ Hys). eapply Hg; eassumption.
Qed.

Lemma Input_trace ts emb w y w' : Input ts emb w = (Ok y, w') -> trace w' = trace w.
Proof.
  unfold Input. destruct (_ || _)%bool; intros H; inversion H. reflexivity.
Qed.

(** Placeholders are no events of the trace. *)
Lemma make_inputs_trace params w inputs w' :
  make_inputs params w = (Ok inputs, w') -> trace w' = trace w.
Proof.
  unfold make_inputs. destruct (p_text_size params) as [ts|l].
  - apply map_M_trace. intros x w0 y w0'. apply Input_trace.
  - apply map_M_trace. intros x w0 y w0'.
    destruct (nth_error l x) as [ts|].
    + apply Input_trace.
    + unfold raise. discriminate.
Qed.

Lemma initialize_loop_raises node_init params isolates node_str_id after before :
  forall acc w,
  (forall id, In id before -> mem id isolates = false ->
     exists cfg, node_cfg_of params id = Some cfg /\ node_init cfg = None) ->
  mem node_str_id isolates = false ->
  unresolved params node_str_id = true ->
  complete_spec params node_str_id = true ->
  exists w',
    for_each (before ++ node_str_id :: after)
             (initialize_node node_init params isolates) acc w =
    (Raise (attribute_error_of node_str_id), w').
Proof.
  induction before as [|id before IH]; intros acc w Hb Hiso Hu Hc; cbn [app for_each].
  - exists w. apply bind_Raise. now apply initialize_node_unresolved.
  - destruct (mem id isolates) eqn:Hi.
    + rewrite (bind_Ok _ _ _ _ _
                 (initialize_node_isolate node_init params isolates acc id w Hi)).
      apply IH; try assumption. intros id' Hin. apply Hb. now right.
    + destruct (Hb id (or_introl eq_refl) Hi) as (cfg & Hcfg & Hinit).
      destruct (initialize_node_constructs node_init params isolates acc id w cfg
                  Hi Hcfg Hinit) as (key & spec & _ & _ & Hrun).
      rewrite (bind_Ok _ _ _ _ _ Hrun).
      apply IH; try assumption. intros id' Hin. apply Hb. now right.
Qed.

Lemma not_a_call_node_creation e : is_node_layer_creation e -> not_a_call e.
Proof. intros (l & -> & _). exact I. Qed.

(** C6 (as the code has it): take a node that is no isolate, whose spec
    holds the three keys the module pops and whose type name can be looked
    up in the module's globals and is neither of the two special cases nor
    bound to a callable there; let every node before it in key order that is
    no isolate have a layer that is defined and whose constructor returns.
    Then [initialize_all_nodes] raises [AttributeError] for that node, with a
    message that names the node id only; no layer has been applied to a
    tensor by then.  For a mask that does not sum to zero and sizes [Input]
    accepts, the whole construction fails with that error. *)
Theorem unresolved_node_type_raises node_init params w before node_str_id after :
  let isolates := isolates_of (graph_of params) in
  keys (p_nodes params) = before ++ node_str_id :: after ->
  (forall id, In id before -> mem id isolates = false ->
     exists cfg, node_cfg_of params id = Some cfg /\ node_init cfg = None) ->
  mem node_str_id isolates = false ->
  unresolved params node_str_id = true ->
  complete_spec params node_str_id = true ->
  (exists w',
     initialize_all_nodes node_init params w =
       (Raise (AttributeError ("Node " ++ node_str_id ++ " is not defined correctly")), w') /\
     exists evs, trace w' = trace w ++ evs /\ Forall not_a_call evs) /\
  (forall node_shape fuel n_classes,
     np_sum (mask_entries (p_binary_mask params)) <> 0%Z ->
     valid_sizes params = true ->
     exists w',
       evolution_many_inputs_classification_model node_shape node_init fuel n_classes params w =
         (Raise (AttributeError ("Node " ++ node_str_id ++ " is not defined correctly")), w') /\
       exists evs, trace w' = trace w ++ evs /\ Forall not_a_call evs).
Proof.
  intros isolates Hkeys Hb Hiso Hu Hc.
  assert (Hinit : forall w0, exists w',
             initialize_all_nodes node_init params w0 =
               (Raise (attribute_error_of node_str_id), w') /\
             exists evs, trace w' = trace w0 ++ evs /\ Forall not_a_call evs).
  { intros w0.
    assert (Heq : exists w', initialize_all_nodes node_init params w0 =
                             (Raise (attribute_error_of node_str_id), w')).
    { unfold initialize_all_nodes.
      erewrite bind_Ok; [|reflexivity].
      erewrite bind_Ok; [|reflexivity].
      erewrite bind_Ok; [|reflexivity].
      rewrite Hkeys. apply initialize_loop_raises; assumption. }
    destruct Heq as (w' & Heq). exists w'. split; [exact Heq|].
    assert (He : emits not_a_call (initialize_all_nodes node_init params)).
    { apply emits_initialize_all_nodes; try exact I. apply not_a_call_node_creation. }
    destruct (He w0) as (evs & Htr & Hev). rewrite Heq in Htr.
    exists evs. now split. }
  split; [apply Hinit|].
  intros node_shape fuel n_classes Hsum Hsizes.
  destruct (make_inputs_Ok params w Hsizes) as (inputs & w1 & Hin & _ & _).
  destruct (Hinit w1) as (w' & Hrun & evs & Htr & Hev).
  exists w'. unfold evolution_many_inputs_classification_model.
  rewrite (bind_Ok _ _ _ _ _ Hin).
  apply Z.eqb_neq in Hsum. rewrite Hsum.
  rewrite (bind_Raise _ _ _ _ _ Hrun). split; [reflexivity|].
  exists evs. split; [|assumption]. rewrite Htr. f_equal.
  eapply make_inputs_trace; eassumption.
Qed.

Lemma unresolved_node_type_raises_witness :
  let params := example_params ["x"; "y"] chain_mask three_nodes chain_unknown_specs in
  exists w',
    evolution_many_inputs_classification_model catalog_shape catalog_init 5 2 params world0 =
      (Raise (AttributeError "Node 1 is not defined correctly"), w') /\
    exists evs, trace w' = trace world0 ++ evs /\ Forall not_a_call evs.
Proof.
  intros params.
  refine (proj2 (unresolved_node_type_raises catalog_init params world0 ["0"] "1" ["2"]
                   eq_refl _ eq_refl eq_refl eq_refl)
            catalog_shape 5 2 _ eq_refl).
  - intros id [<-|[]] _. eexists. split; reflexivity.
  - discriminate.
Defined.

(** C6, refuted as stated: a node spec whose type name resolves to nothing
    does not make the construction fail when the node is an isolate: the
    model is built. *)
Lemma unknown_type_of_isolate_is_accepted :
  let params := example_params ["x"; "y"] isolate_mask three_nodes isolate_unknown_specs in
  unresolved params "2" = true /\
  exists model w',
    evolution_many_inputs_classification_model catalog_shape catalog_init 5 2 params world0
      = (Ok model, w').
Proof.
  intros params. split; [reflexivity|].
  eexists. eexists. vm_compute. reflexivity.
Qed.

(** ** Node layers are shared by the streams *)

Lemma stream_event_admits ml : admits_module_layers (stream_event ml).
Proof. split; intros; simpl; auto. Qed.

Lemma stream_event_calls ml : admits_calls_of ml (stream_event ml).
Proof. intros k l args H. simpl. right. eauto. Qed.

Lemma created_layers_map_EvNew ls : created_layers (map EvNew ls) = ls.
Proof. induction ls; simpl; [reflexivity | now f_equal]. Qed.

(** C7 (as the code has it): for a mask that does not sum to zero,
    [initialize_all_nodes] runs before the per-stream loop and constructs
    exactly one layer object per non-isolate node, each a catalog layer,
    held in [model_layers] under the node's spec key.  Everything the
    construction does afterwards, for whatever number of streams, constructs
    no catalog layer and applies no catalog layer other than those of
    [model_layers]. *)
Theorem node_layers_created_once node_shape node_init fuel n_classes params w
    inputs w1 model_layers w2 :
  np_sum (mask_entries (p_binary_mask params)) <> 0%Z ->
  make_inputs params w = (Ok inputs, w1) ->
  initialize_all_nodes node_init params w1 = (Ok model_layers, w2) ->
  (exists ls,
     created_layers (trace w2) = created_layers (trace w1) ++ ls /\
     List.length ls =
       List.length (filter (fun id => negb (mem id (isolates_of (graph_of params))))
                           (keys (p_nodes params))) /\
     Forall (fun l => is_node_cfg (layer_cfg_of l) = true) ls /\
     (forall k l, dict_get model_layers k = Some l -> In l ls) /\
     (forall id, In id (keys (p_nodes params)) ->
        mem id (isolates_of (graph_of params)) = false ->
        exists key spec l, node_spec params id = Ok (key, spec) /\
                           dict_get model_layers key = Some l)) /\
  (exists evs,
     trace (snd (evolution_many_inputs_classification_model
                   node_shape node_init fuel n_classes params w)) = trace w2 ++ evs /\
     Forall (stream_event model_layers) evs).
Proof.
  intros Hsum Hin Hinit. split.
  - apply initialize_all_nodes_inv in Hinit.
    destruct Hinit as (ls & Htr & Hlen & Hcfg & Hid & Hml).
    exists ls. rewrite Htr, !created_layers_app, created_layers_map_EvNew.
    change (created_layers [EvInitializeAllNodes; EvGetDigraph; EvFindSourcesAndSinks])
      with (@nil Layer).
    cbn [app]. auto 6.
  - unfold evolution_many_inputs_classification_model.
    rewrite (bind_Ok _ _ _ _ _ Hin).
    apply Z.eqb_neq in Hsum. rewrite Hsum.
    rewrite (bind_Ok _ _ _ _ _ Hinit).
    match goal with
    | |- context [bind ?m ?k w2] =>
        assert (He : emits (stream_event model_layers) (bind m k))
    end.
    { apply emits_bind.
      - apply emits_for_each. intros acc inp _.
        apply emits_bind; [|intros; apply emits_ret].
        apply emits_build_stream;
          [apply stream_event_admits | apply stream_event_calls |].
        intros e He Hne. destruct e; try exact I; try discriminate. congruence.
      - intros fo. apply emits_cross_stream_head, stream_event_admits. }
    exact (He w2).
Qed.

Lemma node_layers_created_once_witness :
  let params := example_params ["x"; "y"] diamond_mask four_nodes four_dense_specs in
  exists model_layers w2 evs,
    List.length model_layers = 4 /\
    trace (snd (evolution_many_inputs_classification_model
                  catalog_shape catalog_init 5 2 params world0)) = trace w2 ++ evs /\
    Forall (stream_event model_layers) evs.
Proof.
  intros params.
  destruct (make_inputs params world0) as [[inputs| |] w1] eqn:Hin;
    try (vm_compute in Hin; discriminate).
  destruct (initialize_all_nodes catalog_init params w1) as [[ml| |] w2] eqn:Hinit;
    try (vm_compute in Hin; inversion Hin; subst; vm_compute in Hinit; discriminate).
  destruct (node_layers_created_once catalog_shape catalog_init 5 2 params world0 inputs w1 ml w2)
    as (_ & evs & Htr & Hev); [discriminate | assumption | assumption |].
  exists ml, w2, evs. split; [|split; assumption].
  vm_compute in Hin. inversion Hin; subst. vm_compute in Hinit. inversion Hinit; subst.
  reflexivity.
Defined.

(** C7, refuted as stated: the layers holding weights do depend on the number
    of streams.  On 0 -> 2 <- 1 with a pooled and a sequence parent the
    shape fallback constructs fresh [Dense] projections inside each stream:
    five [Dense] objects are constructed by the module for two streams and
    seven for three. *)
Lemma fallback_projections_grow_with_streams :
  let p2 := example_params ["x"; "y"] fallback_mask three_nodes fallback_specs in
  let p3 := example_params ["x"; "y"; "z"] fallback_mask three_nodes fallback_specs in
  exists m2 w2 m3 w3,
    evolution_many_inputs_classification_model catalog_shape catalog_init 5 2 p2 world0 = (Ok m2, w2) /\
    evolution_many_inputs_classification_model catalog_shape catalog_init 5 2 p3 world0 = (Ok m3, w3) /\
    List.length (module_dense_layers (trace w2)) = 5 /\
    List.length (module_dense_layers (trace w3)) = 7.
Proof.
  intros p2 p3. eexists. eexists. eexists. eexists.
  split; [vm_compute; reflexivity|]. split; [vm_compute; reflexivity|].
  split; reflexivity.
Qed.

(** ** Reconciling the outputs of the predecessors *)

Lemma gather_one_Ok node_shape edges_outputs b p t w :
  dict_get edges_outputs p = Some t -> reconcilable b t ->
  exists t' w',
    gather_one node_shape edges_outputs p w = (Ok t', w') /\
    lifted_of t t' /\ rank3_with b t'.
Proof.
  intros Hget [(f & Hs) | (tm & f & Hs)]; unfold gather_one, dict_item, lift.
  - rewrite Hget. unfold bind at 1. cbv iota beta. rewrite Hs. cbn [List.length Nat.eqb].
    unfold lift_rank2. erewrite bind_Ok; [|reflexivity].
    eexists. eexists. split.
    + apply call_Ok. cbn [layer_cfg_of layer_output_shape keras_shape map].
      rewrite Hs. reflexivity.
    + split.
      * right. exists b, (Some f), (mkLayer (next_id w) Lambda_expand_tile). auto.
      * exists (Some 1), f. reflexivity.
  - rewrite Hget. unfold bind at 1. cbv iota beta. rewrite Hs. cbn [List.length Nat.eqb].
    exists t, w. split; [reflexivity|]. split.
    + left. rewrite Hs. auto.
    + exists tm, f. assumption.
Qed.

Lemma gather_loop_Ok node_shape edges_outputs b ps outs :
  Forall2 (fun p t => dict_get edges_outputs p = Some t /\ reconcilable b t) ps outs ->
  forall w, exists lifted w',
    map_M (gather_one node_shape edges_outputs) ps w = (Ok lifted, w') /\
    Forall2 lifted_of outs lifted /\ Forall (rank3_with b) lifted.
Proof.
  induction 1 as [|p t ps outs [Hget Hrec] _ IH]; intros w; simpl.
  - exists [], w. repeat split; constructor.
  - destruct (gather_one_Ok node_shape edges_outputs b p t w Hget Hrec)
      as (t' & w1 & Hrun & Hl & Hr).
    destruct (IH w1) as (lifted & w2 & Hruns & Hls & Hrs).
    exists (t' :: lifted), w2.
    rewrite (bind_Ok _ _ _ _ _ Hrun), (bind_Ok _ _ _ _ _ Hruns).
    repeat split; now constructor.
Qed.

Lemma rank3_feature_width b t :
  rank3_with b t -> exists tm, int_shape t = [b; tm; Some (feature_width t)].
Proof.
  intros (tm & f & Hs). exists tm. unfold feature_width. rewrite Hs. reflexivity.
Qed.

Lemma fallback_lift_Ok node_shape b t w :
  rank3_with b t ->
  fallback_lift node_shape t w = (Ok (t, Some (feature_width t)), w).
Proof.
  intros H. destruct (rank3_feature_width b t H) as (tm & Hs).
  unfold fallback_lift. rewrite Hs. cbn [List.length Nat.eqb].
  unfold bind, ret, lift. rewrite Hs. reflexivity.
Qed.

Lemma fallback_lift_loop node_shape b ts :
  Forall (rank3_with b) ts ->
  forall w, map_M (fallback_lift node_shape) ts w =
            (Ok (map (fun t => (t, Some (feature_width t))) ts), w).
Proof.
  induction 1 as [|t ts Ht _ IH]; intros w; simpl; [reflexivity|].
  rewrite (bind_Ok _ _ _ _ _ (fallback_lift_Ok node_shape b t w Ht)).
  rewrite (bind_Ok _ _ _ _ _ (IH w)). reflexivity.
Qed.

Lemma fold_max_widths (l : list Tensor) :
  fold_right (fun d m => match d with Some x => Nat.max x m | None => m end) 0
             (map (fun t => Some (feature_width t)) l) = max_width l.
Proof. induction l as [|t l IH]; simpl; [reflexivity | now rewrite IH]. Qed.

Lemma py_max_widths (ts : list Tensor) :
  2 <= List.length ts ->
  py_max (map (fun t => Some (feature_width t)) ts) = Ok (Some (max_width ts)).
Proof.
  intros Hl. rewrite <- fold_max_widths.
  destruct ts as [|t1 [|t2 ts]]; simpl in Hl; try lia.
  remember (t1 :: t2 :: ts) as l eqn:El.
  assert (Hall : forallb (fun d : option nat => match d with Some _ => true | None => false end)
                   (map (fun t => Some (feature_width t)) l) = true).
  { apply forallb_forall. intros d Hd. apply in_map_iff in Hd.
    destruct Hd as (t & <- & _). reflexivity. }
  unfold py_max. rewrite Hall. subst l. reflexivity.
Qed.

Lemma fallback_project_Ok node_shape b width t w :
  rank3_with b t ->
  exists t' w',
    fallback_project node_shape (Some width) t w = (Ok t', w') /\
    projected_to width t t' /\
    exists tm, int_shape t' = [b; tm; Some width].
Proof.
  intros H. destruct (rank3_feature_width b t H) as (tm & Hs).
  unfold fallback_project. rewrite Hs. unfold lift, shape_item. cbn [nth_error].
  unfold bind at 1. cbv iota beta. cbn [dim_eqb].
  destruct (Nat.eqb (feature_width t) width) eqn:E.
  - apply Nat.eqb_eq in E. exists t, w. split; [reflexivity|]. split.
    + left. auto.
    + exists tm. now rewrite Hs, E.
  - apply Nat.eqb_neq in E. erewrite bind_Ok; [|reflexivity].
    eexists. eexists. split.
    + apply call_Ok. cbn [layer_cfg_of layer_output_shape keras_shape map].
      rewrite Hs. reflexivity.
    + split.
      * right. split; [assumption|]. eexists. split; [|rewrite Hs; reflexivity].
        reflexivity.
      * exists tm. reflexivity.
Qed.

Lemma fallback_project_loop node_shape b width ts :
  Forall (rank3_with b) ts ->
  forall w, exists projected w',
    map_M (fallback_project node_shape (Some width)) ts w = (Ok projected, w') /\
    Forall2 (projected_to width) ts projected /\
    Forall (fun t => exists tm, int_shape t = [b; tm; Some width]) projected.
Proof.
  induction 1 as [|t ts Ht _ IH]; intros w; simpl.
  - exists [], w. repeat split; constructor.
  - destruct (fallback_project_Ok node_shape b width t w Ht) as (t' & w1 & Hrun & Hp & Hs).
    destruct (IH w1) as (projected & w2 & Hruns & Hps & Hss).
    exists (t' :: projected), w2.
    rewrite (bind_Ok _ _ _ _ _ Hrun), (bind_Ok _ _ _ _ _ Hruns).
    repeat split; now constructor.
Qed.

(** [Concatenate(axis=1)] accepts rank-3 shapes that agree on batch size and
    width. *)
Lemma concatenate_time_axis b width (ss : list shape) :
  2 <= List.length ss ->
  Forall (fun s => exists tm, s = [b; tm; Some width]) ss ->
  exists tm, concatenate_shape 1 ss = Ok [b; tm; Some width].
Proof.
  intros Hl Hs. destruct ss as [|s0 [|s1 ss]]; simpl in Hl; try lia.
  unfold concatenate_shape.
  rewrite (map_result_del_axis 1 1)
    by (eapply Forall_impl; [|exact Hs]; intros s (tm & ->); reflexivity).
  assert (Hred : Forall (fun r => r = [b; Some width]) (map (del_at 1) (s0 :: s1 :: ss))).
  { apply Forall_forall. intros r Hr. apply in_map_iff in Hr.
    destruct Hr as (s & <- & Hin). rewrite Forall_forall in Hs.
    destruct (Hs s Hin) as (tm & ->). reflexivity. }
  inversion Hs as [|? ? (tm0 & ->) Hrest]; subst.
  change (hd [] (map (del_at 1) ([b; tm0; Some width] :: s1 :: ss)))
    with [b; Some width].
  rewrite (forallb_same_reduced _ _ Hred).
  change (norm_axis 1 (List.length [b; tm0; Some width])) with (Some 1).
  eexists. reflexivity.
Qed.

Lemma fold_dim_add_Some (ss : list shape) b a :
  Forall (fun s => exists tm f, s = [b; tm; Some f]) ss ->
  exists x, fold_left (fun acc s => dim_add acc (nth 2 s None)) ss (Some a) = Some x.
Proof.
  intros H. revert a. induction H as [|s ss (tm & f & ->) _ IH]; intros a; simpl.
  - eauto.
  - apply IH.
Qed.

(** [Concatenate()] on rank-3 shapes either returns a rank-3 shape with the
    same batch size or raises [ValueError]. *)
Lemma concatenate_feature_axis b (ss : list shape) :
  Forall (fun s => exists tm f, s = [b; tm; Some f]) ss ->
  (exists tm f, concatenate_shape (-1) ss = Ok [b; tm; Some f]) \/
  (exists msg, concatenate_shape (-1) ss = Raise (ValueError msg)).
Proof.
  intros Hs. destruct ss as [|s0 [|s1 ss]]; [right; eexists; reflexivity.. |].
  unfold concatenate_shape.
  rewrite (map_result_del_axis (-1) 2).
  - inversion Hs as [|? ? (tm0 & f0 & ->) Hrest]; subst.
    match goal with
    | |- context [forallb ?g ?l] => destruct (forallb g l)
    end.
    + left. change (norm_axis (-1) (List.length [b; tm0; Some f0])) with (Some 2).
      cbn [nth]. destruct (fold_dim_add_Some (s1 :: ss) b f0 Hrest) as (x & ->).
      exists tm0, x. reflexivity.
    + right. eexists. reflexivity.
  - eapply Forall_impl; [|exact Hs]. intros s (tm & f & ->). reflexivity.
Qed.

Lemma map_int_shape_rank3 b ts :
  Forall (rank3_with b) ts ->
  Forall (fun s => exists tm f, s = [b; tm; Some f]) (map int_shape ts).
Proof.
  induction 1 as [|t ts (tm & f & Ht) _ IH]; simpl; constructor; eauto.
Qed.

Lemma concat_fallback_Ok node_shape b inp_list w :
  2 <= List.length inp_list -> Forall (rank3_with b) inp_list ->
  exists c1 projected s w',
    concat_fallback node_shape inp_list w = (Ok (LayerOutput c1 projected s), w') /\
    layer_cfg_of c1 = Concatenate 1 /\
    Forall2 (projected_to (max_width inp_list)) inp_list projected /\
    (exists tm, s = [b; tm; Some (max_width inp_list)]).
Proof.
  intros Hl Hr. unfold concat_fallback.
  rewrite (bind_Ok _ _ _ _ _ (fallback_lift_loop node_shape b inp_list Hr w)).
  rewrite !map_map. cbn [fst snd]. rewrite map_id.
  unfold lift at 1. rewrite (py_max_widths inp_list Hl).
  unfold bind at 1. cbv iota beta.
  destruct (fallback_project_loop node_shape b (max_width inp_list) inp_list Hr w)
    as (projected & w1 & Hrun & Hp & Hs).
  rewrite (bind_Ok _ _ _ _ _ Hrun).
  erewrite bind_Ok; [|reflexivity].
  destruct (concatenate_time_axis b (max_width inp_list) (map int_shape projected))
    as (tm & Hc).
  - rewrite length_map. apply Forall2_length in Hp. lia.
  - clear - Hs. induction Hs as [|t ts (tm & Ht) _ IH]; simpl; constructor; eauto.
  - eexists. exists projected. eexists. eexists. split.
    + apply call_Ok. cbn [layer_cfg_of layer_output_shape keras_shape]. exact Hc.
    + split; [reflexivity|]. split; [assumption|]. eauto.
Qed.

Lemma anything_admits : admits_module_layers (fun _ => True).
Proof. split; intros; exact I. Qed.

(** C4: the input of a non-source node whose predecessor outputs have rank 2
    or 3, one batch size and known feature widths.  Every rank-2 output is
    lifted by a [Lambda(expand_tile)] to rank 3 with a time axis of length 1.
    With one predecessor its (lifted) output is the input.  With several,
    [Concatenate()] is applied to the lifted outputs first; when it raises
    [ValueError], every tensor narrower than the maximum width goes through a
    fresh [Dense] of that width and the results are concatenated on axis 1.
    The input is built in every case, and has rank 3. *)
Theorem gather_inputs_reconciles node_shape node_str_id dg edges_outputs w b outs :
  let input_nodes := map fst (in_edges dg node_str_id) in
  outs <> [] ->
  Forall2 (fun p t => dict_get edges_outputs p = Some t /\ reconcilable b t)
          input_nodes outs ->
  exists inp w' lifted,
    gather_inputs node_shape node_str_id dg edges_outputs w = (Ok inp, w') /\
    Forall2 lifted_of outs lifted /\
    rank3_with b inp /\
    ((exists t, lifted = [t] /\ inp = t) \/
     (2 <= List.length lifted /\
      exists c, layer_cfg_of c = Concatenate (-1) /\
                In (EvCall c lifted) (trace w') /\
        ((exists s, concatenate_shape (-1) (map int_shape lifted) = Ok s /\
                    inp = LayerOutput c lifted s) \/
         (exists msg,
            concatenate_shape (-1) (map int_shape lifted) = Raise (ValueError msg) /\
            exists c1 projected s,
              layer_cfg_of c1 = Concatenate 1 /\
              Forall2 (projected_to (max_width lifted)) lifted projected /\
              inp = LayerOutput c1 projected s /\
              feature_width inp = max_width lifted)))).
Proof.
  intros input_nodes Hne HF.
  destruct (gather_loop_Ok node_shape edges_outputs b _ outs HF w)
    as (lifted & w1 & Hrun & Hl & Hr).
  pose proof (Forall2_length HF) as Hlen1. pose proof (Forall2_length Hl) as Hlen2.
  assert (Hgi : gather_inputs node_shape node_str_id dg edges_outputs w =
                (if Nat.ltb 1 (List.length lifted)
                 then try_except_ValueError
                        (c <- new_layer (Concatenate (-1)) ;; call node_shape c lifted)
                        (concat_fallback node_shape lifted)
                 else match lifted with
                      | t :: _ => ret t
                      | [] => raise (IndexError "list index out of range")
                      end) w1).
  { unfold gather_inputs. cbv zeta. fold input_nodes.
    rewrite (bind_Ok _ _ _ _ _ Hrun).
    match goal with
    | |- context [Nat.ltb 1 ?n] =>
        replace n with (List.length lifted) by (rewrite <- Hlen2; exact (eq_sym Hlen1))
    end.
    reflexivity. }
  destruct lifted as [|t1 [|t2 rest]].
  - destruct outs; [congruence | discriminate].
  - exists t1, w1, [t1]. split; [rewrite Hgi; reflexivity|]. split; [assumption|].
    split; [now inversion Hr|]. left. eauto.
  - set (lifted := t1 :: t2 :: rest) in *.
    set (c := mkLayer (next_id w1) (Concatenate (-1))).
    change (Nat.ltb 1 (List.length lifted)) with true in Hgi. cbv iota in Hgi.
    destruct (concatenate_feature_axis b (map int_shape lifted)
                (map_int_shape_rank3 b lifted Hr)) as [(tm & f & Hc) | (msg & Hc)].
    + eexists. eexists. exists lifted. split.
      * rewrite Hgi. apply try_Ok. erewrite bind_Ok; [|reflexivity].
        apply call_Ok. exact Hc.
      * split; [assumption|]. split; [exists tm, f; reflexivity|].
        right. split; [simpl; lia|]. exists c. split; [reflexivity|].
        split; [cbn [trace]; apply in_or_app; right; now left|].
        left. eauto.
    + destruct (concat_fallback_Ok node_shape b lifted
                  (mkWorld (next_id (mkWorld (S (next_id w1)) (trace w1 ++ [EvNew c])))
                           (trace (mkWorld (S (next_id w1)) (trace w1 ++ [EvNew c]))
                            ++ [EvCall c lifted])))
        as (c1 & projected & s & w' & Hfb & Hc1 & Hp & (tm & Hs));
        [simpl; lia | assumption |].
      exists (LayerOutput c1 projected s), w', lifted. split.
      * rewrite Hgi. erewrite try_ValueError; [exact Hfb|].
        erewrite bind_Ok; [|reflexivity].
        apply call_Raise. exact Hc.
      * split; [assumption|]. split; [exists tm, (max_width lifted); exact Hs|].
        right. split; [simpl; lia|]. exists c. split; [reflexivity|].
        split.
        -- destruct (emits_concat_fallback node_shape (fun _ => True) anything_admits
                       lifted
                       (mkWorld (next_id (mkWorld (S (next_id w1)) (trace w1 ++ [EvNew c])))
                           (trace (mkWorld (S (next_id w1)) (trace w1 ++ [EvNew c]))
                            ++ [EvCall c lifted])))
             as (evs & Htr & _).
           rewrite Hfb in Htr. cbn [snd trace] in Htr. rewrite Htr.
           apply in_or_app. left. apply in_or_app. right. now left.
        -- right. exists msg. split; [assumption|].
           exists c1, projected, s. repeat split; try assumption.
           unfold feature_width. cbn [int_shape]. rewrite Hs. reflexivity.
Qed.

Lemma gather_inputs_reconciles_witness :
  let dg := get_digraph_from_binary_mask three_nodes fallback_mask in
  exists inp w',
    gather_inputs catalog_shape "2" dg fallback_edges_outputs world0 = (Ok inp, w') /\
    rank3_with None inp.
Proof.
  intros dg.
  destruct (gather_inputs_reconciles catalog_shape "2" dg fallback_edges_outputs world0
              None (map snd fallback_edges_outputs))
    as (inp & w' & lifted & Hrun & _ & Hrank & _).
  - discriminate.
  - change (map fst (in_edges dg "2")) with ["0"; "1"].
    constructor; [split; [reflexivity | left; exists 3; reflexivity]|].
    constructor; [split; [reflexivity | right; exists (Some 5), 4; reflexivity]|].
    constructor.
  - exists inp, w'. split; assumption.
Defined.

(** ** The architecture descriptor under [__init__] and [save] *)

Lemma set_at_length {A} (h : list A) (d x : A) :
  set_at (List.length h) x (h ++ [d]) = h ++ [x].
Proof. induction h as [|y h IH]; simpl; [reflexivity | now rewrite IH]. Qed.

Lemma nth_length {A} (h : list A) (d default : A) :
  nth (List.length h) (h ++ [d]) default = d.
Proof. induction h as [|y h IH]; simpl; [reflexivity | exact IH]. Qed.

Lemma firstn_length_app {A} (h t : list A) : firstn (List.length h) (h ++ t) = h.
Proof. induction h as [|y h IH]; simpl; [now destruct t | now rewrite IH]. Qed.

Lemma obj_pop_last h d k :
  obj_pop (h ++ [d]) (List.length h) k =
  match pop d k with
  | Ok d' => Ok (h ++ [d'])
  | Raise e => Raise e
  | Running => Running
  end.
Proof.
  unfold obj_pop, pop. rewrite nth_length.
  destruct (dict_get d k); [now rewrite set_at_length | reflexivity].
Qed.

(** The three [pop]s act on the copy: every object there was is left as it
    was, and the copy ends up holding what [strip_node_keys] gives on the
    entries of the spec, or the same [KeyError] is raised. *)
Lemma strip_node_keys_at_copy h spec :
  match strip_node_keys_at h spec, strip_node_keys (nth spec h []) with
  | Ok (h', node_params), Ok d =>
      nth node_params h' [] = d /\ firstn (List.length h) h' = h
  | Raise e, Raise e' => e = e'
  | _, _ => False
  end.
Proof.
  unfold strip_node_keys_at, deepcopy, strip_node_keys.
  rewrite obj_pop_last.
  destruct (pop (nth spec h []) "node_name") as [d1|e|] eqn:E1; cbn [rbind];
    [|reflexivity|unfold pop in E1; destruct (dict_get _ _); discriminate].
  rewrite obj_pop_last.
  destruct (pop d1 "node_type") as [d2|e|] eqn:E2; cbn [rbind];
    [|reflexivity|unfold pop in E2; destruct (dict_get _ _); discriminate].
  rewrite obj_pop_last.
  destruct (pop d2 "node_layer") as [d3|e|] eqn:E3; cbn [rbind];
    [|reflexivity|unfold pop in E3; destruct (dict_get _ _); discriminate].
  split; [apply nth_length | apply firstn_length_app].
Qed.

Lemma save_opt self :
  opt (fst (save self)) =
  set_binary_mask (opt self) (pylist (mask_entries (p_binary_mask (opt self)))) /\
  saved_opt (fst (save self)) = Some (opt (fst (save self))) /\
  snd (save self) = true.
Proof.
  destruct self as [o sv]. unfold save. cbn [opt].
  destruct o as [pin ts emb mask nodes specs nt ct act]. cbn [p_binary_mask].
  destruct mask as [m|m]; repeat split.
Qed.

(** C8 (as the code has it): [__init__] takes the configuration as
    [self.opt] with the mask replaced by an array of the same entries;
    [save] replaces the mask of [self.opt] by the nested list of its entries,
    persists the descriptor as it then is and returns [True]; so after
    construction and any number of [save]s the entries of the mask, the node
    table, the node specs and every other entry are those supplied, the mask
    being held as a nested list from the first [save] on.  The three [pop]s
    of the node keys act on a deep copy: the spec object and every other
    object are left as they were. *)
Theorem save_keeps_descriptor_entries (kwargs : Params) :
  let m := mask_entries (p_binary_mask kwargs) in
  opt (__init__ kwargs) = set_binary_mask kwargs (ndarray m) /\
  (forall self,
     opt (fst (save self)) =
       set_binary_mask (opt self) (pylist (mask_entries (p_binary_mask (opt self)))) /\
     saved_opt (fst (save self)) = Some (opt (fst (save self))) /\
     snd (save self) = true) /\
  (forall n,
     let self := Nat.iter n (fun self => fst (save self)) (__init__ kwargs) in
     opt self = set_binary_mask kwargs (match n with O => ndarray m | S _ => pylist m end) /\
     mask_entries (p_binary_mask (opt self)) = m /\
     p_nodes (opt self) = p_nodes kwargs /\
     p_node_specs (opt self) = p_node_specs kwargs) /\
  (forall h spec, spec < List.length h ->
     match strip_node_keys_at h spec, strip_node_keys (nth spec h []) with
     | Ok (h', node_params), Ok d =>
         nth node_params h' [] = d /\ firstn (List.length h) h' = h
     | Raise e, Raise e' => e = e'
     | _, _ => False
     end).
Proof.
  intros m. split; [reflexivity|]. split; [apply save_opt|]. split.
  - assert (Hn : forall n,
              opt (Nat.iter n (fun self => fst (save self)) (__init__ kwargs)) =
              set_binary_mask kwargs (match n with O => ndarray m | S _ => pylist m end)).
    { induction n as [|n IH]; [reflexivity|].
      rewrite Nat.iter_succ, (proj1 (save_opt _)), IH.
      destruct n; reflexivity. }
    intros n self. subst self. rewrite Hn.
    destruct n; repeat split.
  - intros h spec _. apply strip_node_keys_at_copy.
Qed.

Lemma save_keeps_descriptor_entries_witness :
  let kwargs := example_params ["x"; "y"] diamond_mask four_nodes four_dense_specs in
  opt (Nat.iter 2 (fun self => fst (save self)) (__init__ kwargs)) = kwargs /\
  match strip_node_keys_at [dense_spec 4] 0 with
  | Ok (h', node_params) => h' = [dense_spec 4; [("units", PInt 4)]] /\ node_params = 1
  | _ => False
  end.
Proof.
  intros kwargs.
  destruct (save_keeps_descriptor_entries kwargs) as (_ & _ & Hn & Hcopy).
  split; [exact (proj1 (Hn 2))|].
  specialize (Hcopy [dense_spec 4] 0 ltac:(simpl; lia)).
  destruct (strip_node_keys_at [dense_spec 4] 0) as [[h' np]| |] eqn:E;
    vm_compute in E; inversion E; subst. split; reflexivity.
Defined.

(** C8, refuted as stated: after construction [opt["binary_mask"]] is an
    array, and [save] replaces it by a nested list. *)
Lemma save_replaces_binary_mask :
  let self := __init__ (example_params ["x"; "y"] diamond_mask four_nodes four_dense_specs) in
  p_binary_mask (opt self) = ndarray diamond_mask /\
  p_binary_mask (opt (fst (save self))) = pylist diamond_mask /\
  opt (fst (save self)) <> opt self.
Proof.
  intros self. split; [reflexivity|]. split; [reflexivity|].
  intros H. apply (f_equal p_binary_mask) in H. discriminate.
Qed.

(** ** Padding and truncation in [texts2vec] *)

Lemma slice_to_nonneg {A} (n : Z) (l : list A) :
  (0 <= n)%Z -> slice_to n l = firstn (Z.to_nat n) l.
Proof.
  intros H. unfold slice_to.
  replace (n <? 0)%Z with false by (symmetry; apply Z.ltb_ge; lia). reflexivity.
Qed.

Lemma map_result_slices text_size sentences :
  (0 <= text_size)%Z ->
  map_result (py_slice_to text_size) (token_batch sentences) =
  Ok (token_batch (map (firstn (Z.to_nat text_size)) sentences)).
Proof.
  intros H. unfold token_batch. induction sentences as [|sen sentences IH]; simpl.
  - reflexivity.
  - rewrite IH. simpl. rewrite slice_to_nonneg by assumption.
    now rewrite firstn_map.
Qed.

(** C10: for a non-negative text size and embedding size and an embedder
    that returns one vector per token, [texts2vec] on a batch of token lists
    returns one row per sentence; each row is the embedding of the first
    [text_size] tokens of the sentence, preceded by as many zero vectors of
    [embedding_size] as are missing, and so holds exactly [text_size]
    vectors.  The text size is the entry of stream [i] when configured as a
    list. *)
Theorem texts2vec_pads_left {F} (zero : F) fasttext_model opt
    (sentences : list (list string)) (i : nat) (text_size : Z) vectors :
  text_size_of opt i text_size ->
  (0 <= text_size)%Z ->
  (0 <= p_embedding_size opt)%Z ->
  let n := Z.to_nat text_size in
  let pad := repeat zero (Z.to_nat (p_embedding_size opt)) in
  let truncated := token_batch (map (firstn n) sentences) in
  fasttext_model truncated = Returns vectors ->
  map (@List.length _) vectors = map py_len truncated ->
  exists rows,
    texts2vec F zero fasttext_model opt (token_batch sentences) i = Ok rows /\
    rows = map (fun tokens => repeat pad (n - List.length tokens) ++ tokens) vectors /\
    List.length rows = List.length sentences /\
    Forall (fun row => List.length row = n) rows.
Proof.
  intros Hts Hn Hemb n pad truncated Hfm Hlens.
  assert (Hrun : texts2vec F zero fasttext_model opt (token_batch sentences) i =
                 Ok (map (fun tokens => repeat pad (n - List.length tokens) ++ tokens)
                         vectors)).
  { unfold texts2vec, np_zeros.
    replace (p_embedding_size opt <? 0)%Z with false by (symmetry; apply Z.ltb_ge; lia).
    cbn [rbind]. unfold text_size_of in Hts.
    assert (Hsz : match p_text_size opt with
                  | TextSizeList l =>
                      match nth_error l i with
                      | Some ts => Ok ts
                      | None => Raise (IndexError "list index out of range")
                      end
                  | TextSizeInt ts => Ok ts
                  end = Ok text_size).
    { destruct (p_text_size opt); [now subst | now rewrite Hts]. }
    rewrite Hsz. cbn [rbind]. rewrite map_result_slices by assumption. cbn [rbind].
    fold n. fold truncated. rewrite Hfm. cbn [run rbind].
    f_equal. apply map_ext. intros tokens. f_equal. f_equal. subst n. lia. }
  exists (map (fun tokens => repeat pad (n - List.length tokens) ++ tokens) vectors).
  split; [exact Hrun|]. split; [reflexivity|].
  split.
  - rewrite length_map. apply (f_equal (@List.length _)) in Hlens.
    rewrite !length_map in Hlens. rewrite Hlens. unfold truncated, token_batch.
    now rewrite !length_map.
  - apply Forall_forall. intros row Hrow. apply in_map_iff in Hrow.
    destruct Hrow as (tokens & <- & Hin).
    assert (Hle : List.length tokens <= n).
    { assert (Hl : In (List.length tokens) (map (@List.length _) vectors))
        by (apply in_map; assumption).
      rewrite Hlens in Hl. unfold truncated, token_batch in Hl.
      rewrite !map_map in Hl. apply in_map_iff in Hl. destruct Hl as (sen & Hl & _).
      cbn [py_len] in Hl. rewrite length_map in Hl. rewrite <- Hl.
      apply firstn_le_length. }
    rewrite length_app, repeat_length. lia.
Qed.

Lemma texts2vec_pads_left_witness :
  texts2vec Z 0%Z example_embedder
    (example_params ["x"; "y"] diamond_mask four_nodes four_dense_specs)
    (token_batch [["a"; "b"; "c"; "d"; "e"; "f"]; ["g"]]) 1
  = Ok [repeat [1; 1; 1]%Z 5; repeat [0; 0; 0]%Z 4 ++ [[1; 1; 1]%Z]].
Proof.
  destruct (texts2vec_pads_left 0%Z example_embedder
              (example_params ["x"; "y"] diamond_mask four_nodes four_dense_specs)
              [["a"; "b"; "c"; "d"; "e"; "f"]; ["g"]] 1 5
              [repeat [1; 1; 1]%Z 5; [[1; 1; 1]%Z]])
    as (rows & Hrun & Hrows & _).
  - reflexivity.
  - lia.
  - simpl. lia.
  - reflexivity.
  - reflexivity.
  - rewrite Hrun, Hrows. reflexivity.
Defined.

(** ** The arity check of [infer_on_batch] *)

Lemma map_result_Raise {A B} (f : A -> result B) xs e :
  map_result f xs = Raise e -> exists x, In x xs /\ f x = Raise e.
Proof.
  induction xs as [|x xs IH]; simpl; [discriminate|].
  destruct (f x) as [y| e' |] eqn:E; cbn [rbind].
  - destruct (map_result f xs) as [ys| e'' |]; cbn [rbind]; try discriminate.
    intros H. inversion H; subst. destruct (IH eq_refl) as (z & Hz & Hf). eauto.
  - intros H. inversion H; subst. eauto.
  - discriminate.
Qed.

Lemma py_slice_to_no_ValueError n v msg : py_slice_to n v <> Raise (ValueError msg).
Proof. destruct v; discriminate. Qed.

Lemma py_index_no_ValueError v i msg : py_index v i <> Raise (ValueError msg).
Proof.
  destruct v as [| | | | s0 | l | l]; simpl; try discriminate.
  - destruct (String.get i s0); discriminate.
  - destruct (nth_error l i); discriminate.
  - destruct (nth_error l i); discriminate.
Qed.

Lemma run_Raise {A} (o : outcome A) e : run o = Raise e -> o = Raises e.
Proof. destruct o; simpl; intros H; inversion H; reflexivity. Qed.

Lemma run_not_Running {A} (o : outcome A) : run o <> Running.
Proof. destruct o; discriminate. Qed.

Section InferOnBatch.
Variable F : Type.
Variable zero : F.
Variable fasttext_model : list pyval -> outcome (list (list (list F))).
Variable tokenizer : list pyval -> outcome (list pyval).
Variable OneHot : Type.
Variable labels2onehot : pyval -> outcome OneHot.
Variable Values : Type.
Variable keras_model : model_call (list (list (list F))) OneHot -> outcome Values.

Let features_of := batch_features F zero fasttext_model tokenizer.
Let infer :=
  infer_on_batch F zero fasttext_model tokenizer OneHot labels2onehot Values keras_model.

(** A [ValueError] out of [texts2vec] is the one of [np.zeros] or one of the
    embedder. *)
Lemma texts2vec_ValueError opt sentences i msg :
  texts2vec F zero fasttext_model opt sentences i = Raise (ValueError msg) ->
  (p_embedding_size opt < 0)%Z \/
  exists batch, fasttext_model batch = Raises (ValueError msg).
Proof.
  unfold texts2vec, np_zeros.
  destruct (p_embedding_size opt <? 0)%Z eqn:Hemb; [left; now apply Z.ltb_lt|].
  cbn [rbind]. intros H. right.
  assert (Hgo : forall ts,
            rbind (map_result (py_slice_to ts) sentences) (fun sliced =>
            rbind (run (fasttext_model sliced)) (fun embeddings_batch =>
            Ok (map (fun tokens =>
                  repeat (repeat zero (Z.to_nat (p_embedding_size opt)))
                         (Z.to_nat (ts - Z.of_nat (List.length tokens))) ++ tokens)
                embeddings_batch))) = Raise (ValueError msg) ->
            exists batch, fasttext_model batch = Raises (ValueError msg)).
  { intros ts Hr.
    destruct (map_result (py_slice_to ts) sentences) as [sliced|e|] eqn:E;
      cbn [rbind] in Hr; try discriminate.
    - destruct (run (fasttext_model sliced)) as [emb|e|] eqn:Er; cbn [rbind] in Hr;
        try discriminate.
      inversion Hr; subst e. apply run_Raise in Er. eauto.
    - inversion Hr; subst e. apply map_result_Raise in E.
      destruct E as (x & _ & Hx). now apply py_slice_to_no_ValueError in Hx. }
  destruct (p_text_size opt) as [ts|l]; cbn [rbind] in H.
  - now apply (Hgo ts).
  - destruct (nth_error l i) as [ts|]; cbn [rbind] in H; [|discriminate].
    now apply (Hgo ts).
Qed.

(** A [ValueError] out of the construction of the features is the one of
    [np.zeros], one of the embedder or one of the tokenizer. *)
Lemma batch_features_ValueError opt texts msg :
  features_of opt texts = Raise (ValueError msg) ->
  (p_embedding_size opt < 0)%Z \/
  (exists batch, fasttext_model batch = Raises (ValueError msg)) \/
  (exists batch, tokenizer batch = Raises (ValueError msg)).
Proof.
  intros H. unfold features_of, batch_features in H. apply map_result_Raise in H.
  destruct H as (i & _ & H).
  destruct (py_index texts i) as [ti| e |] eqn:E1; cbn [rbind] in H; try discriminate.
  2:{ inversion H; subst e. now apply py_index_no_ValueError in E1. }
  destruct (py_index ti 0) as [first| e |] eqn:E2; cbn [rbind] in H; try discriminate.
  2:{ inversion H; subst e. now apply py_index_no_ValueError in E2. }
  destruct (py_list ti) as [l| e |] eqn:E3; cbn [rbind] in H; try discriminate.
  2:{ inversion H; subst e. destruct ti; discriminate. }
  destruct (is_str first).
  - destruct (run (tokenizer l)) as [tokens|e|] eqn:Et; cbn [rbind] in H;
      try discriminate.
    + apply texts2vec_ValueError in H. tauto.
    + inversion H; subst e. apply run_Raise in Et. eauto.
  - apply texts2vec_ValueError in H. tauto.
Qed.

(** C9 (as the code has it): without positional arguments [infer_on_batch]
    raises its [ValueError].  With more than one argument the last one is
    taken as the labels and the others as the streams, and once the features
    of the streams are built, truthy labels are encoded and handed with the
    features to the model's [test_on_batch], whose result is returned, and
    other labels make the result the one of the model's [predict].  With
    exactly one argument that argument is the streams and the result is the
    one of [predict].  With at least one argument a [ValueError] is never the
    function's own: it is the one [np.zeros] raises for a negative embedding
    size, or one that the embedder, the tokenizer, the label encoder or the
    model raised. *)
Theorem infer_on_batch_arity opt args :
  (args = [] -> infer opt args = Raise (ValueError "Nothing to infer in infer_on_batch")) /\
  (1 < List.length args ->
   infer opt args =
   rbind (features_of opt (PTuple (removelast args))) (fun features =>
     if truthy (last args PNone)
     then rbind (run (labels2onehot (last args PNone))) (fun onehot_labels =>
          run (keras_model (model_test_on_batch features onehot_labels)))
     else run (keras_model (model_predict features)))) /\
  (forall a, args = [a] ->
   infer opt args =
   rbind (features_of opt a) (fun features =>
     run (keras_model (model_predict features)))) /\
  (forall msg, args <> [] -> infer opt args = Raise (ValueError msg) ->
   (p_embedding_size opt < 0)%Z \/
   (exists batch, fasttext_model batch = Raises (ValueError msg)) \/
   (exists batch, tokenizer batch = Raises (ValueError msg)) \/
   (exists labels, labels2onehot labels = Raises (ValueError msg)) \/
   (exists c, keras_model c = Raises (ValueError msg))).
Proof.
  assert (Hmany : 1 < List.length args ->
    infer opt args =
    rbind (features_of opt (PTuple (removelast args))) (fun features =>
      if truthy (last args PNone)
      then rbind (run (labels2onehot (last args PNone))) (fun onehot_labels =>
           run (keras_model (model_test_on_batch features onehot_labels)))
      else run (keras_model (model_predict features)))).
  { intros Hl. destruct args as [|a [|a' args']]; simpl in Hl; try lia.
    unfold infer, infer_on_batch.
    change (Nat.ltb 1 (List.length (a :: a' :: args'))) with true.
    reflexivity. }
  assert (Hone : forall a, args = [a] ->
    infer opt args =
    rbind (features_of opt a) (fun features =>
      run (keras_model (model_predict features)))).
  { intros a ->. reflexivity. }
  split; [now intros ->|]. split; [exact Hmany|]. split; [exact Hone|].
  intros msg Hne H.
  assert (Htail : forall texts labels,
            rbind (features_of opt texts) (fun features =>
              if truthy labels
              then rbind (run (labels2onehot labels)) (fun onehot_labels =>
                   run (keras_model (model_test_on_batch features onehot_labels)))
              else run (keras_model (model_predict features))) = Raise (ValueError msg) ->
            (p_embedding_size opt < 0)%Z \/
            (exists batch, fasttext_model batch = Raises (ValueError msg)) \/
            (exists batch, tokenizer batch = Raises (ValueError msg)) \/
            (exists labels, labels2onehot labels = Raises (ValueError msg)) \/
            (exists c, keras_model c = Raises (ValueError msg))).
  { intros texts labels Hr.
    destruct (features_of opt texts) as [features|e|] eqn:Ef; cbn [rbind] in Hr;
      try discriminate.
    - destruct (truthy labels).
      + destruct (run (labels2onehot labels)) as [onehot|e|] eqn:El; cbn [rbind] in Hr;
          try discriminate.
        * apply run_Raise in Hr. right. right. right. right. eauto.
        * inversion Hr; subst e. apply run_Raise in El. right. right. right. left. eauto.
      + apply run_Raise in Hr. right. right. right. right. eauto.
    - inversion Hr; subst e. apply batch_features_ValueError in Ef. tauto. }
  destruct args as [|a [|a' args']]; [congruence| |].
  - rewrite (Hone a eq_refl) in H. apply (Htail a PNone). exact H.
  - rewrite Hmany in H by (simpl; lia). eapply Htail. exact H.
Qed.

End InferOnBatch.

Lemma infer_on_batch_arity_witness :
  let opt := example_params ["x"] diamond_mask four_nodes four_dense_specs in
  infer_on_batch Z 0%Z example_embedder example_tokenizer _ example_labels2onehot
    _ example_model opt [example_stream; example_labels] = Ok [[0%Z]].
Proof.
  intros opt0.
  destruct (infer_on_batch_arity Z 0%Z example_embedder example_tokenizer
              _ example_labels2onehot _ example_model opt0
              [example_stream; example_labels]) as (_ & Hmany & _).
  rewrite Hmany by (simpl; lia). reflexivity.
Defined.

(** C9, refuted as stated: a model with two input streams called with two
    positional arguments takes the second stream for the labels and then
    fails with an [IndexError] on the missing stream instead of returning
    batch metrics; with an empty list as last argument the result is the one
    of [predict], not batch metrics; and with one argument and a negative
    embedding size a [ValueError] is raised, by [np.zeros]. *)
Lemma infer_on_batch_as_many_arguments_as_streams :
  let opt2 := example_params ["x"; "y"] diamond_mask four_nodes four_dense_specs in
  let opt1 := example_params ["x"] diamond_mask four_nodes four_dense_specs in
  let negative := mkParams ["x"] (TextSizeInt 5) (-1) (pylist diamond_mask) four_nodes
                    four_dense_specs 3 "0.5" None in
  let infer := infer_on_batch Z 0%Z example_embedder example_tokenizer
                 _ example_labels2onehot _ example_model in
  infer opt2 [example_stream; example_stream] = Raise (IndexError "index out of range") /\
  infer opt1 [example_stream; PList []] =
    run (example_model (model_predict [[repeat [0; 0; 0] 3 ++ repeat [1; 1; 1] 2;
                                         repeat [0; 0; 0] 4 ++ repeat [1; 1; 1] 1]]))%Z /\
  infer negative [PList [example_stream]] =
    Raise (ValueError "negative dimensions are not allowed").
Proof.
  intros opt2 opt1 negative infer. split; [reflexivity|]. split; reflexivity.
Qed.

(** ** The scheduling loop on adjacency masks *)

Lemma schedule_loop_Some_layers dg sinks sources fuel : forall j seq,
  schedule_loop fuel dg sinks (layers dg sources j) = Some seq ->
  exists k, seq = layers dg sources k /\ j <= k /\ k < j + fuel.
Proof.
  induction fuel as [|fuel IH]; intros j seq; simpl; [discriminate|].
  destruct (issubset sinks (flatten (layers dg sources j))) eqn:E.
  - intros H. inversion H. exists j. split; [reflexivity | lia].
  - intros H. destruct (IH (S j) seq H) as (k & -> & Hk1 & Hk2).
    exists k. split; [reflexivity | lia].
Qed.

(** C1 (as the code has it): the scheduling loop has no stall detection and
    raises nothing; its only exit is the [break] taken once the scheduled
    layers contain every sink, with the layers built so far, and whenever the
    layering from the sources covers the sinks after some number of passes the
    loop leaves at the first such pass. *)
Theorem schedule_loop_exits_by_break {V} (nodes : dict V) (mask : Mask) :
  let dg := get_digraph_from_binary_mask nodes mask in
  let sources := sources_of dg in
  let sinks := sinks_of dg in
  (forall fuel seq,
     schedule_loop fuel dg sinks [sources] = Some seq ->
     issubset sinks (flatten seq) = true /\
     exists k, seq = layers dg sources k /\ k < fuel) /\
  (forall n,
     issubset sinks (flatten (layers dg sources n)) = true ->
     exists k, k <= n /\
       forall fuel, k < fuel ->
         schedule_loop fuel dg sinks [sources] = Some (layers dg sources k)).
Proof.
  intros dg sources sinks. split.
  - intros fuel seq H. split; [eapply schedule_loop_exit; eassumption|].
    destruct (schedule_loop_Some_layers dg sinks sources fuel 0 seq H)
      as (k & Hk & _ & Hlt).
    exists k. split; [assumption | lia].
  - intros n Hn.
    destruct (first_covered_or dg sinks sources n) as [(k & Hk & Hc & Hl) | Hall].
    + exists k. split; [assumption|]. intros fuel Hf.
      apply (schedule_loop_layers dg sinks sources k 0 fuel); auto.
      intros i Hi. apply Hl. lia.
    + rewrite Hall in Hn; [discriminate | lia].
Qed.

Lemma schedule_loop_exits_by_break_witness :
  let dg := get_digraph_from_binary_mask four_nodes diamond_mask in
  schedule_loop 3 dg (sinks_of dg) [sources_of dg] =
  Some [["0"]; ["1"; "2"]; ["3"; "3"]].
Proof.
  intros dg.
  destruct (schedule_loop_exits_by_break four_nodes diamond_mask) as [_ H].
  destruct (H 2 eq_refl) as (k & Hk & Hfuel).
  destruct k as [|[|[|k]]]; try lia.
  - specialize (Hfuel 3 ltac:(lia)). vm_compute in Hfuel. discriminate.
  - specialize (Hfuel 3 ltac:(lia)). vm_compute in Hfuel. discriminate.
  - exact (Hfuel 3 ltac:(lia)).
Defined.

(** C1, refuted as stated: on the mask 0 -> 1 -> 2 -> 1, 2 -> 3 the layering
    stalls after the source layer, and for every number of iterations allowed
    the loop is still running and the construction has neither returned a
    model nor raised any error. *)
Lemma stalled_mask_never_fails :
  let params := example_params ["x"; "y"] stall_mask four_nodes four_dense_specs in
  let dg := get_digraph_from_binary_mask four_nodes stall_mask in
  next_nodes dg [sources_of dg] = [] /\
  issubset (sinks_of dg) (flatten [sources_of dg]) = false /\
  (forall fuel, schedule_loop fuel dg (sinks_of dg) [sources_of dg] = None) /\
  (forall fuel,
     fst (evolution_many_inputs_classification_model catalog_shape catalog_init fuel 2 params world0)
     = Running).
Proof.
  intros params dg.
  assert (Hn : next_nodes dg [sources_of dg] = []) by (vm_compute; reflexivity).
  assert (Hc : issubset (sinks_of dg) (flatten [sources_of dg]) = false)
    by (vm_compute; reflexivity).
  assert (Hs : forall fuel, schedule_loop fuel dg (sinks_of dg) [sources_of dg] = None)
    by (apply schedule_loop_stall; assumption).
  repeat split; try assumption.
  intros fuel.
  unfold evolution_many_inputs_classification_model.
  erewrite bind_Ok; [|lazy; reflexivity].
  change (Z.eqb (np_sum (mask_entries (p_binary_mask params))) 0) with false.
  cbv iota.
  erewrite bind_Ok; [|lazy; reflexivity].
  apply bind_Running. cbn [for_each].
  apply bind_Running. apply bind_Running.
  apply build_stream_running. exact (Hs fuel).
Qed.

(** ** Topological order on acyclic masks *)

Lemma filter_split {A} (f : A -> bool) m : forall k1 v k2,
  filter f m = k1 ++ v :: k2 ->
  exists m1 m2, m = m1 ++ v :: m2 /\ filter f m1 = k1.
Proof.
  induction m as [|a m IH]; intros k1 v k2 H; simpl in H.
  - destruct k1; discriminate.
  - destruct (f a) eqn:Ea.
    + destruct k1 as [|b k1]; simpl in H.
      * inversion H; subst. exists [], m. split; reflexivity.
      * inversion H; subst b.
        destruct (IH _ _ _ H2) as (m1 & m2 & -> & <-).
        exists (a :: m1), m2. simpl. rewrite Ea. split; reflexivity.
    + destruct (IH _ _ _ H) as (m1 & m2 & -> & <-).
      exists (a :: m1), m2. simpl. rewrite Ea. split; reflexivity.
Qed.

Lemma first_occurrences_In l x : In x (first_occurrences l) <-> In x l.
Proof.
  induction l as [|v l IH]; simpl; [tauto|].
  rewrite filter_In, IH, negb_true_iff, String.eqb_neq.
  destruct (string_dec v x) as [->|Hne]; [tauto|].
  split; [tauto|]. intros [H|H]; [contradiction|]. right. split; [assumption | congruence].
Qed.

Lemma NoDup_filter_string (f : string -> bool) l : NoDup l -> NoDup (filter f l).
Proof.
  induction 1 as [|x l Hx _ IH]; simpl; [constructor|].
  destruct (f x); [|assumption].
  constructor; [|assumption]. rewrite filter_In. tauto.
Qed.

Lemma first_occurrences_NoDup l : NoDup (first_occurrences l).
Proof.
  induction l as [|v l IH]; simpl; constructor.
  - rewrite filter_In, negb_true_iff, String.eqb_neq. tauto.
  - now apply NoDup_filter_string.
Qed.

(** What stands before a node among the first occurrences holds everything
    that stands before some occurrence of the node. *)
Lemma first_occurrences_split l : forall k1 v k2,
  first_occurrences l = k1 ++ v :: k2 ->
  exists l1 l2, l = l1 ++ v :: l2 /\ forall x, In x l1 -> In x k1.
Proof.
  induction l as [|a l IH]; intros k1 v k2 H; simpl in H.
  - destruct k1; discriminate.
  - destruct k1 as [|b k1]; simpl in H.
    + inversion H; subst. exists [], l. split; [reflexivity | intros x []].
    + inversion H; subst b. apply filter_split in H2.
      destruct H2 as (m1 & m2 & Hm & <-).
      destruct (IH _ _ _ Hm) as (l1 & l2 & -> & Hl1).
      exists (a :: l1), l2. split; [reflexivity|].
      intros x [->|Hx]; [now left|].
      destruct (string_dec x a) as [->|Hne]; [now left|]. right.
      apply filter_In. split; [auto|].
      now apply negb_true_iff, String.eqb_neq.
Qed.

Lemma predecessors_first_first_occurrences dg l :
  predecessors_first dg l -> topological dg (first_occurrences l).
Proof.
  intros H. split; [apply first_occurrences_NoDup|].
  intros k1 v k2 E u Hu.
  destruct (first_occurrences_split _ _ _ _ E) as (l1 & l2 & El & Hl1).
  apply Hl1. eapply H; eassumption.
Qed.

(** C3 (as the code has it): for a mask whose graph has no cycle the loop
    leaves, after at most as many passes as there are nodes, with a layered
    sequence whose first layer is the source list and whose flattening puts
    every occurrence of a node after all its predecessors; every node that
    has an edge occurs in it.  The flattening may list a node several times;
    with each node kept at its first occurrence it is a topological order. *)
Theorem schedule_topological_order {V} (nodes : dict V) (mask : Mask) :
  let dg := get_digraph_from_binary_mask nodes mask in
  ~ cyclic dg ->
  exists seq,
    (exists k, k <= List.length (keys nodes) /\
       forall fuel, k < fuel ->
         schedule_loop fuel dg (sinks_of dg) [sources_of dg] = Some seq) /\
    hd [] seq = sources_of dg /\
    predecessors_first dg (flatten seq) /\
    (forall v, In v (dg_nodes dg) -> ~ In v (isolates_of dg) -> In v (flatten seq)) /\
    topological dg (first_occurrences (flatten seq)).
Proof.
  intros dg Hacyclic.
  pose proof (get_digraph_edges_closed nodes mask) as Hc. fold dg in Hc.
  assert (Hdag : is_dag dg = true) by (apply is_dag_acyclic; assumption).
  destruct (schedule_loop_dag dg Hc Hdag) as (k & Hk & Hcov & Hrun).
  exists (layers dg (sources_of dg) k). split; [|split; [|split; [|split]]].
  - exists k. split; [exact Hk | exact Hrun].
  - apply layers_hd.
  - now apply layers_predecessors_first.
  - intros v Hin Hiso. now apply covered_all.
  - apply predecessors_first_first_occurrences. now apply layers_predecessors_first.
Qed.

Lemma schedule_topological_order_witness :
  let dg := get_digraph_from_binary_mask four_nodes diamond_mask in
  exists seq,
    (exists k, k <= 4 /\
       forall fuel, k < fuel ->
         schedule_loop fuel dg (sinks_of dg) [sources_of dg] = Some seq) /\
    hd [] seq = sources_of dg /\
    predecessors_first dg (flatten seq) /\
    (forall v, In v (dg_nodes dg) -> ~ In v (isolates_of dg) -> In v (flatten seq)) /\
    topological dg (first_occurrences (flatten seq)).
Proof.
  apply (schedule_topological_order four_nodes diamond_mask).
  apply is_dag_acyclic; [apply get_digraph_edges_closed | vm_compute; reflexivity].
Defined.

(** C3, refuted as stated: on the acyclic mask 0 -> 1, 0 -> 2, 1 -> 3, 2 -> 3
    the loop appends node 3 once for each of its parents in the last layer,
    so the flattened sequence lists it twice and is no topological order. *)
Lemma diamond_schedule_lists_node_twice :
  let dg := get_digraph_from_binary_mask four_nodes diamond_mask in
  is_dag dg = true /\
  (forall fuel, 2 < fuel ->
     schedule_loop fuel dg (sinks_of dg) [sources_of dg] =
     Some [["0"]; ["1"; "2"]; ["3"; "3"]]) /\
  flatten [["0"]; ["1"; "2"]; ["3"; "3"]] = ["0"; "1"; "2"; "3"; "3"] /\
  ~ topological dg ["0"; "1"; "2"; "3"; "3"].
Proof.
  intros dg. split; [vm_compute; reflexivity|]. split; [|split; [reflexivity|]].
  - intros fuel Hf. destruct fuel as [|[|[|fuel]]]; try lia. reflexivity.
  - intros [Hnd _].
    apply (NoDup_remove_2 ["0"; "1"; "2"] ["3"] "3") in Hnd.
    apply Hnd. apply in_or_app. right. now left.
Qed.

(** ** Generic inversions of the build loops *)

Lemma for_each_append_inv {A B} (g : A -> M B) xs : forall acc w r w',
  for_each xs (fun acc x => y <- g x ;; ret (acc ++ [y])) acc w = (Ok r, w') ->
  exists ys, r = acc ++ ys /\
    Forall2 (fun x y => exists w1 w2, g x w1 = (Ok y, w2)) xs ys.
Proof.
  induction xs as [|x xs IH]; intros acc w r w' H; simpl in H.
  - unfold ret in H. inversion H; subst. exists []. rewrite app_nil_r.
    split; [reflexivity | constructor].
  - apply bind_inv in H. destruct H as (acc1 & w1 & Hb & H).
    apply bind_inv in Hb. destruct Hb as (y & w2 & Hy & Hb).
    unfold ret in Hb. inversion Hb; subst acc1 w2. clear Hb.
    destruct (IH _ _ _ _ H) as (ys & -> & HF).
    exists (y :: ys). rewrite <- app_assoc. split; [reflexivity|].
    constructor; [eauto | assumption].
Qed.

Lemma map_M_inv {A B} (f : A -> M B) xs : forall w ys w',
  map_M f xs w = (Ok ys, w') ->
  Forall2 (fun x y => exists w1 w2, f x w1 = (Ok y, w2)) xs ys.
Proof.
  induction xs as [|x xs IH]; intros w ys w' H; simpl in H.
  - unfold ret in H. inversion H. constructor.
  - apply bind_inv in H. destruct H as (y & w1 & Hy & H).
    apply bind_inv in H. destruct H as (ys' & w2 & Hys & H).
    unfold ret in H. inversion H; subst. constructor; [eauto | eapply IH; eassumption].
Qed.

(** ** Scheduled nodes *)

Lemma layers_source_or_child dg k : forall v,
  In v (flatten (layers dg (sources_of dg) k)) ->
  In v (sources_of dg) \/ in_degree dg v <> 0.
Proof.
  induction k as [|k IH]; intros v H.
  - left. unfold flatten in H. simpl in H. now rewrite app_nil_r in H.
  - rewrite flatten_layers_S in H. apply in_app_or in H. destruct H as [H|H]; [auto|].
    right. apply next_nodes_In in H. destruct H as (p & _ & He & _).
    eapply in_degree_pos; eassumption.
Qed.

(** X1: whatever the graph, a node in the sequence the scheduling loop leaves
    with is a source or has an incoming edge, so it is never an isolate: the
    branch of the materialization loop for isolates is never taken. *)
Theorem scheduled_nodes_are_not_isolates dg fuel seq :
  schedule_loop fuel dg (sinks_of dg) [sources_of dg] = Some seq ->
  forall v, In v (flatten seq) ->
    (mem v (sources_of dg) = true \/ in_degree dg v <> 0) /\
    mem v (isolates_of dg) = false.
Proof.
  intros H v Hv.
  destruct (schedule_loop_Some_layers dg (sinks_of dg) (sources_of dg) fuel 0 seq H)
    as (k & -> & _).
  apply layers_source_or_child in Hv. split.
  - destruct Hv as [Hs|Hd]; [left; now apply mem_In | now right].
  - apply mem_false. intros Hi. apply isolates_spec in Hi. destruct Hi as (_ & Hin & Hout).
    destruct Hv as [Hs|Hd]; [|contradiction].
    apply sources_spec in Hs. tauto.
Qed.

Lemma scheduled_nodes_are_not_isolates_witness :
  let dg := get_digraph_from_binary_mask three_nodes isolate_mask in
  isolates_of dg = ["2"] /\
  (mem "1" (sources_of dg) = true \/ in_degree dg "1" <> 0) /\
  mem "1" (isolates_of dg) = false.
Proof.
  intros dg. split; [reflexivity|].
  apply (scheduled_nodes_are_not_isolates dg 2 [["0"]; ["1"]]).
  - reflexivity.
  - simpl. auto.
Defined.

(** ** Graphs without a sink *)

Lemma sinks_output_no_sink node_shape edges_outputs w :
  exists w',
    sinks_output node_shape [] edges_outputs w =
    (Raise (ValueError "A `Concatenate` layer should be called on a list of at least 2 inputs"), w').
Proof. eexists. reflexivity. Qed.

Lemma build_stream_no_sink node_shape fuel params model_layers inp w t w' :
  sinks_of (graph_of params) = [] ->
  build_stream node_shape fuel params model_layers inp w <> (Ok t, w').
Proof.
  intros Hs H. unfold build_stream in H.
  apply bind_inv in H. destruct H as ([] & w1 & _ & H).
  apply bind_inv in H. destruct H as ([] & w2 & _ & H).
  fold (graph_of params) in H. rewrite Hs in H.
  destruct (schedule_loop _ _ _ _); [|discriminate].
  apply bind_inv in H. destruct H as (eo & w3 & _ & H).
  apply bind_inv in H. destruct H as (out & w4 & Hout & _).
  destruct (sinks_output_no_sink node_shape eo w3) as (w5 & E). congruence.
Qed.

(** X2: a mask with edges whose graph has no sink never yields a model.  The
    scheduling loop leaves at once, the list of sink outputs is empty, and
    both [Concatenate] calls on it raise [ValueError]. *)
Theorem no_sink_no_model node_shape node_init fuel n_classes params w :
  np_sum (mask_entries (p_binary_mask params)) <> 0%Z ->
  sinks_of (graph_of params) = [] ->
  (forall edges_outputs w0, exists msg w',
     sinks_output node_shape (sinks_of (graph_of params)) edges_outputs w0 =
     (Raise (ValueError msg), w')) /\
  forall model,
    fst (evolution_many_inputs_classification_model node_shape node_init fuel n_classes params w)
    <> Ok model.
Proof.
  intros Hsum Hs. split.
  - intros eo w0. rewrite Hs.
    destruct (sinks_output_no_sink node_shape eo w0) as (w' & E). eauto.
  - intros model H.
    destruct (evolution_many_inputs_classification_model _ _ _ _ _ _) as [r w'] eqn:E.
    simpl in H. subst r. unfold evolution_many_inputs_classification_model in E.
    apply bind_inv in E. destruct E as (inputs & w1 & _ & E).
    apply Z.eqb_neq in Hsum. rewrite Hsum in E.
    apply bind_inv in E. destruct E as (ml & w2 & _ & E).
    apply bind_inv in E. destruct E as (fo & w3 & Hloop & E).
    apply cross_stream_head_two in E.
    apply for_each_append_inv in Hloop. destruct Hloop as (ys & -> & HF).
    destruct HF as [|inp y inputs' ys' (wa & wb & Hy) _]; [simpl in E; lia|].
    eapply build_stream_no_sink; eassumption.
Qed.

Lemma no_sink_no_model_witness :
  match fst (evolution_many_inputs_classification_model catalog_shape catalog_init 5 2
               (example_params ["x"; "y"] cycle_mask cycle_nodes cycle_specs) world0) with
  | Ok _ => False
  | _ => True
  end.
Proof.
  destruct (fst _) as [model| |] eqn:E; [|exact I|exact I].
  apply (proj2 (no_sink_no_model catalog_shape catalog_init 5 2
                  (example_params ["x"; "y"] cycle_mask cycle_nodes cycle_specs) world0
                  ltac:(discriminate) eq_refl) model).
  exact E.
Defined.

(** ** Fewer than two streams *)

Lemma make_inputs_length params w inputs w' :
  make_inputs params w = (Ok inputs, w') ->
  List.length inputs = List.length (p_in params).
Proof.
  unfold make_inputs. intros H.
  destruct (p_text_size params); apply map_M_inv, Forall2_length in H;
    now rewrite length_seq in H.
Qed.

(** X3: with fewer than two input streams no model is ever returned: the
    cross-stream reduction applies [Add] to the list of stream vectors, and
    the merge layers reject a list of fewer than two tensors. *)
Theorem fewer_than_two_streams_never_build node_shape node_init fuel n_classes params w :
  List.length (p_in params) < 2 ->
  forall model,
    fst (evolution_many_inputs_classification_model node_shape node_init fuel n_classes params w)
    <> Ok model.
Proof.
  intros Hlen model H.
  destruct (evolution_many_inputs_classification_model _ _ _ _ _ _) as [r w'] eqn:E.
  simpl in H. subst r. unfold evolution_many_inputs_classification_model in E.
  apply bind_inv in E. destruct E as (inputs & w1 & Hin & E).
  apply make_inputs_length in Hin.
  destruct (Z.eqb _ 0).
  - apply bind_inv in E. destruct E as (fo & w2 & Hdeg & E).
    apply cross_stream_head_two in E.
    apply degenerate_streams_inv in Hdeg. destruct Hdeg as (d & g & _ & _ & HF).
    apply Forall2_length in HF. lia.
  - apply bind_inv in E. destruct E as (ml & w2 & _ & E).
    apply bind_inv in E. destruct E as (fo & w3 & Hloop & E).
    apply cross_stream_head_two in E.
    apply for_each_append_inv in Hloop. destruct Hloop as (ys & -> & HF).
    apply Forall2_length in HF. simpl in E. lia.
Qed.

Lemma fewer_than_two_streams_never_build_witness :
  match fst (evolution_many_inputs_classification_model catalog_shape catalog_init 5 2
               (example_params ["x"] diamond_mask four_nodes four_dense_specs) world0) with
  | Ok _ => False
  | _ => True
  end.
Proof.
  destruct (fst _) as [model| |] eqn:E; [|exact I|exact I].
  apply (fewer_than_two_streams_never_build catalog_shape catalog_init 5 2
           (example_params ["x"] diamond_mask four_nodes four_dense_specs) world0
           ltac:(simpl; lia) model).
  exact E.
Defined.

(** ** The interface of a returned model *)

Lemma Input_inv ts emb w t w' :
  Input ts emb w = (Ok t, w') ->
  (0 <= ts)%Z /\ (0 <= emb)%Z /\
  t = InputTensor (next_id w) [None; Some (Z.to_nat ts); Some (Z.to_nat emb)].
Proof.
  unfold Input. destruct (ts <? 0)%Z eqn:E1; [discriminate|].
  destruct (emb <? 0)%Z eqn:E2; [discriminate|]. cbn [orb].
  apply Z.ltb_ge in E1, E2. intros H. inversion H. auto.
Qed.

Lemma make_inputs_inv params w inputs w' :
  make_inputs params w = (Ok inputs, w') ->
  Forall2 (stream_placeholder params) (seq 0 (List.length (p_in params))) inputs.
Proof.
  unfold make_inputs, stream_placeholder, text_size_of. intros H.
  destruct (p_text_size params) as [ts|l]; apply map_M_inv in H;
    (eapply Forall2_impl; [|exact H]); cbv beta; intros i t (w1 & w2 & Hi).
  - apply Input_inv in Hi. destruct Hi as (H1 & H2 & ->). eauto 8.
  - destruct (nth_error l i) as [ts|]; [|discriminate].
    apply Input_inv in Hi. destruct Hi as (H1 & H2 & ->). eauto 8.
Qed.

Lemma keras_shape_Dense_inv units ins s :
  keras_shape (Dense units) ins = Ok s ->
  exists s0, ins = [s0] /\ s = removelast s0 ++ [Some units].
Proof.
  destruct ins as [|s0 [|s1 ins]]; cbn [keras_shape]; try discriminate.
  destruct (Nat.ltb _ 2); [discriminate|].
  destruct (last s0 None); [|discriminate].
  intros H. inversion H. eauto.
Qed.

Lemma keras_shape_Activation_inv name ins s :
  keras_shape (Activation name) ins = Ok s ->
  ins = [s] /\ In name known_activations.
Proof.
  destruct ins as [|s0 [|s1 ins]]; cbn [keras_shape]; try discriminate.
  destruct (existsb _ _) eqn:E; [|discriminate].
  intros H. inversion H; subst. split; [reflexivity|].
  apply existsb_exists in E. destruct E as (x & Hx & E).
  apply String.eqb_eq in E. now subst.
Qed.

(** The head of a returned model, with its shapes. *)
Lemma cross_stream_head_output node_shape n_classes params inputs full_outputs w model w' :
  cross_stream_head node_shape n_classes params inputs full_outputs w = (Ok model, w') ->
  model_inputs model = inputs /\
  In (default_activation params) known_activations /\
  exists a d x s,
    layer_cfg_of a = Activation (default_activation params) /\
    layer_cfg_of d = Dense n_classes /\
    s = removelast (int_shape x) ++ [Some n_classes] /\
    model_outputs model = LayerOutput a [LayerOutput d [x] s] s.
Proof.
  unfold cross_stream_head. intros H.
  apply bind_inv in H. destruct H as (add & w1 & _ & H).
  apply bind_inv in H. destruct H as (summ & w2 & _ & H).
  apply bind_inv in H. destruct H as (mul & w3 & _ & H).
  apply bind_inv in H. destruct H as (mult & w4 & _ & H).
  apply bind_inv in H. destruct H as (fo & w5 & _ & H).
  apply bind_inv in H. destruct H as (c & w6 & _ & H).
  apply bind_inv in H. destruct H as (out1 & w7 & _ & H).
  apply bind_inv in H. destruct H as (d & w8 & Hd & H).
  apply bind_inv in H. destruct H as (out2 & w9 & Hout2 & H).
  apply bind_inv in H. destruct H as (a & w10 & Ha & H).
  apply bind_inv in H. destruct H as (out3 & w11 & Hout3 & H).
  unfold ret in H. inversion H; subst model w'. clear H.
  apply new_layer_inv in Hd, Ha. apply call_inv in Hout2, Hout3.
  destruct Hout2 as (sd & Hsd & ->). destruct Hout3 as (sa & Hsa & ->).
  rewrite Hd in Hsd. rewrite Ha in Hsa. cbn [layer_output_shape map int_shape] in Hsd, Hsa.
  apply keras_shape_Dense_inv in Hsd. destruct Hsd as (s0 & E0 & ->).
  inversion E0; subst s0. clear E0.
  apply keras_shape_Activation_inv in Hsa. destruct Hsa as (E1 & Hact).
  inversion E1; subst sa. clear E1.
  cbn [model_inputs model_outputs]. split; [reflexivity|]. split; [assumption|].
  exists a, d, out1. eexists. repeat split; assumption.
Qed.

(** X4: the interface of every model the construction returns, on either
    branch: one placeholder per input stream, in stream order, of shape
    (None, text size of the stream, embedding size); the output is
    [Activation(last_layer_activation or "sigmoid")] applied to
    [Dense(n_classes)], so its last dimension is [n_classes]; and the
    activation name is one Keras knows. *)
Theorem returned_model_interface node_shape node_init fuel n_classes params w model w' :
  evolution_many_inputs_classification_model node_shape node_init fuel n_classes params w
    = (Ok model, w') ->
  Forall2 (stream_placeholder params) (seq 0 (List.length (p_in params)))
          (model_inputs model) /\
  (exists a d x s,
     layer_cfg_of a = Activation (default_activation params) /\
     layer_cfg_of d = Dense n_classes /\
     model_outputs model = LayerOutput a [LayerOutput d [x] s] s) /\
  last (int_shape (model_outputs model)) None = Some n_classes /\
  In (default_activation params) known_activations.
Proof.
  unfold evolution_many_inputs_classification_model. intros E.
  apply bind_inv in E. destruct E as (inputs & w1 & Hin & E).
  apply make_inputs_inv in Hin.
  assert (Hhead : exists fo w2,
            cross_stream_head node_shape n_classes params inputs fo w2 = (Ok model, w')).
  { destruct (Z.eqb _ 0).
    - apply bind_inv in E. destruct E as (fo & w2 & _ & E). eauto.
    - apply bind_inv in E. destruct E as (ml & w2 & _ & E).
      apply bind_inv in E. destruct E as (fo & w3 & _ & E). eauto. }
  destruct Hhead as (fo & w2 & Hhead).
  apply cross_stream_head_output in Hhead.
  destruct Hhead as (Hmi & Hact & a & d & x & s & Ha & Hd & Hs & Hout).
  rewrite Hmi. split; [assumption|]. split; [eauto 8|]. split; [|assumption].
  rewrite Hout. cbn [int_shape]. rewrite Hs. apply last_last.
Qed.

Lemma returned_model_interface_witness :
  exists model,
    fst (evolution_many_inputs_classification_model catalog_shape catalog_init 5 2
           (example_params ["x"; "y"] diamond_mask four_nodes four_dense_specs) world0)
    = Ok model /\
    List.length (model_inputs model) = 2 /\
    last (int_shape (model_outputs model)) None = Some 2.
Proof.
  destruct (evolution_many_inputs_classification_model catalog_shape catalog_init 5 2
              (example_params ["x"; "y"] diamond_mask four_nodes four_dense_specs) world0)
    as [[model| |] w'] eqn:E; try (vm_compute in E; discriminate).
  exists model. split; [reflexivity|].
  destruct (returned_model_interface _ _ _ _ _ _ _ _ E) as (Hin & _ & Hlast & _).
  split; [|exact Hlast].
  apply Forall2_length in Hin. rewrite <- Hin. reflexivity.
Defined.

(** ** The vector of a stream *)

Lemma keras_shape_pooling_inv ins s :
  keras_shape GlobalMaxPooling1D ins = Ok s ->
  exists b tm f, ins = [[b; tm; f]] /\ s = [b; f].
Proof.
  destruct ins as [|s0 [|s1 ins]]; cbn [keras_shape]; try discriminate.
  destruct s0 as [|b [|tm [|f [|x s0]]]]; try discriminate.
  intros H. inversion H. eauto.
Qed.

(** A tensor of rank 3 under a fresh [GlobalMaxPooling1D], another one as it
    is. *)
Lemma pool_rank3_inv node_shape t w t' w' :
  (if Nat.eqb (List.length (int_shape t)) 3
   then g <- new_layer GlobalMaxPooling1D ;; call node_shape g [t]
   else ret t) w = (Ok t', w') ->
  pooled_of t t'.
Proof.
  destruct (Nat.eqb _ 3) eqn:E; intros H.
  - apply bind_inv in H. destruct H as (g & w1 & Hg & H).
    apply new_layer_inv in Hg. apply call_inv in H. destruct H as (s & Hs & ->).
    rewrite Hg in Hs. cbn [layer_output_shape map] in Hs.
    apply keras_shape_pooling_inv in Hs. destruct Hs as (b & tm & f & E1 & ->).
    inversion E1. right. exists g, b, tm, f. auto.
  - unfold ret in H. inversion H; subst. left. apply Nat.eqb_neq in E. auto.
Qed.

Lemma pooled_of_rank t t' : pooled_of t t' -> List.length (int_shape t') <> 3.
Proof.
  intros [(H & ->) | (g & b & tm & f & _ & _ & ->)]; [assumption | discriminate].
Qed.

(** X5: the vector a stream contributes to the cross-stream reduction is
    never of rank 3: it is what the sinks give, under a fresh
    [GlobalMaxPooling1D] exactly when that has rank 3. *)
Theorem stream_vector_is_pooled node_shape fuel params model_layers inp w t w' :
  build_stream node_shape fuel params model_layers inp w = (Ok t, w') ->
  List.length (int_shape t) <> 3 /\
  exists edges_outputs w1 out w2,
    sinks_output node_shape (sinks_of (graph_of params)) edges_outputs w1 = (Ok out, w2) /\
    pooled_of out t.
Proof.
  unfold build_stream. intros H.
  apply bind_inv in H. destruct H as ([] & w1 & _ & H).
  apply bind_inv in H. destruct H as ([] & w2 & _ & H).
  fold (graph_of params) in H.
  destruct (schedule_loop _ _ _ _); [|discriminate].
  apply bind_inv in H. destruct H as (eo & w3 & _ & H).
  apply bind_inv in H. destruct H as (out & w4 & Hout & H).
  apply pool_rank3_inv in H. split; [eapply pooled_of_rank; eassumption|].
  exists eo, w3, out, w4. auto.
Qed.

Lemma stream_vector_is_pooled_witness :
  exists t,
    fst (build_stream catalog_shape 5
           (example_params ["x"; "y"] chain_mask three_nodes three_dense_specs)
           [("node_0", mkLayer 0 (node_func "Dense" [("units", PInt 4)]));
            ("node_1", mkLayer 1 (node_func "Dense" [("units", PInt 4)]));
            ("node_2", mkLayer 2 (node_func "Dense" [("units", PInt 4)]))]
           (InputTensor 7 [None; Some 5; Some 3]) world0) = Ok t /\
    List.length (int_shape t) <> 3.
Proof.
  destruct (build_stream _ _ _ _ _ _) as [[t| |] w'] eqn:E;
    try (vm_compute in E; discriminate).
  exists t. split; [reflexivity|].
  exact (proj1 (stream_vector_is_pooled _ _ _ _ _ _ _ _ E)).
Defined.

(** ** The output of several sinks *)

Lemma map_result_map {A B} (f : A -> result B) (g : A -> B) xs :
  (forall x, In x xs -> f x = Ok (g x)) -> map_result f xs = Ok (map g xs).
Proof.
  induction xs as [|x xs IH]; intros H; simpl; [reflexivity|].
  rewrite (H x (or_introl eq_refl)), IH; [reflexivity|].
  intros y Hy. apply H. now right.
Qed.

Lemma map_M_lift_Ok {A B} (f : A -> result B) xs ys w :
  Forall2 (fun x y => f x = Ok y) xs ys ->
  map_M (fun x => lift (f x)) xs w = (Ok ys, w).
Proof.
  induction 1 as [|x y xs ys Hxy _ IH]; simpl; [reflexivity|].
  unfold bind, lift at 1. rewrite Hxy, IH. reflexivity.
Qed.

Lemma reconcilable_shape b t :
  reconcilable b t ->
  int_shape t = [b; Some (last_width t)] \/
  exists tm, int_shape t = [b; tm; Some (last_width t)].
Proof.
  unfold last_width. intros [(f & H) | (tm & f & H)]; rewrite H; simpl; eauto.
Qed.

(** [Concatenate()] on shapes of rank 2 or 3 returns or raises
    [ValueError]. *)
Lemma concatenate_last_axis b (ts : list Tensor) :
  Forall (reconcilable b) ts ->
  (exists s, concatenate_shape (-1) (map int_shape ts) = Ok s) \/
  (exists msg, concatenate_shape (-1) (map int_shape ts) = Raise (ValueError msg)).
Proof.
  intros Hr. destruct ts as [|t0 [|t1 ts]]; [right; eexists; reflexivity.. |].
  remember (t0 :: t1 :: ts) as l eqn:El.
  assert (Hdel : map_result (del_axis (-1)) (map int_shape l) =
                 Ok (map (fun s => del_at (List.length s - 1) s) (map int_shape l))).
  { apply map_result_map. intros s Hs. apply in_map_iff in Hs.
    destruct Hs as (t & <- & Ht). rewrite Forall_forall in Hr.
    destruct (reconcilable_shape b t (Hr t Ht)) as [E | (tm & E)]; rewrite E; reflexivity. }
  assert (Hax : exists a, norm_axis (-1) (List.length (int_shape t0)) = Some a).
  { inversion Hr as [|? ? H0 _]; [subst; discriminate|]. subst l.
    match goal with H : _ :: _ = _ :: _ |- _ => inversion H; subst end.
    destruct (reconcilable_shape b t0 H0) as [E | (tm & E)]; rewrite E; eexists; reflexivity. }
  destruct Hax as (a & Hax).
  subst l. cbn [map] in *. unfold concatenate_shape. rewrite Hdel.
  match goal with |- context [forallb ?g ?r] => destruct (forallb g r) end.
  - left. rewrite Hax. eauto.
  - right. eauto.
Qed.

Lemma fold_dim_add_widths b (ws : list nat) : forall a,
  fold_left (fun acc s => dim_add acc (nth 1 s None))
            (map (fun f => [b; Some f]) ws) (Some a) = Some (a + list_sum ws).
Proof.
  induction ws as [|f ws IH]; intros a; simpl.
  - f_equal. lia.
  - rewrite IH. f_equal. lia.
Qed.

(** [Concatenate(axis=1)] on two or more vectors of one batch size adds up
    their widths. *)
Lemma concatenate_vectors b (ws : list nat) :
  2 <= List.length ws ->
  concatenate_shape 1 (map (fun f => [b; Some f]) ws) = Ok [b; Some (list_sum ws)].
Proof.
  intros Hl. destruct ws as [|f0 [|f1 ws]]; simpl in Hl; try lia.
  remember (f1 :: ws) as rest eqn:Er. cbn [map].
  assert (Hdel : map_result (del_axis 1) (map (fun f => [b; Some f]) (f0 :: rest)) =
                 Ok (map (fun _ => [b]) (f0 :: rest))).
  { rewrite <- (map_map (fun f => [b; Some f]) (fun _ => [b])).
    apply map_result_map. intros s Hs. apply in_map_iff in Hs.
    destruct Hs as (f & <- & _). reflexivity. }
  unfold concatenate_shape. cbn [map] in Hdel.
  subst rest. cbn [map] in *. rewrite Hdel. cbn [hd].
  rewrite forallb_same_reduced.
  - change (norm_axis 1 (List.length [b; Some f0])) with (Some 1). cbn [nth].
    change ([b; Some f1] :: map (fun f => [b; Some f]) ws)
      with (map (fun f => [b; Some f]) (f1 :: ws)).
    rewrite fold_dim_add_widths. reflexivity.
  - constructor; [reflexivity|]. constructor; [reflexivity|].
    apply Forall_forall. intros r Hr. apply in_map_iff in Hr.
    now destruct Hr as (f & <- & _).
Qed.

Lemma pool_loop_Ok node_shape b outs :
  Forall (reconcilable b) outs ->
  forall w, exists pooled w',
    map_M (fun t =>
             if Nat.eqb (List.length (int_shape t)) 3
             then g <- new_layer GlobalMaxPooling1D ;; call node_shape g [t]
             else ret t) outs w = (Ok pooled, w') /\
    Forall2 pooled_of outs pooled /\
    map int_shape pooled = map (fun t => [b; Some (last_width t)]) outs.
Proof.
  induction 1 as [|t outs Ht _ IH]; intros w; simpl.
  - exists [], w. repeat split. constructor.
  - destruct (reconcilable_shape b t Ht) as [E | (tm & E)].
    + rewrite E. cbn [List.length Nat.eqb].
      erewrite bind_Ok; [|reflexivity].
      destruct (IH w) as (pooled & w' & Hrun & Hp & Hs).
      exists (t :: pooled), w'. rewrite (bind_Ok _ _ _ _ _ Hrun).
      split; [reflexivity|]. split.
      * constructor; [|assumption]. left. rewrite E. split; [discriminate | reflexivity].
      * simpl. now rewrite Hs, E.
    + rewrite E. cbn [List.length Nat.eqb].
      erewrite bind_Ok.
      2:{ erewrite bind_Ok; [|reflexivity]. apply call_Ok.
          cbn [layer_cfg_of layer_output_shape map]. rewrite E. reflexivity. }
      match goal with
      | |- context [bind (map_M _ outs) _ ?w0] =>
          destruct (IH w0) as (pooled & w' & Hrun & Hp & Hs)
      end.
      eexists. exists w'. rewrite (bind_Ok _ _ _ _ _ Hrun).
      split; [reflexivity|]. split.
      * constructor; [|assumption]. right.
        exists (mkLayer (next_id w) GlobalMaxPooling1D), b, tm, (Some (last_width t)).
        auto.
      * simpl. now rewrite Hs.
Qed.

(** X6: the output of a stream with two or more sinks whose outputs have
    rank 2 or 3, one batch size and known widths.  [Concatenate()] is applied
    to the sink outputs first; when it raises [ValueError], every output of
    rank 3 goes through a fresh [GlobalMaxPooling1D] and the resulting vectors
    are concatenated on axis 1, into a vector as wide as all sinks together.
    An output is built in every case. *)
Theorem sinks_output_reconciles node_shape sinks edges_outputs w b outs :
  2 <= List.length sinks ->
  Forall2 (fun sink t => dict_get edges_outputs sink = Some t /\ reconcilable b t)
          sinks outs ->
  exists out w' c,
    sinks_output node_shape sinks edges_outputs w = (Ok out, w') /\
    layer_cfg_of c = Concatenate (-1) /\
    In (EvCall c outs) (trace w') /\
    ((exists s, concatenate_shape (-1) (map int_shape outs) = Ok s /\
                out = LayerOutput c outs s) \/
     (exists msg,
        concatenate_shape (-1) (map int_shape outs) = Raise (ValueError msg) /\
        exists c1 pooled,
          layer_cfg_of c1 = Concatenate 1 /\
          Forall2 pooled_of outs pooled /\
          out = LayerOutput c1 pooled [b; Some (list_sum (map last_width outs))])).
Proof.
  intros Hl HF.
  assert (Hget : Forall2 (fun sink t => dict_item edges_outputs sink = Ok t) sinks outs).
  { eapply Forall2_impl; [|exact HF]. cbv beta. intros s t [Hg _].
    unfold dict_item. now rewrite Hg. }
  assert (Hrec : Forall (reconcilable b) outs).
  { clear - HF. induction HF as [|s t sinks outs [_ Hr] _ IH]; constructor; assumption. }
  pose proof (Forall2_length HF) as Hlen.
  set (c := mkLayer (next_id w) (Concatenate (-1))).
  set (w1 := mkWorld (S (next_id w)) (trace w ++ [EvNew c])).
  set (w2 := mkWorld (next_id w1) (trace w1 ++ [EvCall c outs])).
  assert (Hso : sinks_output node_shape sinks edges_outputs w =
                try_except_ValueError
                  (c <- new_layer (Concatenate (-1)) ;; call node_shape c outs)
                  (outputs <- map_M (fun t =>
                       if Nat.eqb (List.length (int_shape t)) 3
                       then g <- new_layer GlobalMaxPooling1D ;; call node_shape g [t]
                       else ret t) outs ;;
                   c <- new_layer (Concatenate 1) ;;
                   call node_shape c outputs) w).
  { unfold sinks_output. destruct sinks as [|s0 [|s1 sinks]]; simpl in Hl; try lia.
    now rewrite (bind_Ok _ _ _ _ _ (map_M_lift_Ok _ _ _ w Hget)). }
  destruct (concatenate_last_axis b outs Hrec) as [(s & Hc) | (msg & Hc)].
  - exists (LayerOutput c outs s), w2, c. split.
    + rewrite Hso. apply try_Ok. erewrite bind_Ok; [|reflexivity].
      apply call_Ok. exact Hc.
    + split; [reflexivity|]. split; [|left; eauto].
      subst w2. cbn [trace]. apply in_or_app. right. now left.
  - destruct (pool_loop_Ok node_shape b outs Hrec w2) as (pooled & w3 & Hrun & Hp & Hs).
    set (c1 := mkLayer (next_id w3) (Concatenate 1)).
    assert (Htr : exists evs, trace w3 = trace w2 ++ evs).
    { assert (He : emits (fun _ => True)
                     (map_M (fun t =>
                        if Nat.eqb (List.length (int_shape t)) 3
                        then g <- new_layer GlobalMaxPooling1D ;; call node_shape g [t]
                        else ret t) outs)).
      { repeat (emits_step; try exact I). }
      destruct (He w2) as (evs & Htr & _). rewrite Hrun in Htr. eauto. }
    destruct Htr as (evs & Htr).
    eexists. eexists. exists c. split.
    + rewrite Hso. erewrite try_ValueError.
      2:{ erewrite bind_Ok; [|reflexivity]. apply call_Raise. exact Hc. }
      fold c w1 w2. rewrite (bind_Ok _ _ _ _ _ Hrun).
      erewrite bind_Ok; [|reflexivity]. fold c1.
      apply call_Ok. cbn [layer_cfg_of c1 layer_output_shape keras_shape].
      rewrite Hs, <- (map_map last_width (fun f => [b; Some f])).
      apply concatenate_vectors. rewrite length_map. lia.
    + split; [reflexivity|]. split.
      * cbn [trace]. rewrite Htr. unfold w2, w1. cbn [trace]. rewrite !in_app_iff.
        left. left. left. right. now left.
      * right. exists msg. split; [assumption|]. exists c1, pooled. auto.
Qed.

Lemma sinks_output_reconciles_witness :
  exists out w',
    sinks_output catalog_shape ["1"; "2"] fork_edges_outputs world0 = (Ok out, w') /\
    int_shape out = [None; Some 7].
Proof.
  destruct (sinks_output_reconciles catalog_shape ["1"; "2"] fork_edges_outputs world0
              None (map snd fork_edges_outputs))
    as (out & w' & c & Hrun & _ & _ & [(s & Hs & _) | (msg & _ & c1 & pooled & _ & _ & ->)]).
  - simpl. lia.
  - constructor; [split; [reflexivity | right; exists (Some 5), 4; reflexivity]|].
    constructor; [split; [reflexivity | left; exists 3; reflexivity]|].
    constructor.
  - vm_compute in Hs. discriminate.
  - eexists. eexists. split; [exact Hrun | reflexivity].
Defined.

(** ** Predecessor outputs of another rank *)

Lemma map_M_first_raise {A B} (f : A -> M B) e xs :
  (forall x w, In x xs ->
     (exists y w', f x w = (Ok y, w')) \/ (exists w', f x w = (Raise e, w'))) ->
  (exists x, In x xs /\ forall w, exists w', f x w = (Raise e, w')) ->
  forall w, exists w', map_M f xs w = (Raise e, w').
Proof.
  induction xs as [|x xs IH]; intros Hall (x0 & Hin & Hx0) w; [contradiction|].
  simpl. destruct (Hall x w (or_introl eq_refl)) as [(y & w1 & Hy) | (w1 & Hr)].
  - rewrite (bind_Ok _ _ _ _ _ Hy).
    destruct Hin as [<- | Hin].
    + destruct (Hx0 w) as (w2 & Hr). congruence.
    + destruct (IH (fun z w0 Hz => Hall z w0 (or_intror Hz))
                   (ex_intro _ x0 (conj Hin Hx0)) w1) as (w2 & Hr).
      exists w2. now apply bind_Raise.
  - exists w1. now apply bind_Raise.
Qed.

Lemma gather_one_cases node_shape edges_outputs p t w :
  dict_get edges_outputs p = Some t ->
  (exists t' w', gather_one node_shape edges_outputs p w = (Ok t', w')) \/
  (List.length (int_shape t) <> 2 /\ List.length (int_shape t) <> 3 /\
   gather_one node_shape edges_outputs p w =
   (Raise (ValueError "All the layers should take in and take out 2 and 3 dimensional tensors!"), w)).
Proof.
  intros Hget.
  assert (Hrun : gather_one node_shape edges_outputs p w =
                 (if Nat.eqb (List.length (int_shape t)) 3 then ret t
                  else if Nat.eqb (List.length (int_shape t)) 2
                  then lift_rank2 node_shape t
                  else raise (ValueError "All the layers should take in and take out 2 and 3 dimensional tensors!")) w).
  { unfold gather_one, dict_item, lift, bind. now rewrite Hget. }
  rewrite Hrun. clear Hrun.
  destruct (Nat.eqb (List.length (int_shape t)) 3) eqn:E3; [left; eexists; eexists; reflexivity|].
  destruct (Nat.eqb (List.length (int_shape t)) 2) eqn:E2.
  - left. unfold lift_rank2. erewrite bind_Ok; [|reflexivity].
    destruct (int_shape t) as [|b s] eqn:Es; [discriminate|].
    eexists. eexists. apply call_Ok. cbn [layer_cfg_of layer_output_shape keras_shape map].
    rewrite Es. reflexivity.
  - right. apply Nat.eqb_neq in E2, E3. auto.
Qed.

(** X7: when every predecessor of a node has an output and one of them has a
    rank other than 2 and 3, materializing the node raises the [ValueError]
    of line 177, whatever the other outputs are; no [Concatenate] is
    attempted. *)
Theorem predecessor_rank_rejected node_shape model_layers node_str_id dg params
    edges_outputs w :
  let input_nodes := map fst (in_edges dg node_str_id) in
  (forall p, In p input_nodes -> exists t, dict_get edges_outputs p = Some t) ->
  (exists p t, In p input_nodes /\ dict_get edges_outputs p = Some t /\
               List.length (int_shape t) <> 2 /\ List.length (int_shape t) <> 3) ->
  exists w',
    get_node_output node_shape model_layers node_str_id dg params edges_outputs None w =
    (Raise (ValueError "All the layers should take in and take out 2 and 3 dimensional tensors!"), w') /\
    forall c args, In (EvCall c args) (trace w') -> ~ In (EvCall c args) (trace w) ->
                   layer_cfg_of c = Lambda_expand_tile.
Proof.
  intros input_nodes Hall (p0 & t0 & Hin0 & Hget0 & H2 & H3).
  set (w0 := mkWorld (next_id w) (trace w ++ [EvGetNodeOutput node_str_id])).
  destruct (map_M_first_raise (gather_one node_shape edges_outputs)
              (ValueError "All the layers should take in and take out 2 and 3 dimensional tensors!")
              input_nodes) with (w := w0) as (w' & Hr).
  - intros p w1 Hp. destruct (Hall p Hp) as (t & Hget).
    destruct (gather_one_cases node_shape edges_outputs p t w1 Hget)
      as [? | (_ & _ & ?)]; eauto.
  - exists p0. split; [assumption|]. intros w1.
    destruct (gather_one_cases node_shape edges_outputs p0 t0 w1 Hget0)
      as [(t' & w2 & Hok) | (_ & _ & ?)]; [|eauto].
    exfalso. unfold gather_one, dict_item, lift in Hok. rewrite Hget0 in Hok.
    unfold bind at 1 in Hok. cbv iota beta in Hok.
    apply Nat.eqb_neq in H2, H3. rewrite H2, H3 in Hok. discriminate.
  - exists w'. split.
    + unfold get_node_output. erewrite bind_Ok; [|reflexivity]. fold w0.
      apply bind_Raise. unfold gather_inputs. fold input_nodes. now apply bind_Raise.
    + assert (He : emits (fun e => match e with
                                   | EvCall c _ => layer_cfg_of c = Lambda_expand_tile
                                   | _ => True
                                   end)
                     (map_M (gather_one node_shape edges_outputs) input_nodes)).
      { apply emits_map_M. intros x _. unfold gather_one, lift_rank2.
        repeat (emits_step; try exact I; try assumption). }
      destruct (He w0) as (evs & Htr & Hev). rewrite Hr in Htr. cbn [snd] in Htr.
      intros c args Hin Hnot. rewrite Htr in Hin. unfold w0 in Hin. cbn [trace] in Hin.
      rewrite !in_app_iff in Hin. destruct Hin as [[Hin | Hin] | Hin].
      * contradiction.
      * destruct Hin as [Hin | []]. discriminate.
      * rewrite Forall_forall in Hev. exact (Hev _ Hin).
Qed.

Lemma predecessor_rank_rejected_witness :
  exists w',
    get_node_output catalog_shape [] "2"
      (get_digraph_from_binary_mask three_nodes fallback_mask)
      (example_params ["x"; "y"] fallback_mask three_nodes fallback_specs)
      rank4_edges_outputs None world0 =
    (Raise (ValueError "All the layers should take in and take out 2 and 3 dimensional tensors!"), w').
Proof.
  destruct (predecessor_rank_rejected catalog_shape [] "2"
              (get_digraph_from_binary_mask three_nodes fallback_mask)
              (example_params ["x"; "y"] fallback_mask three_nodes fallback_specs)
              rank4_edges_outputs world0) as (w' & Hr & _).
  - intros p [<- | [<- | []]]; eexists; reflexivity.
  - exists "1". eexists. split; [simpl; auto|]. split; [reflexivity|].
    split; discriminate.
  - exists w'. exact Hr.
Defined.

(** ** The layer a node output comes from *)

Lemma get_node_output_inv node_shape model_layers node_str_id dg params
    edges_outputs inp w t w' :
  get_node_output node_shape model_layers node_str_id dg params edges_outputs inp w
    = (Ok t, w') ->
  exists key spec layer x s,
    node_spec params node_str_id = Ok (key, spec) /\
    dict_get model_layers key = Some layer /\
    t = LayerOutput layer [x] s /\
    (forall i, inp = Some i -> x = i).
Proof.
  unfold get_node_output, multiplicative_self_attention_get_output. intros H.
  apply bind_inv in H. destruct H as ([] & w1 & _ & H).
  apply bind_inv in H. destruct H as (x & w2 & Hx & H).
  apply bind_inv in H. destruct H as ([key spec] & w3 & Hks & H).
  apply bind_inv in H. destruct H as (name & w4 & _ & H).
  unfold lift in Hks. inversion Hks as [[Hspec Hw]]. clear Hks. cbn [fst snd] in H.
  assert (Hx' : forall i, inp = Some i -> x = i).
  { intros i ->. unfold ret in Hx. now inversion Hx. }
  destruct (pyval_is_str name "SelfMultiplicativeAttention");
    [|apply bind_inv in H; destruct H as (node_func_ & w4' & _ & H)];
    apply bind_inv in H; destruct H as (np & w5 & _ & H);
    apply bind_inv in H; destruct H as (layer & w6 & Hl & H);
    apply call_inv in H; destruct H as (s & _ & ->);
    unfold lift, dict_item in Hl;
    destruct (dict_get model_layers key) as [l|] eqn:El; inversion Hl; subst;
    exists key, spec, layer, x, s; auto.
Qed.

(** X8: a node output is the application, to one tensor, of the layer
    object [model_layers] holds under the node's type key (for a source, to
    the stream input); so two nodes that are given the same type key in
    [params["nodes"]] are applications of one and the same layer object. *)
Theorem node_output_applies_type_layer node_shape model_layers node_str_id dg params
    edges_outputs inp w t w' :
  get_node_output node_shape model_layers node_str_id dg params edges_outputs inp w
    = (Ok t, w') ->
  exists key spec layer x s,
    node_spec params node_str_id = Ok (key, spec) /\
    dict_get model_layers key = Some layer /\
    t = LayerOutput layer [x] s /\
    (forall i, inp = Some i -> x = i) /\
    (forall other dg0 edges_outputs0 inp0 w0 t0 w0',
       dict_get (p_nodes params) other = Some key ->
       get_node_output node_shape model_layers other dg0 params edges_outputs0 inp0 w0
         = (Ok t0, w0') ->
       exists x0 s0, t0 = LayerOutput layer [x0] s0).
Proof.
  intros H. apply get_node_output_inv in H.
  destruct H as (key & spec & layer & x & s & Hspec & Hl & -> & Hx).
  exists key, spec, layer, x, s. repeat (split; [assumption || reflexivity|]).
  intros other dg0 eo0 inp0 w0 t0 w0' Hkey H0. apply get_node_output_inv in H0.
  destruct H0 as (key0 & spec0 & layer0 & x0 & s0 & Hspec0 & Hl0 & -> & _).
  unfold node_spec, dict_item in Hspec0. rewrite Hkey in Hspec0.
  destruct (dict_get (p_node_specs params) key); inversion Hspec0; subst.
  rewrite Hl in Hl0. inversion Hl0; subst. eauto.
Qed.

Lemma node_output_applies_type_layer_witness :
  let params := example_params ["x"; "y"] fallback_mask shared_type_nodes three_dense_specs in
  let ml := [("node_0", mkLayer 0 (node_func "Dense" [("units", PInt 4)]));
             ("node_2", mkLayer 1 (node_func "Dense" [("units", PInt 4)]))] in
  let dg := get_digraph_from_binary_mask shared_type_nodes fallback_mask in
  let inp := InputTensor 7 [None; Some 5; Some 3] in
  exists t0 t1 layer x0 x1 s0 s1,
    fst (get_node_output catalog_shape ml "0" dg params [] (Some inp) world0) = Ok t0 /\
    fst (get_node_output catalog_shape ml "1" dg params [] (Some inp) world0) = Ok t1 /\
    t0 = LayerOutput layer [x0] s0 /\ t1 = LayerOutput layer [x1] s1.
Proof.
  intros params ml dg inp.
  destruct (get_node_output catalog_shape ml "0" dg params [] (Some inp) world0)
    as [[t0| |] w0] eqn:E0; try (vm_compute in E0; discriminate).
  destruct (get_node_output catalog_shape ml "1" dg params [] (Some inp) world0)
    as [[t1| |] w1] eqn:E1; try (vm_compute in E1; discriminate).
  destruct (node_output_applies_type_layer _ _ _ _ _ _ _ _ _ _ E0)
    as (key & spec & layer & x0 & s0 & Hspec & _ & -> & _ & Hshare).
  assert (Hkey : key = "node_0") by (vm_compute in Hspec; now inversion Hspec).
  subst key.
  destruct (Hshare "1" dg [] (Some inp) world0 t1 w1 eq_refl E1) as (x1 & s1 & ->).
  exists (LayerOutput layer [x0] s0), (LayerOutput layer [x1] s1), layer, x0, x1, s0, s1.
  repeat split.
Defined.

(** ** The keyword arguments of a node layer *)

Lemma dict_get_pop {V} (d : dict V) k k' :
  dict_get (dict_pop d k) k' = if String.eqb k k' then None else dict_get d k'.
Proof.
  unfold dict_pop. induction d as [|[k0 v0] d IH]; simpl.
  - now destruct (String.eqb k k').
  - destruct (String.eqb k k0) eqn:E0; simpl.
    + rewrite IH. apply String.eqb_eq in E0. subst k0.
      rewrite (String.eqb_sym k' k). now destruct (String.eqb k k').
    + rewrite IH. destruct (String.eqb k' k0) eqn:E1; [|reflexivity].
      apply String.eqb_eq in E1. subst k0. now rewrite E0.
Qed.

Lemma strip_node_keys_lookup spec node_params :
  strip_node_keys spec = Ok node_params ->
  first_missing_key spec = None /\
  forall k, dict_get node_params k =
            if existsb (String.eqb k) reserved_keys then None else dict_get spec k.
Proof.
  unfold strip_node_keys, pop, first_missing_key. cbn [find reserved_keys existsb].
  destruct (dict_get spec "node_name") eqn:E1; [|discriminate].
  rewrite (dict_get_pop spec "node_name" "node_type"). cbn [String.eqb Ascii.eqb Bool.eqb].
  destruct (dict_get spec "node_type") eqn:E2; [|discriminate].
  rewrite (dict_get_pop _ "node_type" "node_layer"), (dict_get_pop spec "node_name" "node_layer").
  cbn [String.eqb Ascii.eqb Bool.eqb].
  destruct (dict_get spec "node_layer") eqn:E3; [|discriminate].
  intros H. inversion H; subst node_params. clear H. split; [reflexivity|].
  intros k. rewrite !dict_get_pop, !(String.eqb_sym k).
  destruct (String.eqb "node_name" k), (String.eqb "node_type" k),
    (String.eqb "node_layer" k); reflexivity.
Qed.

Lemma callable_globals_get_inv name node_func_ n :
  globals_get name = Ok node_func_ -> callable node_func_ = Some n ->
  name = PStr n /\ dict_get module_globals n = Some true.
Proof.
  unfold globals_get. destruct (hashable name); [|discriminate].
  intros H Hc.
  assert (Hg : node_func_ =
               match name with
               | PStr n0 =>
                   match dict_get module_globals n0 with
                   | Some c => Some (n0, c)
                   | None => None
                   end
               | _ => None
               end) by congruence.
  clear H. subst node_func_.
  destruct name as [| | | |s| |]; cbn [callable] in Hc; try discriminate.
  destruct (dict_get module_globals s) as [[|]|] eqn:E; cbn [callable] in Hc;
    try discriminate.
  assert (s = n) by congruence. subst n. split; [reflexivity | exact E].
Qed.

(** X9: the layer of a non-isolate node.  It is constructed from the entries
    of the node's spec other than "node_name", "node_type" and "node_layer",
    all three of which the spec holds, by the recurrent wrapper, the
    attention initializer or the callable global the type name resolves to;
    it is the one new layer object, and it is stored under the node's type
    key, where it replaces whatever an earlier node of that type had put. *)
Theorem node_layer_built_from_spec node_init params isolates model_layers node_str_id
    w ml' w' :
  mem node_str_id isolates = false ->
  initialize_node node_init params isolates model_layers node_str_id w = (Ok ml', w') ->
  exists key spec name node_params l,
    node_spec params node_str_id = Ok (key, spec) /\
    dict_get spec "node_name" = Some name /\
    first_missing_key spec = None /\
    (forall k, dict_get node_params k =
               if existsb (String.eqb k) reserved_keys then None else dict_get spec k) /\
    (name = PStr "BiCuDNNLSTM" /\ layer_cfg_of l = Bidirectional_CuDNNLSTM node_params \/
     name = PStr "SelfMultiplicativeAttention" /\
       layer_cfg_of l = multiplicative_self_attention_init node_params \/
     exists n, name = PStr n /\ dict_get module_globals n = Some true /\
               layer_cfg_of l = node_func n node_params) /\
    created_layers (trace w') = created_layers (trace w) ++ [l] /\
    dict_get ml' key = Some l /\
    (forall k, k <> key -> dict_get ml' k = dict_get model_layers k).
Proof.
  unfold initialize_node. intros -> H. cbn [negb] in H.
  apply bind_inv in H. destruct H as ([key spec] & w1 & Hks & H).
  apply bind_inv in H. destruct H as (name & w2 & Hname & H).
  unfold lift in Hks, Hname. inversion Hks as [[Hspec Hw1]]. subst w1. clear Hks.
  cbn [fst snd] in *. inversion Hname as [[Hn Hw2]]. subst w2. clear Hname.
  unfold node_name_of, dict_item in Hn.
  destruct (dict_get spec "node_name") as [nm|] eqn:En; inversion Hn; subst nm. clear Hn.
  assert (Hstr : forall s, pyval_is_str name s = true -> name = PStr s).
  { intros s. destruct name; simpl; try discriminate.
    intros E. apply String.eqb_eq in E. now subst. }
  assert (Hfin : forall cfg np,
            strip_node_keys spec = Ok np ->
            (l <- construct node_init cfg ;; ret (dict_set model_layers key l)) w
              = (Ok ml', w') ->
            exists l, layer_cfg_of l = cfg /\
              (first_missing_key spec = None /\
               forall k, dict_get np k =
                 if existsb (String.eqb k) reserved_keys then None else dict_get spec k) /\
              created_layers (trace w') = created_layers (trace w) ++ [l] /\
              dict_get ml' key = Some l /\
              (forall k, k <> key -> dict_get ml' k = dict_get model_layers k)).
  { intros cfg np Hnp Hrun. apply bind_inv in Hrun. destruct Hrun as (l & w0 & Hl & Hrun).
    apply construct_inv in Hl. destruct Hl as (_ & -> & ->).
    unfold ret in Hrun. inversion Hrun; subst.
    exists (mkLayer (next_id w) cfg). split; [reflexivity|].
    split; [now apply strip_node_keys_lookup|].
    cbn [trace]. rewrite created_layers_app. split; [reflexivity|].
    split; [apply dict_get_set_eq | intros k Hk; now apply dict_get_set_neq]. }
  exists key, spec, name.
  destruct (pyval_is_str name "BiCuDNNLSTM") eqn:E1.
  { apply bind_inv in H. destruct H as (np & w3 & Hnp & H).
    unfold lift in Hnp. inversion Hnp as [[Hnp' Hw3]]. subst w3.
    destruct (Hfin _ _ Hnp' H) as (l & Hcfg & (Hm & Hlook) & Hcr & Hget & Hneq).
    exists np, l. repeat (split; [assumption || reflexivity|]).
    split; [left; split; [now apply Hstr | assumption]|]. auto. }
  destruct (pyval_is_str name "SelfMultiplicativeAttention") eqn:E2.
  { apply bind_inv in H. destruct H as (np & w3 & Hnp & H).
    unfold lift in Hnp. inversion Hnp as [[Hnp' Hw3]]. subst w3.
    destruct (Hfin _ _ Hnp' H) as (l & Hcfg & (Hm & Hlook) & Hcr & Hget & Hneq).
    exists np, l. repeat (split; [assumption || reflexivity|]).
    split; [right; left; split; [now apply Hstr | assumption]|]. auto. }
  apply bind_inv in H. destruct H as (node_func_ & w3 & Hget & H).
  unfold lift in Hget. inversion Hget as [[Hget' Hw3]]. subst w3. clear Hget.
  apply bind_inv in H. destruct H as (np & w3 & Hnp & H).
  unfold lift in Hnp. inversion Hnp as [[Hnp' Hw3]]. subst w3.
  destruct (callable node_func_) as [n|] eqn:Ec; [|discriminate].
  destruct (callable_globals_get_inv _ _ _ Hget' Ec) as (-> & Hg).
  destruct (Hfin _ _ Hnp' H) as (l & Hcfg & (Hm & Hlook) & Hcr & Hget & Hneq).
  exists np, l. repeat (split; [assumption || reflexivity|]).
  split; [right; right; eauto|]. auto.
Qed.

Lemma node_layer_built_from_spec_witness :
  let params := example_params ["x"; "y"] chain_mask three_nodes three_dense_specs in
  exists ml' w' l,
    initialize_node catalog_init params [] [] "1" world0 = (Ok ml', w') /\
    layer_cfg_of l = node_func "Dense" [("units", PInt 4)] /\
    dict_get ml' "node_1" = Some l.
Proof.
  intros params.
  destruct (initialize_node catalog_init params [] [] "1" world0) as [[ml'| |] w'] eqn:E;
    try (vm_compute in E; discriminate).
  destruct (node_layer_built_from_spec catalog_init params [] [] "1" world0 ml' w'
              eq_refl E)
    as (key & spec & name & np & l & Hspec & Hname & _ & _ & Hcfg & _ & Hget & _).
  exists ml', w', l. split; [reflexivity|].
  vm_compute in E. inversion E; subst ml' w'.
  vm_compute in Hspec. inversion Hspec; subst key spec.
  vm_compute in Hget. inversion Hget; subst l. split; reflexivity.
Defined.

(** X10: a non-isolate node whose spec lacks one of "node_name",
    "node_type", "node_layer" makes [initialize_all_nodes]' loop body raise
    [KeyError] for the first missing one, before any layer is constructed,
    and also when the type name resolves to nothing: the [KeyError] of the
    [pop] comes before the [AttributeError].  The one thing that comes before
    the [pop]s is the lookup of the type name in the globals: a type name
    that cannot be hashed raises [TypeError] there. *)
Theorem incomplete_spec_raises_KeyError node_init params isolates model_layers
    node_str_id w key spec k :
  mem node_str_id isolates = false ->
  node_spec params node_str_id = Ok (key, spec) ->
  first_missing_key spec = Some k ->
  ((forall name, dict_get spec "node_name" = Some name -> hashable name = true) ->
   initialize_node node_init params isolates model_layers node_str_id w =
   (Raise (KeyError k), w)) /\
  (forall name, dict_get spec "node_name" = Some name -> hashable name = false ->
   initialize_node node_init params isolates model_layers node_str_id w =
   (Raise (TypeError "unhashable type: 'list'"), w)).
Proof.
  unfold initialize_node, first_missing_key. intros -> Hspec Hk. cbn [negb].
  unfold bind, lift. rewrite Hspec. cbn [fst snd].
  unfold node_name_of, dict_item, strip_node_keys, pop.
  cbn [find reserved_keys] in Hk.
  destruct (dict_get spec "node_name") as [name|] eqn:E1.
  2:{ inversion Hk. split; [reflexivity | discriminate]. }
  assert (Hstr : forall s, pyval_is_str name s = true -> hashable name = true).
  { intros s. destruct name; simpl; (reflexivity || discriminate). }
  assert (Hpops :
    match
      match
        match dict_get spec "node_name" with
        | Some _ => Ok (dict_pop spec "node_name")
        | None => Raise (KeyError "node_name")
        end
      with
      | Ok d1 =>
          match
            match dict_get d1 "node_type" with
            | Some _ => Ok (dict_pop d1 "node_type")
            | None => Raise (KeyError "node_type")
            end
          with
          | Ok d2 =>
              match dict_get d2 "node_layer" with
              | Some _ => Ok (dict_pop d2 "node_layer")
              | None => Raise (KeyError "node_layer")
              end
          | r => r
          end
      | r => r
      end
    with
    | Ok _ => False
    | Raise e => e = KeyError k
    | Running => False
    end).
  { rewrite E1.
    rewrite (dict_get_pop spec "node_name" "node_type"). cbn [String.eqb Ascii.eqb Bool.eqb].
    destruct (dict_get spec "node_type") as [ty|] eqn:E2.
    - rewrite (dict_get_pop _ "node_type" "node_layer"),
        (dict_get_pop spec "node_name" "node_layer").
      cbn [String.eqb Ascii.eqb Bool.eqb].
      destruct (dict_get spec "node_layer") as [ly|] eqn:E3; [discriminate|].
      inversion Hk; reflexivity.
    - inversion Hk; reflexivity. }
  rewrite E1 in Hpops.
  match type of Hpops with
  | match ?r with _ => _ end => destruct r as [d|e|] eqn:Er; try contradiction
  end.
  subst e. split.
  - intros Hh. specialize (Hh name eq_refl).
    destruct (pyval_is_str name "BiCuDNNLSTM"); [reflexivity|].
    destruct (pyval_is_str name "SelfMultiplicativeAttention"); [reflexivity|].
    unfold globals_get. rewrite Hh. reflexivity.
  - intros name0 Hn Hh. inversion Hn; subst name0.
    destruct (pyval_is_str name "BiCuDNNLSTM") eqn:Eb;
      [apply Hstr in Eb; congruence|].
    destruct (pyval_is_str name "SelfMultiplicativeAttention") eqn:Ea;
      [apply Hstr in Ea; congruence|].
    unfold globals_get. rewrite Hh. reflexivity.
Qed.

Lemma incomplete_spec_raises_KeyError_witness :
  let params := example_params ["x"; "y"] chain_mask three_nodes chain_incomplete_specs in
  unresolved params "1" = true /\
  initialize_node catalog_init params [] [] "1" world0 =
  (Raise (KeyError "node_type"), world0).
Proof.
  intros params. split; [reflexivity|].
  apply (proj1 (incomplete_spec_raises_KeyError catalog_init params [] [] "1" world0
                  "node_1" [("node_name", PStr "NoSuchLayer"); ("node_layer", PStr "x")]
                  "node_type" eq_refl eq_refl eq_refl)).
  intros name H. inversion H. reflexivity.
Defined.

(** ** Sizes [Input] rejects *)

Lemma short_text_size_list_inputs params l w :
  p_text_size params = TextSizeList l ->
  List.length l < List.length (p_in params) ->
  (0 <= p_embedding_size params)%Z ->
  Forall (fun ts => (0 <= ts)%Z) l ->
  exists w', make_inputs params w = (Raise (IndexError "list index out of range"), w').
Proof.
  intros Hts Hlen Hemb Hall. unfold make_inputs. rewrite Hts.
  apply map_M_first_raise.
  - intros i w0 _. destruct (nth_error l i) as [ts|] eqn:E.
    + left. eexists. eexists. apply Input_Ok; [|assumption].
      rewrite Forall_forall in Hall. apply Hall. eapply nth_error_In; eassumption.
    + right. eexists. reflexivity.
  - exists (List.length l). split; [apply in_seq; lia|].
    intros w0. replace (nth_error l (List.length l)) with (@None Z).
    + eexists. reflexivity.
    + symmetry. apply nth_error_None. lia.
Qed.

(** X11: a list of text sizes shorter than the list of input streams makes
    the construction fail with [IndexError] at the first stream without a
    text size, whatever the mask and the nodes are, before any layer is
    constructed or applied. *)
Theorem short_text_size_list_raises node_shape node_init fuel n_classes params w l :
  p_text_size params = TextSizeList l ->
  List.length l < List.length (p_in params) ->
  (0 <= p_embedding_size params)%Z ->
  Forall (fun ts => (0 <= ts)%Z) l ->
  exists w',
    evolution_many_inputs_classification_model node_shape node_init fuel n_classes params w =
    (Raise (IndexError "list index out of range"), w') /\
    trace w' = trace w.
Proof.
  intros Hts Hlen Hemb Hall.
  destruct (short_text_size_list_inputs params l w Hts Hlen Hemb Hall) as (w' & Hr).
  exists w'. split.
  - unfold evolution_many_inputs_classification_model. now apply bind_Raise.
  - destruct (emits_make_inputs (fun _ => False) params w) as (evs & Htr & Hev).
    rewrite Hr in Htr. cbn [snd] in Htr. destruct Hev as [|e evs []].
    now rewrite app_nil_r in Htr.
Qed.

Lemma short_text_size_list_raises_witness :
  exists w',
    evolution_many_inputs_classification_model catalog_shape catalog_init 5 2
      (mkParams ["x"; "y"] (TextSizeList [5%Z]) 3 (pylist diamond_mask) four_nodes
                four_dense_specs 3 "0.5" None) world0 =
    (Raise (IndexError "list index out of range"), w') /\
    trace w' = [].
Proof.
  apply (short_text_size_list_raises catalog_shape catalog_init 5 2
           (mkParams ["x"; "y"] (TextSizeList [5%Z]) 3 (pylist diamond_mask) four_nodes
                     four_dense_specs 3 "0.5" None) world0 [5%Z]).
  - reflexivity.
  - simpl. lia.
  - simpl. lia.
  - repeat constructor. lia.
Defined.

(** ** Batches *)

Section BatchProperties.
Variable F : Type.
Variable zero : F.
Variable fasttext_model : list pyval -> outcome (list (list (list F))).
Variable tokenizer : list pyval -> outcome (list pyval).
Variable OneHot : Type.
Variable labels2onehot : pyval -> outcome OneHot.
Variable Values : Type.
Variable keras_model : model_call (list (list (list F))) OneHot -> outcome Values.
Variable Labels : Type.
Variable proba2labels : Values -> outcome Labels.

Let features_of := batch_features F zero fasttext_model tokenizer.
Let train :=
  train_on_batch F zero fasttext_model tokenizer OneHot labels2onehot Values keras_model.
Let infer :=
  infer_on_batch F zero fasttext_model tokenizer OneHot labels2onehot Values keras_model.
Let call_ :=
  __call__ F zero fasttext_model tokenizer OneHot labels2onehot Values keras_model
           Labels proba2labels.

Lemma map_result_length {A B} (f : A -> result B) xs ys :
  map_result f xs = Ok ys -> List.length ys = List.length xs.
Proof.
  revert ys. induction xs as [|x xs IH]; intros ys; simpl.
  - intros H. now inversion H.
  - destruct (f x); cbn [rbind]; try discriminate.
    destruct (map_result f xs); cbn [rbind]; try discriminate.
    intros H. inversion H. simpl. now rewrite (IH _ eq_refl).
Qed.

Lemma map_result_ext_in {A B} (f g : A -> result B) xs :
  (forall x, In x xs -> f x = g x) -> map_result f xs = map_result g xs.
Proof.
  induction xs as [|x xs IH]; intros H; simpl; [reflexivity|].
  rewrite (H x (or_introl eq_refl)), IH; [reflexivity|].
  intros y Hy. apply H. now right.
Qed.

Lemma map_result_raises {A B} (f : A -> result B) xs :
  (forall x, In x xs -> f x <> Running) ->
  (exists x e, In x xs /\ f x = Raise e) ->
  exists e, map_result f xs = Raise e.
Proof.
  induction xs as [|x xs IH]; intros Hnr (x0 & e0 & Hin & Hr); [contradiction|].
  simpl. destruct (f x) as [y|e|] eqn:E; cbn [rbind].
  - assert (Hxs : exists e, map_result f xs = Raise e).
    { apply IH.
      - intros z Hz. apply Hnr. now right.
      - destruct Hin as [<- | Hin]; [congruence | exists x0, e0; split; assumption]. }
    destruct Hxs as (e & He). rewrite He. cbn [rbind]. eauto.
  - eauto.
  - exfalso. apply (Hnr x (or_introl eq_refl)). assumption.
Qed.

Lemma map_result_not_Running {A B} (f : A -> result B) xs :
  (forall x, In x xs -> f x <> Running) -> map_result f xs <> Running.
Proof.
  induction xs as [|x xs IH]; intros H; simpl; [discriminate|].
  destruct (f x) eqn:E; cbn [rbind]; try discriminate.
  - destruct (map_result f xs) eqn:E'; cbn [rbind]; try discriminate.
    exfalso. apply IH; [|reflexivity]. intros z Hz. apply H. now right.
  - exfalso. apply (H x (or_introl eq_refl)). assumption.
Qed.

Lemma texts2vec_not_Running opt sentences i :
  texts2vec F zero fasttext_model opt sentences i <> Running.
Proof.
  unfold texts2vec, np_zeros. destruct (_ <? 0)%Z; cbn [rbind]; [discriminate|].
  assert (Hs : forall ts, map_result (py_slice_to ts) sentences <> Running).
  { intros ts. apply map_result_not_Running. intros x _. destruct x; discriminate. }
  destruct (p_text_size opt) as [ts|l]; cbn [rbind].
  - specialize (Hs ts). destruct (map_result _ sentences) as [sliced|e|]; cbn [rbind];
      try congruence.
    destruct (fasttext_model sliced); discriminate.
  - destruct (nth_error l i) as [ts|]; cbn [rbind]; [|discriminate].
    specialize (Hs ts). destruct (map_result _ sentences) as [sliced|e|]; cbn [rbind];
      try congruence.
    destruct (fasttext_model sliced); discriminate.
Qed.

Lemma stream_features_not_Running opt first l i :
  (if is_str first
   then rbind (run (tokenizer l))
              (fun tokens => texts2vec F zero fasttext_model opt tokens i)
   else texts2vec F zero fasttext_model opt l i) <> Running.
Proof.
  destruct (is_str first); [|apply texts2vec_not_Running].
  destruct (tokenizer l); cbn [run rbind]; [apply texts2vec_not_Running | discriminate].
Qed.

Lemma py_index_not_Running v i : py_index v i <> Running.
Proof.
  destruct v as [| | | |s|l|l]; simpl; try discriminate.
  - destruct (String.get i s); discriminate.
  - destruct (nth_error l i); discriminate.
  - destruct (nth_error l i); discriminate.
Qed.

Lemma batch_features_not_Running opt texts : features_of opt texts <> Running.
Proof.
  apply map_result_not_Running. intros i _.
  pose proof (py_index_not_Running texts i) as H1.
  destruct (py_index texts i) as [ti|e|]; cbn [rbind]; try congruence.
  pose proof (py_index_not_Running ti 0) as H2.
  destruct (py_index ti 0) as [first|e|]; cbn [rbind]; try congruence.
  destruct (py_list ti) as [l|e|] eqn:El; cbn [rbind]; try discriminate.
  - apply stream_features_not_Running.
  - destruct ti; discriminate.
Qed.

Lemma batch_features_length opt texts features :
  features_of opt texts = Ok features ->
  List.length features = List.length (p_in opt).
Proof.
  intros H. apply map_result_length in H. now rewrite length_seq in H.
Qed.

(** Only the first [len(opt["in"])] entries of [texts] are read. *)
Lemma batch_features_prefix opt streams extra :
  List.length streams = List.length (p_in opt) ->
  features_of opt (PTuple (streams ++ extra)) = features_of opt (PTuple streams).
Proof.
  intros Hl. apply map_result_ext_in. intros i Hi. apply in_seq in Hi.
  cbn [py_index]. rewrite nth_error_app1 by lia. reflexivity.
Qed.

Lemma batch_features_short opt streams :
  List.length streams < List.length (p_in opt) ->
  exists e, features_of opt (PTuple streams) = Raise e.
Proof.
  intros Hl. apply map_result_raises.
  - intros i _. clear Hl.
    pose proof (py_index_not_Running (PTuple streams) i) as H1.
    destruct (py_index (PTuple streams) i) as [ti|e|]; cbn [rbind]; try congruence.
    pose proof (py_index_not_Running ti 0) as H2.
    destruct (py_index ti 0) as [first|e|]; cbn [rbind]; try congruence.
    destruct (py_list ti) as [l|e|] eqn:El; cbn [rbind]; try discriminate.
    + apply stream_features_not_Running.
    + destruct ti; discriminate.
  - exists (List.length streams). eexists. split; [apply in_seq; lia|].
    cbn [py_index]. replace (nth_error streams (List.length streams)) with (@None pyval).
    + reflexivity.
    + symmetry. apply nth_error_None. lia.
Qed.

(** X13: the arity rule of [train_on_batch].  With at most as many
    positional arguments as input streams all of them are streams and the
    labels handed to the label encoder are [None]; with fewer, no result is
    returned.  With more, the last argument is the labels, the streams are
    the first [len(opt["in"])] arguments and the arguments between them and
    the labels are ignored.  Whenever it returns, the result is the one of
    the model's [train_on_batch], which was given one feature array per input
    stream. *)
Theorem train_on_batch_arity opt args :
  (List.length args <= List.length (p_in opt) ->
   train opt args =
   rbind (features_of opt (PTuple args)) (fun features =>
   rbind (run (labels2onehot PNone)) (fun onehot_labels =>
   run (keras_model (model_train_on_batch features onehot_labels))))) /\
  (List.length args < List.length (p_in opt) -> exists e, train opt args = Raise e) /\
  (forall streams extra labels,
     args = streams ++ extra ++ [labels] ->
     List.length streams = List.length (p_in opt) ->
     train opt args =
     rbind (features_of opt (PTuple streams)) (fun features =>
     rbind (run (labels2onehot labels)) (fun onehot_labels =>
     run (keras_model (model_train_on_batch features onehot_labels))))) /\
  (forall out, train opt args = Ok out ->
     exists features onehot_labels,
       keras_model (model_train_on_batch features onehot_labels) = Returns out /\
       List.length features = List.length (p_in opt)).
Proof.
  assert (Hle : List.length args <= List.length (p_in opt) ->
                train opt args =
                rbind (features_of opt (PTuple args)) (fun features =>
                rbind (run (labels2onehot PNone)) (fun onehot_labels =>
                run (keras_model (model_train_on_batch features onehot_labels))))).
  { intros Hl. unfold train, train_on_batch.
    replace (Nat.ltb (List.length (p_in opt)) (List.length args)) with false
      by (symmetry; apply Nat.ltb_ge; lia).
    reflexivity. }
  split; [exact Hle|]. split; [|split].
  - intros Hl. rewrite Hle by lia.
    destruct (batch_features_short opt args Hl) as (e & He).
    rewrite He. exists e. reflexivity.
  - intros streams extra labels -> Hl. unfold train, train_on_batch.
    replace (Nat.ltb (List.length (p_in opt)) (List.length (streams ++ extra ++ [labels])))
      with true by (symmetry; apply Nat.ltb_lt; rewrite !length_app; simpl; lia).
    rewrite app_assoc, removelast_last, last_last.
    fold (features_of opt (PTuple (streams ++ extra))).
    now rewrite batch_features_prefix.
  - intros out. unfold train, train_on_batch.
    destruct (Nat.ltb _ _);
      match goal with
      | |- rbind ?r _ = _ -> _ => destruct r as [fs|e|] eqn:E
      end; cbn [rbind]; try discriminate;
      match goal with
      | |- rbind (run ?o) _ = _ -> _ => destruct o as [onehot|e]
      end; cbn [run rbind]; try discriminate;
      match goal with
      | |- run ?o = _ -> _ => destruct o as [v|e] eqn:Ev
      end; cbn [run]; try discriminate;
      intros H; inversion H; subst; exists fs, onehot; (split; [exact Ev|]);
      eapply batch_features_length; exact E.
Qed.

Lemma call_as_predictions opt args :
  List.length args = List.length (p_in opt) ->
  call_ opt args =
  rbind (features_of opt (PTuple args)) (fun features =>
  rbind (run (keras_model (model_predict features))) (fun preds =>
  rbind (run (proba2labels preds)) (fun labels => Ok (labels, preds)))).
Proof.
  intros Hl. unfold call_, __call__. rewrite Hl, Nat.eqb_refl.
  unfold infer_on_batch. cbn [List.length Nat.ltb Nat.leb Nat.eqb rbind hd fst snd truthy].
  fold (features_of opt (PTuple args)).
  destruct (features_of opt (PTuple args)); reflexivity.
Qed.

(** X14: [__call__] requires exactly one positional argument per input
    stream ([AssertionError] otherwise) and hands them to [infer_on_batch]
    as one tuple, so none of them is taken for labels: the result is built
    from what the model's [predict] gives on the features of all the
    arguments.  These are the features [infer_on_batch] evaluates on when it
    is given the same streams followed by labels. *)
Theorem call_predicts_on_every_stream opt args :
  (List.length args <> List.length (p_in opt) ->
   call_ opt args = Raise AssertionError) /\
  (List.length args = List.length (p_in opt) ->
   call_ opt args =
   rbind (features_of opt (PTuple args)) (fun features =>
   rbind (run (keras_model (model_predict features))) (fun preds =>
   rbind (run (proba2labels preds)) (fun labels => Ok (labels, preds))))) /\
  (forall labels, args <> [] ->
   infer opt (args ++ [labels]) =
   rbind (features_of opt (PTuple args)) (fun features =>
     if truthy labels
     then rbind (run (labels2onehot labels)) (fun onehot_labels =>
          run (keras_model (model_test_on_batch features onehot_labels)))
     else run (keras_model (model_predict features)))).
Proof.
  split; [|split].
  - intros Hl. unfold call_, __call__. apply Nat.eqb_neq in Hl. now rewrite Hl.
  - apply call_as_predictions.
  - intros labels Hne. unfold infer, infer_on_batch.
    replace (Nat.ltb 1 (List.length (args ++ [labels]))) with true.
    + cbn [rbind fst snd]. rewrite removelast_last, last_last. reflexivity.
    + symmetry. apply Nat.ltb_lt. rewrite length_app. simpl.
      destruct args; [congruence | simpl; lia].
Qed.

(** X15: a call with an input stream that holds no sample returns nothing:
    reading the first sample of the stream to tell texts from token lists
    fails. *)
Theorem empty_stream_is_rejected opt args :
  List.length args = List.length (p_in opt) ->
  In (PList []) args ->
  exists e, call_ opt args = Raise e.
Proof.
  intros Hl Hin.
  rewrite (call_as_predictions opt args Hl).
  assert (Hr : exists e, features_of opt (PTuple args) = Raise e).
  { apply map_result_raises.
    - intros i _.
      pose proof (py_index_not_Running (PTuple args) i) as H1.
      destruct (py_index (PTuple args) i) as [ti|e|]; cbn [rbind]; try congruence.
      pose proof (py_index_not_Running ti 0) as H2.
      destruct (py_index ti 0) as [first|e|]; cbn [rbind]; try congruence.
      destruct (py_list ti) as [l|e|] eqn:El; cbn [rbind]; try discriminate.
      + apply stream_features_not_Running.
      + destruct ti; discriminate.
    - apply In_nth_error in Hin. destruct Hin as (i & Hi).
      exists i. eexists. split.
      + apply in_seq. split; [lia|]. rewrite <- Hl. simpl.
        apply nth_error_Some. congruence.
      + cbn [py_index]. rewrite Hi. reflexivity. }
  destruct Hr as (e & He). rewrite He. exists e. reflexivity.
Qed.

Lemma slice_to_negative {A} (n : Z) (l : list A) :
  (n < 0)%Z -> slice_to n l = firstn (List.length l - Z.to_nat (- n)) l.
Proof.
  intros H. unfold slice_to.
  replace (n <? 0)%Z with true by (symmetry; apply Z.ltb_lt; lia). reflexivity.
Qed.

(** X16: with a negative text size [texts2vec] neither pads nor keeps the
    first tokens: every sentence loses its last [-text_size] tokens and the
    rows are the embedder's output on what is left, of whatever lengths. *)
Theorem texts2vec_negative_text_size opt (sentences : list (list string)) i text_size :
  text_size_of opt i text_size ->
  (text_size < 0)%Z ->
  (0 <= p_embedding_size opt)%Z ->
  texts2vec F zero fasttext_model opt (token_batch sentences) i =
  run (fasttext_model (token_batch (map (drop_last text_size) sentences))).
Proof.
  intros Hts Hneg Hemb. unfold texts2vec, np_zeros.
  replace (p_embedding_size opt <? 0)%Z with false by (symmetry; apply Z.ltb_ge; lia).
  cbn [rbind]. unfold text_size_of in Hts.
  replace (match p_text_size opt with
           | TextSizeList l =>
               match nth_error l i with
               | Some ts => Ok ts
               | None => Raise (IndexError "list index out of range")
               end
           | TextSizeInt ts => Ok ts
           end) with (@Ok Z text_size)
    by (destruct (p_text_size opt); [now subst | now rewrite Hts]).
  cbn [rbind].
  replace (map_result (py_slice_to text_size) (token_batch sentences))
    with (Ok (token_batch (map (drop_last text_size) sentences))).
  - cbn [rbind]. destruct (fasttext_model _) as [vectors|e]; cbn [run rbind];
      [|reflexivity].
    f_equal. rewrite <- (map_id vectors) at 2.
    apply map_ext. intros tokens.
    replace (Z.to_nat (text_size - Z.of_nat (List.length tokens))) with 0 by lia.
    reflexivity.
  - symmetry. unfold token_batch.
    induction sentences as [|sen sentences IH]; simpl; [reflexivity|].
    rewrite IH. simpl. rewrite slice_to_negative by assumption. unfold drop_last.
    now rewrite firstn_map, length_map.
Qed.

(** X17: what [texts2vec] rejects before it looks at the sentences: a
    negative embedding size ([np.zeros] raises [ValueError]) and, when the
    text sizes are a list, a stream index without an entry
    ([IndexError]). *)
Theorem texts2vec_rejects opt sentences i :
  ((p_embedding_size opt < 0)%Z ->
   texts2vec F zero fasttext_model opt sentences i =
   Raise (ValueError "negative dimensions are not allowed")) /\
  (forall l, (0 <= p_embedding_size opt)%Z ->
   p_text_size opt = TextSizeList l -> List.length l <= i ->
   texts2vec F zero fasttext_model opt sentences i =
   Raise (IndexError "list index out of range")).
Proof.
  unfold texts2vec, np_zeros. split.
  - intros H. replace (p_embedding_size opt <? 0)%Z with true
      by (symmetry; apply Z.ltb_lt; lia).
    reflexivity.
  - intros l H Hts Hi. replace (p_embedding_size opt <? 0)%Z with false
      by (symmetry; apply Z.ltb_ge; lia).
    rewrite Hts. cbn [rbind].
    replace (nth_error l i) with (@None Z) by (symmetry; now apply nth_error_None).
    reflexivity.
Qed.

End BatchProperties.

Lemma train_on_batch_arity_witness :
  train_on_batch Z 0%Z example_embedder example_tokenizer _ example_labels2onehot
    _ example_model
    (example_params ["x"] diamond_mask four_nodes four_dense_specs)
    [example_stream; example_stream; example_labels] =
  run (example_model
         (model_train_on_batch
            [[repeat [0; 0; 0] 3 ++ repeat [1; 1; 1] 2;
              repeat [0; 0; 0] 4 ++ repeat [1; 1; 1] 1]]
            [[1; 0]; [1; 0]]))%Z.
Proof.
  destruct (train_on_batch_arity Z 0%Z example_embedder example_tokenizer
              _ example_labels2onehot _ example_model
              (example_params ["x"] diamond_mask four_nodes four_dense_specs)
              [example_stream; example_stream; example_labels])
    as (_ & _ & Hmore & _).
  rewrite (Hmore [example_stream] [example_stream] example_labels eq_refl eq_refl).
  reflexivity.
Defined.

Lemma call_predicts_on_every_stream_witness :
  __call__ Z 0%Z example_embedder example_tokenizer _ example_labels2onehot
    _ example_model _ example_proba2labels
    (example_params ["x"; "y"] diamond_mask four_nodes four_dense_specs)
    [example_stream; example_stream] =
  Ok (["class_0"; "class_0"], [[1; 0]; [1; 0]]%Z).
Proof.
  destruct (call_predicts_on_every_stream Z 0%Z example_embedder example_tokenizer
              _ example_labels2onehot _ example_model _ example_proba2labels
              (example_params ["x"; "y"] diamond_mask four_nodes four_dense_specs)
              [example_stream; example_stream]) as (_ & Hcall & _).
  rewrite (Hcall eq_refl). reflexivity.
Defined.

Lemma empty_stream_is_rejected_witness :
  exists e,
    __call__ Z 0%Z example_embedder example_tokenizer _ example_labels2onehot
      _ example_model _ example_proba2labels
      (example_params ["x"; "y"] diamond_mask four_nodes four_dense_specs)
      [example_stream; PList []] = Raise e.
Proof.
  apply (empty_stream_is_rejected Z 0%Z example_embedder example_tokenizer
           _ example_labels2onehot _ example_model _ example_proba2labels
           (example_params ["x"; "y"] diamond_mask four_nodes four_dense_specs)
           [example_stream; PList []]).
  - reflexivity.
  - simpl. auto.
Defined.

Lemma texts2vec_negative_text_size_witness :
  texts2vec Z 0%Z example_embedder
    (mkParams ["x"] (TextSizeInt (-1)) 3 (pylist diamond_mask) four_nodes
              four_dense_specs 3 "0.5" None)
    (token_batch [["a"; "b"; "c"]; ["d"]]) 0
  = Ok [[[1; 1; 1]; [1; 1; 1]]; []]%Z.
Proof.
  rewrite (texts2vec_negative_text_size Z 0%Z example_embedder
             (mkParams ["x"] (TextSizeInt (-1)) 3 (pylist diamond_mask) four_nodes
                       four_dense_specs 3 "0.5" None)
             [["a"; "b"; "c"]; ["d"]] 0 (-1)).
  - reflexivity.
  - reflexivity.
  - lia.
  - simpl. lia.
Defined.

Lemma texts2vec_rejects_witness :
  texts2vec Z 0%Z example_embedder
    (mkParams ["x"; "y"] (TextSizeList [5%Z]) 3 (pylist diamond_mask) four_nodes
              four_dense_specs 3 "0.5" None)
    (token_batch [["a"]]) 1
  = Raise (IndexError "list index out of range").
Proof.
  apply (proj2 (texts2vec_rejects Z 0%Z example_embedder
                  (mkParams ["x"; "y"] (TextSizeList [5%Z]) 3 (pylist diamond_mask)
                            four_nodes four_dense_specs 3 "0.5" None)
                  (token_batch [["a"]]) 1) [5%Z]).
  - simpl. lia.
  - reflexivity.
  - simpl. lia.
Defined.

(** ** The order of materialization *)

Lemma materialized_app tr1 tr2 :
  materialized (tr1 ++ tr2) = materialized tr1 ++ materialized tr2.
Proof. unfold materialized. apply flat_map_app. Qed.

Lemma materialized_quiet evs :
  Forall (fun e => materialized [e] = []) evs -> materialized evs = [].
Proof.
  induction 1 as [|e evs He _ IH]; [reflexivity|].
  change (e :: evs) with ([e] ++ evs). now rewrite materialized_app, He, IH.
Qed.

Lemma quiet_admits : admits_module_layers (fun e => materialized [e] = []).
Proof. split; reflexivity. Qed.

Lemma emits_quiet {A} (m : M A) w :
  emits (fun e => materialized [e] = []) m ->
  materialized (trace (snd (m w))) = materialized (trace w).
Proof.
  intros H. destruct (H w) as (evs & -> & Hq).
  now rewrite materialized_app, (materialized_quiet evs Hq), app_nil_r.
Qed.

(** One call of [get_node_output] is one materialization, whatever comes
    of it. *)
Lemma get_node_output_materialized node_shape model_layers node_str_id dg params
    edges_outputs inp w :
  materialized (trace (snd (get_node_output node_shape model_layers node_str_id dg
                              params edges_outputs inp w)))
  = materialized (trace w) ++ [node_str_id].
Proof.
  unfold get_node_output, multiplicative_self_attention_get_output.
  erewrite bind_Ok; [|reflexivity].
  rewrite emits_quiet.
  - cbn [trace]. now rewrite materialized_app.
  - apply emits_bind;
      [destruct inp; [apply emits_ret | apply emits_gather_inputs, quiet_admits]|].
    intros t. repeat (emits_step; try reflexivity).
Qed.

Lemma materialize_loop node_shape model_layers dg params inp sources isolates nodes :
  (forall v, In v nodes -> mem v sources = true \/ mem v isolates = false) ->
  forall acc w edges_outputs w',
    for_each nodes (fun edges_outputs node_str_id =>
        if mem node_str_id sources then
          t <- get_node_output node_shape model_layers node_str_id dg params
                 edges_outputs (Some inp) ;;
          ret (dict_set edges_outputs node_str_id t)
        else if mem node_str_id isolates then ret edges_outputs
        else
          t <- get_node_output node_shape model_layers node_str_id dg params
                 edges_outputs None ;;
          ret (dict_set edges_outputs node_str_id t)) acc w = (Ok edges_outputs, w') ->
    materialized (trace w') = materialized (trace w) ++ nodes.
Proof.
  induction nodes as [|v nodes IH]; intros Hv acc w eo w' H; simpl in H.
  - unfold ret in H. inversion H. now rewrite app_nil_r.
  - apply bind_inv in H. destruct H as (acc1 & w1 & Hstep & H).
    rewrite (IH (fun z Hz => Hv z (or_intror Hz)) _ _ _ _ H).
    assert (Hw1 : materialized (trace w1) = materialized (trace w) ++ [v]).
    { destruct (mem v sources) eqn:Es.
      - apply bind_inv in Hstep. destruct Hstep as (t & w2 & Hg & Hr).
        unfold ret in Hr. inversion Hr; subst.
        pose proof (get_node_output_materialized node_shape model_layers v dg params
                      acc (Some inp) w) as Hm.
        now rewrite Hg in Hm.
      - destruct (Hv v (or_introl eq_refl)) as [Hs | Hi]; [congruence|].
        rewrite Hi in Hstep.
        apply bind_inv in Hstep. destruct Hstep as (t & w2 & Hg & Hr).
        unfold ret in Hr. inversion Hr; subst.
        pose proof (get_node_output_materialized node_shape model_layers v dg params
                      acc None w) as Hm.
        now rewrite Hg in Hm. }
    rewrite Hw1, <- app_assoc. reflexivity.
Qed.

(** X18: a stream that is built calls [get_node_output] exactly for the
    nodes of the sequence the scheduling loop left with, in that order and
    once per occurrence: a node the loop lists twice is materialized twice,
    and nothing else is. *)
Theorem stream_materializes_schedule node_shape fuel params model_layers inp w t w' :
  build_stream node_shape fuel params model_layers inp w = (Ok t, w') ->
  exists sequence_of_nodes,
    schedule_loop fuel (graph_of params) (sinks_of (graph_of params))
                  [sources_of (graph_of params)] = Some sequence_of_nodes /\
    materialized (trace w') = materialized (trace w) ++ flatten sequence_of_nodes.
Proof.
  unfold build_stream. intros H.
  apply bind_inv in H. destruct H as ([] & w1 & H1 & H).
  apply bind_inv in H. destruct H as ([] & w2 & H2 & H).
  unfold log in H1, H2. inversion H1; subst w1. inversion H2; subst w2. clear H1 H2.
  fold (graph_of params) in H.
  destruct (schedule_loop fuel (graph_of params) (sinks_of (graph_of params))
              [sources_of (graph_of params)]) as [seq|] eqn:Eseq; [|discriminate].
  exists seq. split; [reflexivity|].
  apply bind_inv in H. destruct H as (eo & w3 & Hloop & H).
  apply bind_inv in H. destruct H as (out & w4 & Hout & H).
  assert (Hw3 : materialized (trace w3) = materialized (trace w) ++ flatten seq).
  { apply materialize_loop in Hloop.
    - rewrite Hloop. cbn [trace]. rewrite !materialized_app. cbn. now rewrite !app_nil_r.
    - intros v Hv.
      destruct (schedule_loop_Some_layers _ _ _ _ 0 _ Eseq) as (k & -> & _).
      apply layers_source_or_child in Hv. destruct Hv as [Hs | Hd].
      + left. now apply mem_In.
      + right. apply mem_false. intros Hi. apply isolates_spec in Hi. tauto. }
  assert (Hw4 : materialized (trace w4) = materialized (trace w3)).
  { pose proof (emits_quiet (sinks_output node_shape (sinks_of (graph_of params)) eo) w3
                  (emits_sinks_output node_shape _ quiet_admits _ _)) as Hq.
    now rewrite Hout in Hq. }
  assert (Hw' : materialized (trace w') = materialized (trace w4)).
  { match type of H with
    | ?m w4 = _ =>
        assert (Hq : emits (fun e => materialized [e] = []) m)
          by (repeat (emits_step; try reflexivity));
        pose proof (emits_quiet m w4 Hq) as Hq'
    end.
    now rewrite H in Hq'. }
  now rewrite Hw', Hw4, Hw3.
Qed.

Lemma stream_materializes_schedule_witness :
  exists w',
    snd (build_stream catalog_shape 5
           (example_params ["x"; "y"] diamond_mask four_nodes four_dense_specs)
           [("node_0", mkLayer 0 (node_func "Dense" [("units", PInt 4)]));
            ("node_1", mkLayer 1 (node_func "Dense" [("units", PInt 4)]));
            ("node_2", mkLayer 2 (node_func "Dense" [("units", PInt 4)]));
            ("node_3", mkLayer 3 (node_func "Dense" [("units", PInt 4)]))]
           (InputTensor 7 [None; Some 5; Some 3]) world0) = w' /\
    materialized (trace w') = ["0"; "1"; "2"; "3"; "3"].
Proof.
  destruct (build_stream _ _ _ _ _ _) as [[t| |] w'] eqn:E;
    try (vm_compute in E; discriminate).
  exists w'. split; [reflexivity|].
  destruct (stream_materializes_schedule _ _ _ _ _ _ _ _ E) as (seq & Hseq & Hm).
  rewrite Hm. vm_compute in Hseq. inversion Hseq. reflexivity.
Defined.

(** ** The mask test of the degenerate branch *)

Lemma sum_zero_all_zero (l : list Z) :
  Forall (fun x => x = 0%Z \/ x = 1%Z) l ->
  fold_right Z.add 0%Z l = 0%Z -> Forall (fun x => x = 0%Z) l.
Proof.
  induction 1 as [|x l Hx Hl IH]; cbn [fold_right]; intros Hs; [constructor|].
  assert (Hnn : (0 <= fold_right Z.add 0 l)%Z).
  { clear - Hl. induction Hl as [|y l [-> | ->] _ IH]; cbn [fold_right]; lia. }
  constructor; [lia | apply IH; lia].
Qed.

Lemma all_zero_sum_zero (l : list Z) :
  Forall (fun x => x = 0%Z) l -> fold_right Z.add 0%Z l = 0%Z.
Proof. induction 1 as [|x l -> _ IH]; simpl; [reflexivity | exact IH]. Qed.

Lemma flat_map_nil {A B} (f : A -> list B) l :
  flat_map f l = [] <-> forall x, In x l -> f x = [].
Proof.
  induction l as [|y l IH]; simpl.
  - split; [intros _ x [] | reflexivity].
  - split.
    + intros H x [<- | Hx]; apply app_eq_nil in H; [tauto | apply IH; tauto].
    + intros H. rewrite (H y (or_introl eq_refl)). apply IH. auto.
Qed.

Lemma enumerate_nth {A} (l : list A) d : forall k i,
  i < List.length l -> In (k + i, nth i l d) (enumerate k l).
Proof.
  induction l as [|x l IH]; intros k i Hi; simpl in Hi; [lia|].
  destruct i as [|i]; simpl.
  - left. f_equal. lia.
  - right. replace (k + S i) with (S k + i) by lia. apply IH. lia.
Qed.

Lemma enumerate_bound {A} (l : list A) : forall k i x,
  In (i, x) (enumerate k l) -> k <= i < k + List.length l.
Proof.
  induction l as [|y l IH]; intros k i x H; simpl in H; [contradiction|].
  destruct H as [H | H].
  - inversion H; subst. simpl. lia.
  - apply IH in H. simpl. lia.
Qed.

Lemma no_edges_iff {V} (nodes : dict V) mask :
  dg_edges (get_digraph_from_binary_mask nodes mask) = [] <->
  forall i j, i < List.length nodes -> j < List.length nodes -> mask_at mask i j <> 1%Z.
Proof.
  unfold get_digraph_from_binary_mask. cbn [dg_edges].
  assert (Hlen : List.length (keys nodes) = List.length nodes)
    by (unfold keys; apply length_map).
  rewrite flat_map_nil. split.
  - intros H i j Hi Hj E.
    pose proof (H _ (enumerate_nth (keys nodes) "" 0 i ltac:(lia))) as Hrow.
    rewrite flat_map_nil in Hrow.
    pose proof (Hrow _ (enumerate_nth (keys nodes) "" 0 j ltac:(lia))) as Hcell.
    cbn [fst snd Nat.add] in Hcell. rewrite E in Hcell. discriminate.
  - intros H [i u] Hiu. apply flat_map_nil. intros [j v] Hjv. cbn [fst snd].
    apply enumerate_bound in Hiu, Hjv.
    destruct (Z.eqb (mask_at mask i j) 1) eqn:E; [|reflexivity].
    apply Z.eqb_eq in E. exfalso. apply (H i j); [lia | lia | assumption].
Qed.

(** X19: for a mask of zeros and ones that fits the node table, the test
    [np.sum(binary_mask) == 0] of the degenerate branch holds exactly when
    the graph extracted from the mask has no edge, and then every node is an
    isolate. *)
Theorem zero_sum_iff_no_edges {V} (nodes : dict V) (mask : Mask) :
  binary_mask (List.length nodes) mask ->
  (np_sum mask = 0%Z <->
   dg_edges (get_digraph_from_binary_mask nodes mask) = []) /\
  (np_sum mask = 0%Z ->
   isolates_of (get_digraph_from_binary_mask nodes mask) = keys nodes).
Proof.
  intros (Hrows & Hcells).
  assert (Hiff : np_sum mask = 0%Z <->
                 dg_edges (get_digraph_from_binary_mask nodes mask) = []).
  { rewrite no_edges_iff. split.
    - intros Hsum i j _ _.
      assert (Hz : Forall (Forall (fun x => x = 0%Z)) mask).
      { unfold np_sum in Hsum. clear Hrows.
        induction Hcells as [|row mask [_ Hrow] Hrest IH]; [constructor|].
        cbn [fold_right map] in Hsum.
        assert (H1 : (0 <= fold_right Z.add 0 row)%Z).
        { clear - Hrow. induction Hrow as [|y l [-> | ->] _ IHr]; cbn [fold_right]; lia. }
        assert (H2 : (0 <= fold_right Z.add 0 (map (fold_right Z.add 0) mask))%Z).
        { clear - Hrest. induction Hrest as [|r m [_ Hr] _ IHm]; cbn [fold_right map]; [lia|].
          assert (0 <= fold_right Z.add 0 r)%Z
            by (clear - Hr; induction Hr as [|y l [-> | ->] _ IHr]; cbn [fold_right]; lia).
          lia. }
        constructor; [apply sum_zero_all_zero; [assumption | lia] | apply IH; lia]. }
      unfold mask_at. rewrite Forall_forall in Hz.
      destruct (nth_in_or_default i mask []) as [Hin | ->];
        [|destruct j; simpl; discriminate].
      specialize (Hz _ Hin). rewrite Forall_forall in Hz.
      destruct (nth_in_or_default j (nth i mask []) 0%Z) as [Hin' | ->];
        [rewrite (Hz _ Hin'); discriminate | discriminate].
    - intros H. unfold np_sum. apply all_zero_sum_zero.
      apply Forall_forall. intros s Hs. apply in_map_iff in Hs.
      destruct Hs as (row & <- & Hrow). apply all_zero_sum_zero.
      apply Forall_forall. intros x Hx.
      destruct (In_nth _ _ [] Hrow) as (i & Hi & Ei).
      rewrite Forall_forall in Hcells. destruct (Hcells row Hrow) as (Hlen & Hbin).
      destruct (In_nth _ _ 0%Z Hx) as (j & Hj & Ej).
      rewrite Forall_forall in Hbin. destruct (Hbin x Hx) as [-> | ->]; [reflexivity|].
      exfalso. apply (H i j); [lia | lia |].
      unfold mask_at. now rewrite Ei, Ej. }
  split; [exact Hiff|].
  intros Hsum. apply Hiff in Hsum.
  unfold isolates_of, find_sources_and_sinks, in_degree, out_degree, in_edges, out_edges.
  cbn [snd]. rewrite Hsum. cbn [filter List.length Nat.eqb andb].
  unfold get_digraph_from_binary_mask. cbn [dg_nodes].
  induction (keys nodes) as [|k l IH]; simpl; [reflexivity | now rewrite IH].
Qed.

Lemma zero_sum_iff_no_edges_witness :
  dg_edges (get_digraph_from_binary_mask three_nodes zero_mask) = [] /\
  np_sum fallback_mask <> 0%Z.
Proof.
  assert (Hb : forall m, Forall (fun row => List.length row <= 3 /\
                 Forall (fun x => x = 0%Z \/ x = 1%Z) row) m ->
               List.length m <= 3 -> binary_mask (List.length three_nodes) m)
    by (intros m H1 H2; split; assumption).
  split.
  - apply (proj1 (zero_sum_iff_no_edges three_nodes zero_mask
                    ltac:(apply Hb; [repeat constructor; simpl; lia | simpl; lia]))).
    reflexivity.
  - intros H.
    apply (proj1 (zero_sum_iff_no_edges three_nodes fallback_mask
                    ltac:(apply Hb; [repeat constructor; simpl; lia | simpl; lia]))) in H.
    discriminate.
Defined.
